(** * Nexify backend: similarity engine, analytics and authentication helpers

    A shallow embedding of the Python sources under [backend/src]:
    - [utils/ai_engine.py]    (modules [AIEngine], [Factors], [Binary64],
                               [Health])
    - [routes/analytics.py]   (modules [Analytics], [Metrics])
    - [routes/connections.py] (module [Connections])
    - [utils/auth.py]         (module [Auth])
    - [routes/auth.py], [main.py] (module [Routes])

    Conventions of the embedding.
    - A Python [str] is the list of its code points, [list N]; the literals
      of the sources are written [u "..."], the code points of the text.
      [str.encode] is UTF-8 and raises on a surrogate code point.
    - A Python [float] is an exact rational [Q]: the scores are sums,
      products and quotients of a few constants. Module [Binary64] has the
      engine once more with binary64 floats, for what depends on rounding
      and on the order of the sums.
    - A Python [set] of strings is a [gset str], a [dict] keyed by strings
      a [gmap str _]; a [dict] with fixed keys ([to_dict], config) a record;
      a [dict] whose items are sorted or listed in a response the list of
      its items in insertion order.
      A loop over a set meets its elements in the order of [elements]; the
      one such loop only adds, so with exact sums the order is immaterial.
    - Built-ins whose tables live outside the repository ([str.lower],
      [str.isspace], [re.match], [hashlib.sha256], ...) are the fields of
      the class [PyBuiltins], a parameter of every definition that calls
      one; the clock and the random source are explicit inputs.
    - A raised exception is the [Raise] outcome of the [outcome] type. *)

From Stdlib Require Import QArith Qminmax Lqa ZArith Lia String Ascii List Bool.
From Stdlib Require Strings.Byte.
From Stdlib Require Floats.
From stdpp Require Import base gmap sets list strings pretty sorting.

(** ** Python values and built-ins shared by the modules *)

Module Py.

Inductive exn : Type :=
  | AttributeError   (* attribute lookup on an object that lacks it *)
  | ValueError       (* e.g. unpacking a list of the wrong length *)
  | UnicodeEncodeError  (* a subclass of ValueError: nothing to encode *)
  | IndexError       (* list index out of range *)
  | KeyError         (* missing dict key *)
  | TypeError        (* operation on a value of the wrong type *)
  | DatabaseError.   (* any exception raised by the ORM session *)

Inductive outcome (A : Type) : Type :=
  | Ok (a : A)
  | Raise (e : exn).
Arguments Ok {A} a.
Arguments Raise {A} e.

(** [isinstance(e, ValueError)]: what [except ValueError] catches. *)
Definition is_ValueError (e : exn) : bool :=
  match e with
  | ValueError | UnicodeEncodeError => true
  | _ => false
  end.

(** A [str]: its code points. *)
Abbreviation str := (list N).

(** The code points of a literal, read from its UTF-8 bytes. *)
Fixpoint utf8_decode (bs : list N) : str :=
  match bs with
  | [] => []
  | b :: r =>
      if (b <? 128)%N then b :: utf8_decode r
      else if (b <? 224)%N then
        match r with
        | c1 :: r' => ((b - 192) * 64 + (c1 - 128))%N :: utf8_decode r'
        | _ => []
        end
      else if (b <? 240)%N then
        match r with
        | c1 :: c2 :: r' =>
            ((b - 224) * 4096 + (c1 - 128) * 64 + (c2 - 128))%N :: utf8_decode r'
        | _ => []
        end
      else
        match r with
        | c1 :: c2 :: c3 :: r' =>
            ((b - 240) * 262144 + (c1 - 128) * 4096 + (c2 - 128) * 64
             + (c3 - 128))%N :: utf8_decode r'
        | _ => []
        end
  end.

Definition u (s : string) : str :=
  utf8_decode (map N_of_ascii (list_ascii_of_string s)).
Arguments u s%_string.

(** The surrogate code points U+D800..U+DFFF: a [str] may hold them (the
    JSON escape \ud800 decodes to one), UTF-8 has no bytes for them. *)
Definition is_surrogate (c : N) : bool :=
  (55296 <=? c)%N && (c <=? 57343)%N.

(** The UTF-8 bytes of a code point that is not a surrogate. *)
Definition utf8_bytes (c : N) : list N :=
  if (c <? 128)%N then [c]
  else if (c <? 2048)%N then [192 + c / 64; 128 + c mod 64]%N
  else if (c <? 65536)%N then
    [224 + c / 4096; 128 + (c / 64) mod 64; 128 + c mod 64]%N
  else
    [240 + c / 262144; 128 + (c / 4096) mod 64; 128 + (c / 64) mod 64;
     128 + c mod 64]%N.

(** [s.encode()] *)
Definition encode (s : str) : outcome (list N) :=
  if existsb is_surrogate s then Raise UnicodeEncodeError
  else Ok (flat_map utf8_bytes s).

(** The built-ins of the interpreter and of the libraries the code calls. *)
Class PyBuiltins : Type := {
  lower : str -> str;                  (* str.lower *)
  isspace : N -> bool;                 (* str.isspace, per character *)
  isupper : N -> bool;                 (* str.isupper, per character *)
  islower : N -> bool;                 (* str.islower, per character *)
  isdigit : N -> bool;                 (* str.isdigit, per character *)
  re_match : str -> str -> bool;       (* re.match(pattern, s) is not None *)
  sha256 : list N -> list N;           (* hashlib.sha256(b).digest() *)
  jwt_encode : Z -> Z -> str -> str    (* jwt.encode of (user_id, iat, key) *)
}.

(** Code that reads and updates objects of type [S] and may raise: the
    result, or the exception, and the objects afterwards. *)
Definition SE (S A : Type) : Type := S -> outcome A * S.

Definition ret {S A} (a : A) : SE S A := fun s => (Ok a, s).

Definition raise {S A} (e : exn) : SE S A := fun s => (Raise e, s).

Definition bind {S A B} (m : SE S A) (k : A -> SE S B) : SE S B :=
  fun s =>
    match m s with
    | (Ok a, s') => k a s'
    | (Raise e, s') => (Raise e, s')
    end.

(** Reading an attribute or an entry of one of the objects. *)
Definition reads {S A} (f : S -> A) : SE S A := fun s => (Ok (f s), s).

(** Updating the objects. *)
Definition modify {S} (f : S -> S) : SE S unit := fun s => (Ok tt, f s).

(** A pure computation that may raise. *)
Definition lift {S A} (r : outcome A) : SE S A := fun s => (r, s).

(** [try: m  except Exception as e: handler] *)
Definition try_except {S A} (m : SE S A) (handler : exn -> SE S A) : SE S A :=
  fun s =>
    match m s with
    | (Raise e, s') => handler e s'
    | r => r
    end.

(** [m] leaves the objects as it found them, whether it returns or raises. *)
Definition read_only {S A} (m : SE S A) : Prop := forall s, snd (m s) = s.

(** Whenever [m] returns, what it returns satisfies [P]. *)
Definition returns_in {S A} (P : A -> Prop) (m : SE S A) : Prop :=
  forall s, match fst (m s) with Ok a => P a | Raise _ => True end.

Notation "'do' x <- m ; k" := (bind m (fun x => k))
  (at level 10, x name, m at level 100, k at level 200).

(** [l[i]] *)
Definition item {A} (l : list A) (i : nat) : outcome A :=
  match l !! i with
  | Some x => Ok x
  | None => Raise IndexError
  end.

(** A [for] loop whose body may raise, threading the variables [s] that
    the body updates. *)
Fixpoint foreach {A S} (l : list A) (body : S -> A -> outcome S) (s : S)
    : outcome S :=
  match l with
  | [] => Ok s
  | x :: l' =>
      match body s x with
      | Ok s' => foreach l' body s'
      | Raise e => Raise e
      end
  end.

(** A value that is either [None] or a [str]: what a nullable text column
    holds, and what [to_dict] copies into the record. *)
Inductive optstr : Type :=
  | PyNone
  | PyStr (s : str).

(** Truthiness of such a value: [None] and [''] are falsy. *)
Definition truthy (v : optstr) : bool :=
  match v with
  | PyNone => false
  | PyStr [] => false
  | PyStr (_ :: _) => true
  end.

Definition str_eqb (a b : str) : bool := bool_decide (a = b).

(** [a == b] on such values. *)
Definition optstr_eqb (a b : optstr) : bool :=
  match a, b with
  | PyNone, PyNone => true
  | PyStr s, PyStr t => str_eqb s t
  | _, _ => false
  end.

(** [not s] *)
Definition str_empty (s : str) : bool :=
  match s with [] => true | _ :: _ => false end.

Fixpoint starts_with (p s : str) : bool :=
  match p, s with
  | [], _ => true
  | _ :: _, [] => false
  | a :: p', b :: s' => (a =? b)%N && starts_with p' s'
  end.

(** [needle in hay] *)
Fixpoint str_contains (needle hay : str) : bool :=
  starts_with needle hay ||
  match hay with
  | [] => false
  | _ :: hay' => str_contains needle hay'
  end.

(** [s.replace(old, new)] for single characters. *)
Definition replace_char (old new : N) (s : str) : str :=
  map (fun c => if (c =? old)%N then new else c) s.

(** [s.replace(c, '')] for a single character [c]. *)
Definition remove_char (c : N) (s : str) : str :=
  filter (fun d => d <> c) s.

(** [s.split()]: the maximal runs of non-blank characters, in order.
    [cur] is the run being read. *)
Fixpoint split_ws_from `{PyBuiltins} (cur : str) (s : str) : list str :=
  match s with
  | [] => if str_empty cur then [] else [cur]
  | c :: s' =>
      if isspace c
      then (if str_empty cur then split_ws_from [] s'
            else cur :: split_ws_from [] s')
      else split_ws_from (cur ++ [c]) s'
  end.

Definition split_ws `{PyBuiltins} (s : str) : list str := split_ws_from [] s.

(** [s.split(sep)] for a one-character separator: always at least one part. *)
Fixpoint split_on_from (sep : N) (cur : str) (s : str) : list str :=
  match s with
  | [] => [cur]
  | c :: s' =>
      if (c =? sep)%N then cur :: split_on_from sep [] s'
      else split_on_from sep (cur ++ [c]) s'
  end.

Definition split_on (sep : N) (s : str) : list str := split_on_from sep [] s.

(** [a < b] on floats. *)
Definition Qlt_bool (a b : Q) : bool := negb (Qle_bool b a).

(** A JSON value of a request body. *)
#[local] Unset Elimination Schemes.
Inductive value : Type :=
  | VNone
  | VBool (b : bool)
  | VInt (z : Z)
  | VFloat (q : Q)
  | VStr (s : str)
  | VList (items : list value)
  | VDict (items : list (str * value)).
#[local] Set Elimination Schemes.

(** [float(n)] for a length or a counter. *)
Definition Qnat (n : nat) : Q := inject_Z (Z.of_nat n).

End Py.

Import Py.

(** ** models/contact.py *)

Module Models.

(** The entries of [SocialProfile.to_dict()] that the code reads. *)
Record SocialProfileDict : Type := {
  platform : str;
  username : str
}.

(** [Contact.to_dict()]: every key is present; a NULL column is [None]. *)
Record ContactDict : Type := {
  contact_id : Z;
  owner_id : Z;
  name : str;
  company : optstr;
  position : optstr;
  industry : optstr;
  location : optstr;
  social_profiles : list SocialProfileDict
}.

(** A row of [SocialProfile]; both columns are NOT NULL. *)
Record SocialProfile : Type := {
  sp_platform : str;
  sp_username : str
}.

(** A row of [Contact] with its [social_profiles] relationship. The four
    text columns below [row_name] are nullable. *)
Record Contact : Type := {
  row_id : Z;
  row_user_id : Z;
  row_name : str;
  row_company : optstr;
  row_position : optstr;
  row_industry : optstr;
  row_location : optstr;
  row_social_profiles : list SocialProfile
}.

Definition profile_to_dict (p : SocialProfile) : SocialProfileDict :=
  {| platform := sp_platform p; username := sp_username p |}.

Definition to_dict (c : Contact) : ContactDict := {|
  contact_id := row_id c;
  owner_id := row_user_id c;
  name := row_name c;
  company := row_company c;
  position := row_position c;
  industry := row_industry c;
  location := row_location c;
  social_profiles := map profile_to_dict (row_social_profiles c)
|}.

(** A row of [Connection]. *)
Record Connection : Type := {
  conn_user_id : Z;
  conn_contact_id : Z;
  suggested_contact_id : Z;
  connection_type : str;
  confidence_score : Q;
  reasoning : str;
  status : str
}.

(** models/analytics.py: the columns of [AIAnalysis] and [ActivityLog]
    that the handlers fill; [output_data] is kept as its two counters. *)
Record AIAnalysis : Type := {
  an_user_id : Z;
  analysis_type : str;
  an_suggestions_generated : nat;
  an_high_confidence : nat;
  an_confidence_score : Q
}.

Record ActivityLog : Type := {
  log_user_id : Z;
  action : str;
  entity_type : str;
  entity_id : option Z
}.

End Models.

(** ** utils/ai_engine.py *)

Module AIEngine.
Import Models.

(** The two tables of an [AIEngine] instance. A [dict] iterates in insertion
    order, so [industry_keywords] is kept as the list of its items. *)
Record AIEngine : Type := {
  industry_keywords : list (str * list str);
  platform_weights : gmap str Q
}.

Definition __init__ : AIEngine := {|
  industry_keywords := [
    (u "tecnología", [u "tech"; u "software"; u "desarrollo"; u "programación";
                      u "ai"; u "ia"; u "datos"; u "digital"]);
    (u "marketing", [u "marketing"; u "publicidad"; u "social media";
                     u "contenido"; u "branding"]);
    (u "finanzas", [u "finanzas"; u "banca"; u "inversión"; u "contabilidad";
                    u "economía"]);
    (u "salud", [u "salud"; u "medicina"; u "farmacia"; u "hospital";
                 u "clínica"]);
    (u "educación", [u "educación"; u "universidad"; u "enseñanza";
                     u "formación"; u "academia"]);
    (u "consultoría", [u "consultoría"; u "asesoría"; u "estrategia";
                       u "gestión"; u "negocios"])
  ];
  platform_weights :=
    <[u "linkedin" := 1%Q]> (<[u "facebook" := (7#10)%Q]>
    (<[u "instagram" := (8#10)%Q]> (<[u "tiktok" := (6#10)%Q]> ∅)))
|}.

(** No weight of the table is negative. *)
Definition weights_nonneg (weights : gmap str Q) : Prop :=
  forall platform weight, weights !! platform = Some weight -> (0 <= weight)%Q.

(** The objects a call can reach: the engine and the two records. Every
    method below is a computation over them that may raise; the attributes
    and entries it uses are read with [reads]. *)
Record Objects : Type := {
  self : AIEngine;
  contact1 : ContactDict;
  contact2 : ContactDict
}.

Definition M (A : Type) : Type := SE Objects A.

Section Methods.
Context `{PyBuiltins}.

(** [contact.get(key, '').lower()]: the key is present, so the default is
    not used; [None] has no [lower]. *)
Definition get_lower (contact : Objects -> ContactDict)
    (key : ContactDict -> optstr) : M str :=
  do v <- reads (fun o => key (contact o));
  match v with
  | PyStr s => ret (lower s)
  | PyNone => raise AttributeError
  end.

(** [any(keyword in text for keyword in keywords)] *)
Definition any_keyword_in (keywords : list str) (text : str) : bool :=
  existsb (fun keyword => str_contains keyword text) keywords.

Definition _calculate_industry_similarity : M Q :=
  do industry1 <- get_lower contact1 industry;
  do industry2 <- get_lower contact2 industry;
  if str_empty industry1 || str_empty industry2 then ret 0%Q
  else if str_eqb industry1 industry2 then ret 1%Q
  else
    do table <- reads (fun o => industry_keywords (self o));
    if existsb (fun '(category, keywords) =>
                  any_keyword_in keywords industry1
                  && any_keyword_in keywords industry2) table
    then ret (7#10)%Q
    else
      let words1 : gset str := list_to_set (split_ws industry1) in
      let words2 : gset str := list_to_set (split_ws industry2) in
      let common_words := words1 ∩ words2 in
      if decide (common_words = ∅) then ret 0%Q
      else ret (Qnat (size common_words)
                / Qnat (Nat.max (size words1) (size words2)))%Q.

Definition _calculate_location_similarity : M Q :=
  do location1 <- get_lower contact1 location;
  do location2 <- get_lower contact2 location;
  if str_empty location1 || str_empty location2 then ret 0%Q
  else if str_eqb location1 location2 then ret 1%Q
  else
    let words1 : gset str :=
      list_to_set (split_ws (replace_char 44 32 location1)) in
    let words2 : gset str :=
      list_to_set (split_ws (replace_char 44 32 location2)) in
    let common_words := words1 ∩ words2 in
    if decide (common_words = ∅) then ret 0%Q
    else ret (if Nat.leb 2 (size common_words) then (8#10)%Q else (5#10)%Q).

Definition _calculate_company_similarity : M Q :=
  do company1 <- get_lower contact1 company;
  do company2 <- get_lower contact2 company;
  if str_empty company1 || str_empty company2 then ret 0%Q
  else if str_eqb company1 company2 then ret 1%Q
  else if str_contains company1 company2 || str_contains company2 company1
  then ret (6#10)%Q
  else ret 0%Q.

(** One iteration of the loop over [platforms1.union(platforms2)]; the
    state is [(total_weight, common_weight)]. The sums here are exact, so
    the order in which the loop meets the platforms does not matter;
    [Binary64] has the loop with binary64 sums, in the order of the
    interpreter. *)
Definition add_platform (weights : gmap str Q) (common_platforms : gset str)
    (platform : str) (acc : Q * Q) : Q * Q :=
  let weight := default (1#2)%Q (weights !! platform) in
  let total_weight := (fst acc + weight)%Q in
  let common_weight :=
    if decide (platform ∈ common_platforms) then (snd acc + weight)%Q
    else snd acc in
  (total_weight, common_weight).

Definition _calculate_social_similarity : M Q :=
  do profiles1 <- reads (fun o => social_profiles (contact1 o));
  do profiles2 <- reads (fun o => social_profiles (contact2 o));
  if bool_decide (profiles1 = []) || bool_decide (profiles2 = [])
  then ret 0%Q
  else
    let platforms1 : gset str := list_to_set (map platform profiles1) in
    let platforms2 : gset str := list_to_set (map platform profiles2) in
    let common_platforms := platforms1 ∩ platforms2 in
    if decide (common_platforms = ∅) then ret 0%Q
    else
      do weights <- reads (fun o => platform_weights (self o));
      let '(total_weight, common_weight) :=
        set_fold (add_platform weights common_platforms) (0%Q, 0%Q)
                 (platforms1 ∪ platforms2) in
      ret (if Qlt_bool 0 total_weight then (common_weight / total_weight)%Q
           else 0%Q).

Definition _get_professional_level (position : str)
    (senior_kw mid_kw junior_kw : list str) : Z :=
  if any_keyword_in senior_kw position then 2%Z
  else if any_keyword_in mid_kw position then 1%Z
  else if any_keyword_in junior_kw position then 0%Z
  else 1%Z.

Definition _calculate_professional_level_similarity : M Q :=
  do position1 <- get_lower contact1 position;
  do position2 <- get_lower contact2 position;
  if str_empty position1 || str_empty position2 then ret 0%Q
  else
    let senior_keywords := [u "ceo"; u "cto"; u "cfo"; u "director";
                            u "gerente"; u "manager"; u "lead"; u "senior"] in
    let mid_keywords := [u "analista"; u "especialista"; u "coordinator";
                         u "supervisor"] in
    let junior_keywords := [u "junior"; u "asistente"; u "trainee";
                            u "intern"] in
    let level1 := _get_professional_level position1 senior_keywords
                    mid_keywords junior_keywords in
    let level2 := _get_professional_level position2 senior_keywords
                    mid_keywords junior_keywords in
    if (level1 =? level2)%Z then ret (8#10)%Q
    else if (Z.abs (level1 - level2) =? 1)%Z then ret (4#10)%Q
    else ret 0%Q.

Definition _get_recommendation_strength (score : Q) : str :=
  if Qle_bool (8#10) score then u "muy_alta"
  else if Qle_bool (6#10) score then u "alta"
  else if Qle_bool (4#10) score then u "media"
  else if Qle_bool (2#10) score then u "baja"
  else u "muy_baja".

(** The returned dict. An entry of [factors] is kept as the pair of the
    label and the score that the f-string renders as ["label (0.70)"]. *)
Record Analysis : Type := {
  similarity_score : Q;
  factors : list (str * Q);
  recommendation_strength : str
}.

(** [similarity_score += score * weight] and the conditional
    [factors.append(...)], on the two local variables. *)
Definition add_factor (label : str) (weight score : Q)
    (locals : Q * list (str * Q)) : Q * list (str * Q) :=
  let similarity_score := (fst locals + score * weight)%Q in
  let factors :=
    if Qlt_bool 0 score then snd locals ++ [(label, score)] else snd locals in
  (similarity_score, factors).

Definition analyze_contact_similarity : M Analysis :=
  let locals := (0%Q, []) in
  do industry_score <- _calculate_industry_similarity;
  let locals := add_factor (u "Industria similar") (3#10) industry_score locals in
  do location_score <- _calculate_location_similarity;
  let locals := add_factor (u "Ubicación similar") (25#100) location_score locals in
  do company_score <- _calculate_company_similarity;
  let locals := add_factor (u "Empresa relacionada") (2#10) company_score locals in
  do social_score <- _calculate_social_similarity;
  let locals := add_factor (u "Presencia social similar") (15#100) social_score locals in
  do level_score <- _calculate_professional_level_similarity;
  let locals := add_factor (u "Nivel profesional similar") (1#10) level_score locals in
  ret {| similarity_score := Qmin (fst locals) 1;
         factors := snd locals;
         recommendation_strength := _get_recommendation_strength (fst locals) |}.

End Methods.

(** The four text entries of the record are strings, none is [None]. *)
Definition is_text (v : optstr) : bool :=
  match v with PyStr _ => true | PyNone => false end.

Definition has_text_fields (c : ContactDict) : bool :=
  is_text (industry c) && is_text (location c) && is_text (company c)
  && is_text (position c).

(** The record of a contact created from a name alone, as
    [create_contact] stores it: the optional columns are NULL. *)
Definition contact_name_only : ContactDict := {|
  contact_id := 1; owner_id := 1; name := u "Ana";
  company := PyNone; position := PyNone; industry := PyNone;
  location := PyNone; social_profiles := []
|}.

(** The record of a contact with every column filled. *)
Definition contact_filled : ContactDict := {|
  contact_id := 2; owner_id := 1; name := u "Luis";
  company := PyStr (u "Acme"); position := PyStr (u "CEO");
  industry := PyStr (u "Tecnología"); location := PyStr (u "Madrid");
  social_profiles := [{| platform := u "linkedin"; username := u "luis" |}]
|}.

(** The record of a contact close to [contact_filled]. *)
Definition contact_eva : ContactDict := {|
  contact_id := 3; owner_id := 1; name := u "Eva";
  company := PyStr (u "Acme Labs"); position := PyStr (u "Senior Developer");
  industry := PyStr (u "Software Development");
  location := PyStr (u "Madrid, Spain");
  social_profiles := [{| platform := u "linkedin"; username := u "eva" |};
                      {| platform := u "tiktok"; username := u "eva" |}]
|}.

(** The weighted sum as the code accumulates it, from [0.0]. *)
Definition weighted_sum (industry_score location_score company_score
    social_score level_score : Q) : Q :=
  (0 + industry_score * (3#10) + location_score * (25#100)
   + company_score * (2#10) + social_score * (15#100)
   + level_score * (1#10))%Q.

(** The same call with the two records exchanged. *)
Definition swap (o : Objects) : Objects :=
  {| self := self o; contact1 := contact2 o; contact2 := contact1 o |}.

(** A call [engine.analyze_contact_similarity(c1, c2)]: its result. *)
Definition call_analyze `{PyBuiltins} (engine : AIEngine)
    (c1 c2 : ContactDict) : outcome Analysis :=
  fst (analyze_contact_similarity
         {| self := engine; contact1 := c1; contact2 := c2 |}).

(** ['text' in factor] for some entry of [factors]: the text is made of
    letters, so it lies in the label of the rendered entry. *)
Definition any_factor_has (text : str) (factors : list (str * Q)) : bool :=
  existsb (fun factor => str_contains text (fst factor)) factors.

(** [str(v)] inside an f-string. *)
Definition fstr (v : optstr) : str :=
  match v with
  | PyStr s => s
  | PyNone => u "None"
  end.

(** [sep.join(parts)] *)
Fixpoint join (sep : str) (parts : list str) : str :=
  match parts with
  | [] => []
  | [p] => p
  | p :: rest => p ++ sep ++ join sep rest
  end.

Definition generate_connection_reasoning (contact1 contact2 : ContactDict)
    (analysis : Analysis) : str :=
  let factors := factors analysis in
  let score := similarity_score analysis in
  if bool_decide (factors = []) then
    u "Perfiles complementarios que podrían beneficiarse de una conexión profesional."
  else
    let reasoning_parts := [] in
    let reasoning_parts :=
      if any_factor_has (u "Industria") factors
      then reasoning_parts
           ++ [u "Ambos profesionales trabajan en " ++ fstr (industry contact1)]
      else reasoning_parts in
    let reasoning_parts :=
      if any_factor_has (u "Ubicación") factors
      then reasoning_parts
           ++ [u "Se encuentran en la misma ubicación geográfica ("
               ++ fstr (location contact1) ++ u ")"]
      else reasoning_parts in
    let reasoning_parts :=
      if any_factor_has (u "Empresa") factors
      then reasoning_parts ++ [u "Tienen conexiones empresariales relacionadas"]
      else reasoning_parts in
    let reasoning_parts :=
      if any_factor_has (u "social") factors
      then reasoning_parts
           ++ [u "Comparten presencia en plataformas sociales similares"]
      else reasoning_parts in
    let reasoning_parts :=
      if Qle_bool (7#10) score
      then reasoning_parts
           ++ [u "Esta conexión tiene un alto potencial de éxito y beneficio mutuo"]
      else if Qle_bool (5#10) score
      then reasoning_parts
           ++ [u "Existe una buena oportunidad de colaboración profesional"]
      else reasoning_parts
           ++ [u "Podría ser una conexión valiosa para expandir la red profesional"] in
    join (u ". ") reasoning_parts ++ u ".".

End AIEngine.

(** ** utils/ai_engine.py: the five results of a call *)

Module Factors.
Import Models AIEngine.

(** The five factor results of a call, when all five return. *)
Definition factor_results `{PyBuiltins} (o : Objects)
    : option (Q * Q * Q * Q * Q) :=
  match fst (_calculate_industry_similarity o),
        fst (_calculate_location_similarity o),
        fst (_calculate_company_similarity o),
        fst (_calculate_social_similarity o),
        fst (_calculate_professional_level_similarity o) with
  | Ok i, Ok l, Ok c, Ok s, Ok v => Some (i, l, c, s, v)
  | _, _, _, _, _ => None
  end.

End Factors.

(** ** utils/ai_engine.py with binary64 floats *)

Module Binary64.
Import Floats.
Import Models AIEngine.
#[local] Set Warnings "-inexact-float".
#[local] Open Scope float_scope.

(** The functions of the engine once more, with a Python [float] as the
    binary64 number it is: the additions, products and quotients round to
    nearest, and a literal is the nearest binary64 number. The engine is
    the one [__init__] builds. *)

(** [list(platforms1.union(platforms2))] for two sets built from the given
    strings in order: the order in which a loop meets the elements of the
    union. It follows the hashes of the strings, which change from one
    process to the next (PYTHONHASHSEED), and the order of insertion where
    two hashes collide. *)
Class SetOrder : Type := {
  union_order : list str -> list str -> list str
}.

(** [self.platform_weights] *)
Definition platform_weights : list (str * float) :=
  [(u "linkedin", 1.0); (u "facebook", 0.7); (u "instagram", 0.8);
   (u "tiktok", 0.6)].

(** [self.platform_weights.get(platform, 0.5)] *)
Definition weight_of (platform : str) : float :=
  match List.find (fun entry => str_eqb (fst entry) platform)
                  platform_weights with
  | Some entry => snd entry
  | None => 0.5
  end.

(** [len(x)] as an operand of [/]. *)
Definition float_of_nat (n : nat) : float :=
  of_uint63 (Uint63.of_Z (Z.of_nat n)).

Section Methods.
Context `{PyBuiltins} `{SetOrder}.

Definition _calculate_industry_similarity : M float :=
  do industry1 <- get_lower contact1 industry;
  do industry2 <- get_lower contact2 industry;
  if str_empty industry1 || str_empty industry2 then ret 0.0
  else if str_eqb industry1 industry2 then ret 1.0
  else
    do table <- reads (fun o => industry_keywords (self o));
    if existsb (fun '(category, keywords) =>
                  any_keyword_in keywords industry1
                  && any_keyword_in keywords industry2) table
    then ret 0.7
    else
      let words1 : gset str := list_to_set (split_ws industry1) in
      let words2 : gset str := list_to_set (split_ws industry2) in
      let common_words := words1 ∩ words2 in
      if decide (common_words = ∅) then ret 0.0
      else ret (float_of_nat (size common_words)
                / float_of_nat (Nat.max (size words1) (size words2))).

Definition _calculate_location_similarity : M float :=
  do location1 <- get_lower contact1 location;
  do location2 <- get_lower contact2 location;
  if str_empty location1 || str_empty location2 then ret 0.0
  else if str_eqb location1 location2 then ret 1.0
  else
    let words1 : gset str :=
      list_to_set (split_ws (replace_char 44 32 location1)) in
    let words2 : gset str :=
      list_to_set (split_ws (replace_char 44 32 location2)) in
    let common_words := words1 ∩ words2 in
    if decide (common_words = ∅) then ret 0.0
    else ret (if Nat.leb 2 (size common_words) then 0.8 else 0.5).

Definition _calculate_company_similarity : M float :=
  do company1 <- get_lower contact1 company;
  do company2 <- get_lower contact2 company;
  if str_empty company1 || str_empty company2 then ret 0.0
  else if str_eqb company1 company2 then ret 1.0
  else if str_contains company1 company2 || str_contains company2 company1
  then ret 0.6
  else ret 0.0.

(** One iteration of the loop over [platforms1.union(platforms2)]; the
    state is [(total_weight, common_weight)]. *)
Definition add_platform (common_platforms : gset str) (acc : float * float)
    (platform : str) : float * float :=
  let weight := weight_of platform in
  let total_weight := fst acc + weight in
  let common_weight :=
    if decide (platform ∈ common_platforms) then snd acc + weight
    else snd acc in
  (total_weight, common_weight).

Definition _calculate_social_similarity : M float :=
  do profiles1 <- reads (fun o => social_profiles (contact1 o));
  do profiles2 <- reads (fun o => social_profiles (contact2 o));
  if bool_decide (profiles1 = []) || bool_decide (profiles2 = [])
  then ret 0.0
  else
    let platforms1 := map platform profiles1 in
    let platforms2 := map platform profiles2 in
    let common_platforms : gset str :=
      list_to_set platforms1 ∩ list_to_set platforms2 in
    if decide (common_platforms = ∅) then ret 0.0
    else
      let '(total_weight, common_weight) :=
        fold_left (add_platform common_platforms)
                  (union_order platforms1 platforms2) (0.0, 0.0) in
      ret (if 0 <? total_weight then common_weight / total_weight else 0.0).

Definition _calculate_professional_level_similarity : M float :=
  do position1 <- get_lower contact1 position;
  do position2 <- get_lower contact2 position;
  if str_empty position1 || str_empty position2 then ret 0.0
  else
    let senior_keywords := [u "ceo"; u "cto"; u "cfo"; u "director";
                            u "gerente"; u "manager"; u "lead"; u "senior"] in
    let mid_keywords := [u "analista"; u "especialista"; u "coordinator";
                         u "supervisor"] in
    let junior_keywords := [u "junior"; u "asistente"; u "trainee";
                            u "intern"] in
    let level1 := _get_professional_level position1 senior_keywords
                    mid_keywords junior_keywords in
    let level2 := _get_professional_level position2 senior_keywords
                    mid_keywords junior_keywords in
    if (level1 =? level2)%Z then ret 0.8
    else if (Z.abs (level1 - level2) =? 1)%Z then ret 0.4
    else ret 0.0.

Definition _get_recommendation_strength (score : float) : str :=
  if 0.8 <=? score then u "muy_alta"
  else if 0.6 <=? score then u "alta"
  else if 0.4 <=? score then u "media"
  else if 0.2 <=? score then u "baja"
  else u "muy_baja".

(** The returned dict; an entry of [factors] is the pair of the label and
    the score that the f-string renders. *)
Record Analysis : Type := {
  similarity_score : float;
  factors : list (str * float);
  recommendation_strength : str
}.

(** [similarity_score += score * weight] and the conditional
    [factors.append(...)], on the two local variables. *)
Definition add_factor (label : str) (weight score : float)
    (locals : float * list (str * float)) : float * list (str * float) :=
  let similarity_score := fst locals + score * weight in
  let factors :=
    if 0 <? score then snd locals ++ [(label, score)] else snd locals in
  (similarity_score, factors).

Definition analyze_contact_similarity : M Analysis :=
  let locals := (0.0, []) in
  do industry_score <- _calculate_industry_similarity;
  let locals := add_factor (u "Industria similar") 0.3 industry_score locals in
  do location_score <- _calculate_location_similarity;
  let locals := add_factor (u "Ubicación similar") 0.25 location_score locals in
  do company_score <- _calculate_company_similarity;
  let locals := add_factor (u "Empresa relacionada") 0.2 company_score locals in
  do social_score <- _calculate_social_similarity;
  let locals := add_factor (u "Presencia social similar") 0.15 social_score locals in
  do level_score <- _calculate_professional_level_similarity;
  let locals := add_factor (u "Nivel profesional similar") 0.1 level_score locals in
  ret {| similarity_score :=
           if 1.0 <? fst locals then 1.0 else fst locals;   (* min(.., 1.0) *)
         factors := snd locals;
         recommendation_strength := _get_recommendation_strength (fst locals) |}.

(** A call [ai_engine.analyze_contact_similarity(c1, c2)]: its result. *)
Definition call_analyze (c1 c2 : ContactDict) : outcome Analysis :=
  fst (analyze_contact_similarity
         {| self := __init__; contact1 := c1; contact2 := c2 |}).

End Methods.

(** Two contacts of one industry: Nora is on LinkedIn and TikTok, Omar on
    Instagram, LinkedIn and TikTok. *)
Definition contact_nora : ContactDict := {|
  contact_id := 5; owner_id := 1; name := u "Nora";
  company := PyStr (u "Acme"); position := PyStr (u "CEO");
  industry := PyStr (u "Tecnología"); location := PyStr (u "Madrid");
  social_profiles := [{| platform := u "linkedin"; username := u "nora" |};
                      {| platform := u "tiktok"; username := u "nora" |}]
|}.

Definition contact_omar : ContactDict := {|
  contact_id := 6; owner_id := 1; name := u "Omar";
  company := PyStr (u "Globex"); position := PyStr (u "Intern");
  industry := PyStr (u "Tecnología"); location := PyStr (u "Bilbao");
  social_profiles := [{| platform := u "instagram"; username := u "omar" |};
                      {| platform := u "linkedin"; username := u "omar" |};
                      {| platform := u "tiktok"; username := u "omar" |}]
|}.

End Binary64.

(** ** routes/analytics.py *)

Module Analytics.
Import Models.

(** The condition of the inner loop: a shared non-empty industry, location
    or company. [a and b and a == b] is truthy when all three are. *)
Definition shares (key : Contact -> optstr) (contact1 contact2 : Contact) : bool :=
  truthy (key contact1) && truthy (key contact2)
  && optstr_eqb (key contact1) (key contact2).

Definition potential_connection (contact1 contact2 : Contact) : bool :=
  shares row_industry contact1 contact2
  || shares row_location contact1 contact2
  || shares row_company contact1 contact2.

(** [enumerate(l, start)] *)
Definition enumerate {A} (start : nat) (l : list A) : list (nat * A) :=
  imap (fun i x => (start + i, x)%nat) l.

(** The two nested loops, threading the counter [connections]. *)
Definition count_connections (contacts : list Contact) : nat :=
  fold_left
    (fun connections '(i, contact1) =>
       fold_left
         (fun connections contact2 =>
            if potential_connection contact1 contact2
            then S connections else connections)
         (drop (i + 1) contacts) connections)
    (enumerate 0 contacts) 0%nat.

(** The pairs counted from a list: each element with those after it. *)
Fixpoint count_after (contacts : list Contact) : nat :=
  match contacts with
  | [] => 0
  | contact1 :: rest =>
      length (List.filter (potential_connection contact1) rest) + count_after rest
  end.

(** The pairs of positions [(i, j)] with [i < j < n]: the unordered pairs
    of [n] contacts, each taken once. *)
Definition index_pairs (n : nat) : list (nat * nat) :=
  flat_map (fun i => map (pair i) (seq (S i) (n - S i))) (seq 0 n).

(** Whether the contacts at two positions share a non-empty industry,
    location or company. *)
Definition share_at (contacts : list Contact) (ij : nat * nat) : bool :=
  match contacts !! fst ij, contacts !! snd ij with
  | Some contact1, Some contact2 => potential_connection contact1 contact2
  | _, _ => false
  end.

(** The number of unordered pairs of contacts that share one of them. *)
Definition unordered_pairs_sharing (contacts : list Contact) : nat :=
  length (List.filter (share_at contacts) (index_pairs (length contacts))).

Definition calculate_network_density (contacts : list Contact) : Q :=
  if Nat.ltb (length contacts) 2 then 0%Q
  else
    let connections := count_connections contacts in
    let total_possible :=
      (inject_Z (Z.of_nat (length contacts) * (Z.of_nat (length contacts) - 1))
       / 2)%Q in
    if Qlt_bool 0 total_possible then (Qnat connections / total_possible)%Q
    else 0%Q.

End Analytics.

(** ** routes/connections.py *)

Module Connections.
Import Models AIEngine Analytics.

(** The tables the handler reads and writes. *)
Record DB : Type := {
  contacts : list Contact;
  connections : list Connection;
  ai_analyses : list AIAnalysis;
  activity_logs : list ActivityLog
}.

(** The module-level [ai_engine = AIEngine()]. *)
Definition ai_engine : AIEngine := __init__.

Definition determine_connection_type_from_analysis (analysis : Analysis) : str :=
  let factors := factors analysis in
  if any_factor_has (u "Industria") factors then
    if any_factor_has (u "Ubicación") factors
    then u "industry_location_match"
    else u "industry_match"
  else if any_factor_has (u "Ubicación") factors then u "location_match"
  else if any_factor_has (u "Empresa") factors then u "company_match"
  else if any_factor_has (u "social") factors then u "social_match"
  else u "ai_recommended".

(** [Connection.query.filter_by(user_id=.., contact_id=..,
    suggested_contact_id=..).first()] *)
Definition existing_connection (db : DB) (user_id id1 id2 : Z)
    : option Connection :=
  List.find (fun c => (conn_user_id c =? user_id)%Z
                 && (conn_contact_id c =? id1)%Z
                 && (suggested_contact_id c =? id2)%Z)
       (connections db).

(** The contacts of user 1: Luis and Eva with every column filled, Iker far
    from both, and Ana created from a name alone, whose optional columns are
    NULL. *)
Definition row_name_only : Contact := {|
  row_id := 1; row_user_id := 1; row_name := u "Ana";
  row_company := PyNone; row_position := PyNone; row_industry := PyNone;
  row_location := PyNone; row_social_profiles := []
|}.

Definition row_filled : Contact := {|
  row_id := 2; row_user_id := 1; row_name := u "Luis";
  row_company := PyStr (u "Acme"); row_position := PyStr (u "CEO");
  row_industry := PyStr (u "Tecnología"); row_location := PyStr (u "Madrid");
  row_social_profiles := [{| sp_platform := u "linkedin"; sp_username := u "luis" |}]
|}.

Definition row_eva : Contact := {|
  row_id := 3; row_user_id := 1; row_name := u "Eva";
  row_company := PyStr (u "Acme Labs");
  row_position := PyStr (u "Senior Developer");
  row_industry := PyStr (u "Software Development");
  row_location := PyStr (u "Madrid, Spain");
  row_social_profiles :=
    [{| sp_platform := u "linkedin"; sp_username := u "eva" |};
     {| sp_platform := u "tiktok"; sp_username := u "eva" |}]
|}.

Definition row_iker : Contact := {|
  row_id := 4; row_user_id := 1; row_name := u "Iker";
  row_company := PyStr (u "Banco Norte"); row_position := PyStr (u "Analista");
  row_industry := PyStr (u "Finanzas"); row_location := PyStr (u "Bilbao");
  row_social_profiles := []
|}.

(** The tables when user 1 owns Luis, Ana and Eva and has no suggestion
    yet. *)
Definition db_with_null_columns : DB := {|
  contacts := [row_filled; row_name_only; row_eva];
  connections := [];
  ai_analyses := [];
  activity_logs := []
|}.

Section Handler.
Context `{PyBuiltins}.

(** The body of the inner loop for the pair at indices [i < j]; the loop
    variable it updates is the list [suggestions]. *)
Definition consider_pair (db : DB) (user_id : Z) (contacts_data : list ContactDict)
    (i : nat) (contact1 : Contact) (suggestions : list Connection)
    (jc : nat * Contact) : outcome (list Connection) :=
  let '(j, contact2) := jc in
  match item contacts_data i with
  | Raise e => Raise e
  | Ok contact1_dict =>
  match item contacts_data j with
  | Raise e => Raise e
  | Ok contact2_dict =>
  match call_analyze ai_engine contact1_dict contact2_dict with
  | Raise e => Raise e
  | Ok analysis =>
      if Qle_bool (3#10) (similarity_score analysis) then
        match existing_connection db user_id (row_id contact1) (row_id contact2) with
        | Some _ => Ok suggestions
        | None =>
            let reasoning :=
              generate_connection_reasoning contact1_dict contact2_dict analysis in
            let connection_type :=
              determine_connection_type_from_analysis analysis in
            Ok (suggestions ++ [{|
              conn_user_id := user_id;
              conn_contact_id := row_id contact1;
              suggested_contact_id := row_id contact2;
              connection_type := connection_type;
              confidence_score := similarity_score analysis;
              reasoning := reasoning;
              status := u "pending" |}])
        end
      else Ok suggestions
  end end end.

(** The unordered pairs of a list in index order: each element with those
    after it. *)
Fixpoint pairs_in_order {A} (l : list A) : list (A * A) :=
  match l with
  | [] => []
  | x :: rest => map (pair x) rest ++ pairs_in_order rest
  end.

(** What the specification asks for one pair: a new pending row carrying the
    score when the score reaches 0.3 and no row exists for the ordered pair,
    and nothing otherwise. *)
Definition suggestion_for (db : DB) (user_id : Z) (pair : Contact * Contact)
    : list Connection :=
  let '(contact1, contact2) := pair in
  match call_analyze ai_engine (to_dict contact1) (to_dict contact2) with
  | Raise _ => []
  | Ok analysis =>
      if Qle_bool (3#10) (similarity_score analysis)
         && negb (bool_decide (is_Some (existing_connection db user_id
                                          (row_id contact1) (row_id contact2))))
      then [{| conn_user_id := user_id;
               conn_contact_id := row_id contact1;
               suggested_contact_id := row_id contact2;
               connection_type := determine_connection_type_from_analysis analysis;
               confidence_score := similarity_score analysis;
               reasoning := generate_connection_reasoning
                              (to_dict contact1) (to_dict contact2) analysis;
               status := u "pending" |}]
      else []
  end.

(** The two nested loops of the handler. *)
Definition collect_suggestions (db : DB) (user_id : Z)
    (contacts : list Contact) (contacts_data : list ContactDict)
    : outcome (list Connection) :=
  foreach (enumerate 0 contacts)
    (fun suggestions '(i, contact1) =>
       foreach (enumerate (i + 1) (drop (i + 1) contacts))
         (consider_pair db user_id contacts_data i contact1) suggestions)
    [].

Definition Qsum (l : list Q) : Q := fold_left Qplus l 0%Q.

(** The handler: the status code of the response (or the exception that
    escapes it, which the framework answers with 500) and the tables
    afterwards. [user_id] is [data.get('user_id')], [None] when absent. *)
Definition generate_connections (user_id : option Z) (db : DB)
    : outcome Z * DB :=
  match user_id with
  | None => (Ok 400%Z, db)
  | Some user_id =>
  if (user_id =? 0)%Z then (Ok 400%Z, db)
  else
    let contacts :=
      List.filter (fun c => (row_user_id c =? user_id)%Z) (contacts db) in
    if Nat.ltb (length contacts) 2 then (Ok 400%Z, db)
    else
      let contacts_data := map to_dict contacts in
      match collect_suggestions db user_id contacts contacts_data with
      | Raise e => (Raise e, db)
      | Ok suggestions =>
          (* db.session.add(suggestion) for each, then commit *)
          let saved := connections db ++ suggestions in
          let avg_confidence :=
            if bool_decide (suggestions = []) then 0%Q
            else (Qsum (map confidence_score suggestions)
                  / Qnat (length suggestions))%Q in
          let high_confidence_count :=
            length (List.filter (fun s => Qle_bool (7#10) (confidence_score s))
                           suggestions) in
          let analysis := {|
            an_user_id := user_id;
            analysis_type := u "connection_suggestion_advanced";
            an_suggestions_generated := length suggestions;
            an_high_confidence := high_confidence_count;
            an_confidence_score := avg_confidence |} in
          let log := {|
            log_user_id := user_id;
            action := u "connections_generated_ai";
            entity_type := u "connection";
            entity_id := None |} in
          (Ok 200%Z,
           {| contacts := Connections.contacts db;
              connections := saved;
              ai_analyses := ai_analyses db ++ [analysis];
              activity_logs := activity_logs db ++ [log] |})
      end
  end.



End Handler.

End Connections.

(** ** utils/ai_engine.py: the health of a network *)

Module Health.
Import Models AIEngine Analytics.

(** What a call can raise: what [analyze_contact_similarity] raises, or a
    division by zero. *)
Inductive raised : Type :=
  | FromAnalysis (e : exn)
  | ZeroDivisionError.

(** The returned dict; the dict of an empty network has neither
    [total_contacts] nor [unique_industries]. *)
Record NetworkHealth : Type := {
  health_score : Q;
  diversity_index : Q;
  connection_potential : Q;
  total_contacts : option nat;
  unique_industries : option nat;
  recommendations : list str
}.

(** The string inside a truthy value. *)
Definition text_of (v : optstr) : option str :=
  match v with
  | PyStr (c :: s) => Some (c :: s)
  | _ => None
  end.

(** [[c.get(key) for c in contacts if c.get(key)]] *)
Definition truthy_values (key : ContactDict -> optstr)
    (contacts : list ContactDict) : list str :=
  omap (fun c => text_of (key c)) contacts.

(** The six messages of [_generate_network_recommendations]. *)
Definition message_more_contacts : str :=
  u "Considera agregar más contactos para una red más robusta (objetivo: 10+ contactos)".
Definition message_diversify : str :=
  u "Diversifica tu red agregando contactos de diferentes industrias".
Definition message_common_points : str :=
  u "Busca contactos con más puntos en común para facilitar conexiones".
Definition message_expand : str :=
  u "Expande tu red geográficamente para acceder a más oportunidades".
Definition message_add_profiles : str :=
  u "Agrega perfiles sociales a más contactos para mejorar las sugerencias de IA".
Definition message_balanced : str :=
  u "Tu red está bien balanceada. Continúa agregando contactos de calidad.".

(** The result, or [None] for the [ZeroDivisionError] of an empty list. *)
Definition _generate_network_recommendations (contacts : list ContactDict)
    (diversity potential : Q) : option (list str) :=
  let recommendations := [] in
  let recommendations :=
    if Nat.ltb (length contacts) 10
    then recommendations ++ [message_more_contacts]
    else recommendations in
  let recommendations :=
    if Qlt_bool diversity (3#10)
    then recommendations ++ [message_diversify]
    else recommendations in
  let recommendations :=
    if Qlt_bool potential (2#10)
    then recommendations ++ [message_common_points]
    else recommendations in
  let locations := truthy_values location contacts in
  let recommendations :=
    if Nat.ltb (size (list_to_set locations : gset str)) 3
    then recommendations ++ [message_expand]
    else recommendations in
  let social_contacts :=
    List.filter (fun c => negb (bool_decide (social_profiles c = []))) contacts in
  if Nat.eqb (length contacts) 0 then None
  else
    let recommendations :=
      if Qlt_bool (Qnat (length social_contacts) / Qnat (length contacts))
                  (5#10)
      then recommendations ++ [message_add_profiles]
      else recommendations in
    let recommendations :=
      if bool_decide (recommendations = [])
      then recommendations ++ [message_balanced]
      else recommendations in
    Some recommendations.

Section Methods.
Context `{PyBuiltins}.

(** The body of the inner loop: one pair, and the counter
    [high_potential_connections]. *)
Definition count_pair (self : AIEngine) (contact1 : ContactDict) (high : nat)
    (contact2 : ContactDict) : outcome nat :=
  match call_analyze self contact1 contact2 with
  | Raise e => Raise e
  | Ok analysis =>
      Ok (if Qle_bool (5#10) (similarity_score analysis) then S high else high)
  end.

(** The two nested loops. *)
Definition count_high_potential (self : AIEngine) (contacts : list ContactDict)
    : outcome nat :=
  foreach (enumerate 0 contacts)
    (fun high '(i, contact1) =>
       foreach (drop (i + 1) contacts) (count_pair self contact1) high)
    0.

Definition analyze_network_health (self : AIEngine)
    (contacts : list ContactDict) : raised + NetworkHealth :=
  if bool_decide (contacts = []) then
    inr {| health_score := 0;
           diversity_index := 0;
           connection_potential := 0;
           total_contacts := None;
           unique_industries := None;
           recommendations :=
             [u "Agregar contactos para comenzar el análisis"] |}
  else
    let industries := truthy_values industry contacts in
    let diversity_index :=
      if bool_decide (contacts = []) then 0%Q
      else (Qnat (size (list_to_set industries : gset str))
            / Qnat (length contacts))%Q in
    let total_possible_connections :=
      (inject_Z (Z.of_nat (length contacts) * (Z.of_nat (length contacts) - 1))
       / 2)%Q in
    match count_high_potential self contacts with
    | Raise e => inl (FromAnalysis e)
    | Ok high_potential_connections =>
        let connection_potential :=
          if Qlt_bool 0 total_possible_connections
          then (Qnat high_potential_connections / total_possible_connections)%Q
          else 0%Q in
        let health_score :=
          (diversity_index * (4#10) + connection_potential * (6#10))%Q in
        match _generate_network_recommendations contacts diversity_index
                connection_potential with
        | None => inl ZeroDivisionError
        | Some recommendations =>
            inr {| health_score := health_score;
                   diversity_index := diversity_index;
                   connection_potential := connection_potential;
                   total_contacts := Some (length contacts);
                   unique_industries :=
                     Some (size (list_to_set industries : gset str));
                   recommendations := recommendations |}
        end
    end.

End Methods.

End Health.

(** ** routes/analytics.py: the other metrics of a network *)

Module Metrics.
Import Models Health.

(** A [dict] that counts, kept as the list of its items in insertion
    order. [bump k d] is [d[k] = d.get(k, 0) + 1]. *)
Fixpoint bump (k : str) (d : list (str * nat)) : list (str * nat) :=
  match d with
  | [] => [(k, 1)]
  | (k', n) :: d' =>
      if str_eqb k' k then (k', S n) :: d' else (k', n) :: bump k d'
  end.

(** [d.get(k, 0)] *)
Fixpoint get_count (k : str) (d : list (str * nat)) : nat :=
  match d with
  | [] => 0
  | (k', n) :: d' => if str_eqb k' k then n else get_count k d'
  end.

(** The counting loop of [calculate_industry_diversity] and
    [calculate_geographic_spread]; [values] holds the attribute of each
    contact in turn, and a falsy one is skipped. *)
Definition tally (values : list optstr) : list (str * nat) :=
  fold_left (fun d v => match text_of v with
                        | Some s => bump s d
                        | None => d
                        end) values [].

(** [sum(d.values())] *)
Definition sum_values (d : list (str * nat)) : nat :=
  fold_left (fun total item => total + snd item) d 0.

(** [sorted(d.items(), key=lambda x: x[1], reverse=True)]: by decreasing
    count; the sort is stable, so items with equal counts stay in their
    order. *)
Fixpoint insert_by_count (x : str * nat) (sorted : list (str * nat))
    : list (str * nat) :=
  match sorted with
  | [] => [x]
  | y :: rest =>
      if Nat.leb (snd y) (snd x) then x :: y :: rest
      else y :: insert_by_count x rest
  end.

Definition sorted_by_count (items : list (str * nat)) : list (str * nat) :=
  fold_right insert_by_count [] items.

(** The returned dict of [calculate_industry_diversity]. *)
Record IndustryDiversity : Type := {
  diversity_score : Q;
  total_industries : nat;
  top_industries : list (str * nat)
}.

Definition calculate_industry_diversity (contacts : list Contact)
    : IndustryDiversity :=
  let industries := tally (map row_industry contacts) in
  let total_with_industry := sum_values industries in
  let diversity_score :=
    if Nat.ltb 0 total_with_industry
    then (Qnat (length industries) / Qnat total_with_industry)%Q
    else 0%Q in
  let top_industries := take 5 (sorted_by_count industries) in
  {| diversity_score := diversity_score;
     total_industries := length industries;
     top_industries := top_industries |}.

(** The returned dict of [calculate_geographic_spread]. *)
Record GeographicSpread : Type := {
  spread_score : Q;
  total_locations : nat;
  top_locations : list (str * nat)
}.

Definition calculate_geographic_spread (contacts : list Contact)
    : GeographicSpread :=
  let locations := tally (map row_location contacts) in
  let total_with_location := sum_values locations in
  let spread_score :=
    if Nat.ltb 0 total_with_location
    then (Qnat (length locations) / Qnat total_with_location)%Q
    else 0%Q in
  let top_locations := take 5 (sorted_by_count locations) in
  {| spread_score := spread_score;
     total_locations := length locations;
     top_locations := top_locations |}.

(** A [dict] of lists, kept as the list of its items in insertion order.
    [file_under k c d] is [d.setdefault(k, []).append(c)]. *)
Fixpoint file_under (k : str) (c : Contact) (d : list (str * list Contact))
    : list (str * list Contact) :=
  match d with
  | [] => [(k, [c])]
  | (k', l) :: d' =>
      if str_eqb k' k then (k', l ++ [c]) :: d' else (k', l) :: file_under k c d'
  end.

Definition group_by_industry (contacts : list Contact)
    : list (str * list Contact) :=
  fold_left (fun by_industry contact =>
               match text_of (row_industry contact) with
               | Some industry => file_under industry contact by_industry
               | None => by_industry
               end) contacts [].

(** An entry of the list that [identify_connection_opportunities] returns;
    its [type] is always [industry_cluster]. *)
Record Opportunity : Type := {
  opportunity_type : str;
  opportunity_industry : str;
  contact_count : nat;
  potential_connections : Q
}.

Definition identify_connection_opportunities (contacts : list Contact)
    : list Opportunity :=
  let by_industry := group_by_industry contacts in
  flat_map (fun '(industry, industry_contacts) =>
              if Nat.leb 3 (length industry_contacts)
              then [{| opportunity_type := u "industry_cluster";
                       opportunity_industry := industry;
                       contact_count := length industry_contacts;
                       potential_connections :=
                         (inject_Z (Z.of_nat (length industry_contacts)
                                    * (Z.of_nat (length industry_contacts) - 1))
                          / 2)%Q |}]
              else [])
           by_industry.

(** The returned dict of [calculate_social_media_coverage]; the two inner
    dicts are kept as the lists of their items. *)
Record SocialCoverage : Type := {
  platform_counts : list (str * nat);
  coverage_percentages : list (str * Q);
  total_profiles : nat;
  avg_platforms_per_contact : Q
}.

(** [platform_coverage[platform] += 1] *)
Definition increment (platform : str) (coverage : list (str * nat))
    : list (str * nat) :=
  map (fun item => if str_eqb (fst item) platform
                   then (fst item, S (snd item)) else item) coverage.

(** The body of the loop over the profiles of one contact; the state is
    the set [contact_platforms] and the counter [total_profiles]. *)
Definition note_profile (platform_coverage : list (str * nat))
    (state : gset str * nat) (profile : SocialProfile) : gset str * nat :=
  if bool_decide (sp_platform profile ∈ map fst platform_coverage)
  then ({[sp_platform profile]} ∪ fst state, S (snd state))
  else state.

(** The body of the loop over the contacts; the state is the dict
    [platform_coverage] and the counter [total_profiles]. *)
Definition cover_contact (state : list (str * nat) * nat) (contact : Contact)
    : list (str * nat) * nat :=
  let '(contact_platforms, total_profiles) :=
    fold_left (note_profile (fst state)) (row_social_profiles contact)
              (∅, snd state) in
  (set_fold increment (fst state) contact_platforms, total_profiles).

Definition calculate_social_media_coverage (contacts : list Contact)
    : SocialCoverage :=
  let platform_coverage :=
    [(u "tiktok", 0); (u "instagram", 0); (u "facebook", 0);
     (u "linkedin", 0)] in
  let '(platform_coverage, total_profiles) :=
    fold_left cover_contact contacts (platform_coverage, 0) in
  let total_contacts := length contacts in
  {| platform_counts := platform_coverage;
     coverage_percentages :=
       map (fun item =>
              (fst item,
               if Nat.ltb 0 total_contacts
               then (Qnat (snd item) / Qnat total_contacts * 100)%Q
               else 0%Q))
           platform_coverage;
     total_profiles := total_profiles;
     avg_platforms_per_contact :=
       if Nat.ltb 0 total_contacts
       then (Qnat total_profiles / Qnat total_contacts)%Q
       else 0%Q |}.

(** An entry of the list that [generate_network_recommendations] returns. *)
Record Recommendation : Type := {
  recommendation_type : str;
  priority : str;
  message : str
}.

(** The three entries of [analysis_results] that the function reads. *)
Definition generate_network_recommendations
    (industry_diversity : IndustryDiversity)
    (geographic_spread : GeographicSpread)
    (social_media_coverage : SocialCoverage) : list Recommendation :=
  let recommendations := [] in
  let recommendations :=
    if Qlt_bool (diversity_score industry_diversity) (3#10)
    then recommendations ++ [{|
           recommendation_type := u "diversify_industries";
           priority := u "high";
           message := u "Considera expandir tu red a diferentes industrias para aumentar oportunidades de colaboración." |}]
    else recommendations in
  let recommendations :=
    if Qlt_bool (spread_score geographic_spread) (2#10)
    then recommendations ++ [{|
           recommendation_type := u "expand_geographically";
           priority := u "medium";
           message := u "Amplía tu red geográficamente para acceder a mercados y oportunidades globales." |}]
    else recommendations in
  let coverage := coverage_percentages social_media_coverage in
  let low_coverage_platforms :=
    map fst (List.filter (fun item => Qlt_bool (snd item) 50) coverage) in
  let recommendations :=
    if negb (bool_decide (low_coverage_platforms = []))
    then recommendations ++ [{|
           recommendation_type := u "improve_social_coverage";
           priority := u "medium";
           message := u "Mejora la cobertura en: "
                      ++ AIEngine.join (u ", ") low_coverage_platforms
                      ++ u " para maximizar tu alcance digital." |}]
    else recommendations in
  recommendations.

(** The [recommendations] entry of the response of the route
    [analyze_network], which runs when the user has at least one contact:
    the recommendations for the metrics of these contacts. *)
Definition analyze_network_recommendations (contacts : list Contact)
    : list Recommendation :=
  generate_network_recommendations
    (calculate_industry_diversity contacts)
    (calculate_geographic_spread contacts)
    (calculate_social_media_coverage contacts).

End Metrics.

(** ** utils/auth.py *)

Module Auth.

(** [current_app.config], as [main.py] and [init_app] fill it. *)
Record Config : Type := {
  JWT_SECRET_KEY : str;
  JWT_EXPIRATION_HOURS : Z;
  PASSWORD_MIN_LENGTH : Z;
  MAX_LOGIN_ATTEMPTS : Z
}.

Definition app_config : Config := {|
  JWT_SECRET_KEY := u "nexify-jwt-secret-key-2024-super-secure";
  JWT_EXPIRATION_HOURS := 24;
  PASSWORD_MIN_LENGTH := 8;
  MAX_LOGIN_ATTEMPTS := 5
|}.

(** The one attribute an [AuthManager] gets after construction:
    [_rate_limits], absent ([None]) until the first call that needs it.
    A [datetime] is its number of microseconds. *)
Record AuthManager : Type := {
  _rate_limits : option (gmap str (list Z))
}.

(** [bytes.hex()]: two lowercase hexadecimal digits per byte. *)
Definition hex_digit (d : N) : N :=
  if (d <? 10)%N then (48 + d)%N else (87 + d)%N.

Definition hex (bytes : list N) : str :=
  flat_map (fun b => [hex_digit (b / 16); hex_digit (b mod 16)]%N) bytes.

(** [secrets.token_hex(n)]: the rendering of the [n] bytes it draws. *)
Definition token_hex (random_bytes : list Byte.byte) : str :=
  hex (map Byte.to_N random_bytes).

Section Methods.
Context `{PyBuiltins}.

(** [hashlib.sha256(s.encode()).hexdigest()] *)
Definition sha256_hexdigest (s : str) : outcome str :=
  match encode s with
  | Ok bytes => Ok (hex (sha256 bytes))
  | Raise e => Raise e
  end.

(** [random_bytes] are the 16 bytes that [secrets.token_hex(16)] draws. *)
Definition hash_password (random_bytes : list Byte.byte) (password : str)
    : outcome str :=
  let salt := token_hex random_bytes in
  match sha256_hexdigest (password ++ salt) with
  | Ok password_hash => Ok (salt ++ u ":" ++ password_hash)
  | Raise e => Raise e
  end.

(** [a, b = l] *)
Definition unpack2 (l : list str) : outcome (str * str) :=
  match l with
  | [a; b] => Ok (a, b)
  | _ => Raise ValueError
  end.

Definition verify_password (password hashed_password : str) : outcome bool :=
  let body :=
    match unpack2 (split_on 58 hashed_password) with
    | Raise e => Raise e
    | Ok (salt, stored_hash) =>
        match sha256_hexdigest (password ++ salt) with
        | Ok password_hash => Ok (str_eqb password_hash stored_hash)
        | Raise e => Raise e
        end
    end in
  match body with
  | Raise e =>
      if is_ValueError e then Ok false   (* except ValueError: return False *)
      else Raise e
  | r => r
  end.

(** [verify_password(password, hash_password(password))] *)
Definition verify_own_hash (random_bytes : list Byte.byte) (password : str)
    : outcome bool :=
  match hash_password random_bytes password with
  | Ok hashed_password => verify_password password hashed_password
  | Raise e => Raise e
  end.

Definition generate_token (config : Config) (user_id : Z) (now : Z) : str :=
  jwt_encode user_id now (JWT_SECRET_KEY config).

Definition special_chars : str := u "!@#$%^&*()_+-=[]{}|;:,.<>?".

(** [any(p(c) for c in s)] *)
Definition any_char (p : N -> bool) (s : str) : bool := existsb p s.

Definition is_special (c : N) : bool := bool_decide (c ∈ special_chars).

Definition _calculate_password_strength (password : str) : str :=
  let score := 0%Z in
  let score := if Nat.leb 8 (length password) then (score + 1)%Z else score in
  let score := if Nat.leb 12 (length password) then (score + 1)%Z else score in
  let score := if any_char isupper password then (score + 1)%Z else score in
  let score := if any_char islower password then (score + 1)%Z else score in
  let score := if any_char isdigit password then (score + 1)%Z else score in
  let score := if any_char is_special password then (score + 1)%Z else score in
  if (score <=? 2)%Z then u "weak"
  else if (score <=? 4)%Z then u "medium"
  else u "strong".

Record PasswordValidation : Type := {
  valid : bool;
  errors : list str;
  strength : str
}.

Definition validate_password_strength (config : Config) (password : str)
    : PasswordValidation :=
  let errors := [] in
  let errors :=
    if (Z.of_nat (length password) <? PASSWORD_MIN_LENGTH config)%Z
    then errors ++ [u "Password must be at least "
                    ++ u (pretty (PASSWORD_MIN_LENGTH config))
                    ++ u " characters long"]
    else errors in
  let errors :=
    if negb (any_char isupper password)
    then errors ++ [u "Password must contain at least one uppercase letter"]
    else errors in
  let errors :=
    if negb (any_char islower password)
    then errors ++ [u "Password must contain at least one lowercase letter"]
    else errors in
  let errors :=
    if negb (any_char isdigit password)
    then errors ++ [u "Password must contain at least one number"]
    else errors in
  let errors :=
    if negb (any_char is_special password)
    then errors ++ [u "Password must contain at least one special character"]
    else errors in
  {| valid := Nat.eqb (length errors) 0;
     errors := errors;
     strength := _calculate_password_strength password |}.

Definition validate_email (email : str) : bool :=
  re_match (u "^[a-zA-Z0-9._%+-]+@[a-zA-Z0-9.-]+\.[a-zA-Z]{2,}$") email.

(** The characters <, >, double quote, single quote, & and NUL. *)
Definition dangerous_chars : list N := [60; 62; 34; 39; 38; 0]%N.

Definition sanitize_input (data : value) : value :=
  match data with
  | VStr data =>
      (* for char in dangerous_chars: data = data.replace(char, '') *)
      let data := fold_left (fun data char => remove_char char data)
                            dangerous_chars data in
      VStr (take 1000 data)
  | other => other                 (* not isinstance(data, str) *)
  end.

(** [timedelta(minutes=m)] in microseconds. *)
Definition timedelta_minutes (m : Z) : Z := (m * 60000000)%Z.

(** The returned dict: [reset_time] is set when the limit is reached,
    [remaining] otherwise. *)
Record RateLimit : Type := {
  allowed : bool;
  attempts : Z;
  reset_time : option Z;
  remaining : option Z
}.

(** The attempts stored for [identifier], oldest first. *)
Definition recorded_attempts (self : AuthManager) (identifier : str) : list Z :=
  default [] (default ∅ (_rate_limits self) !! identifier).

(** How many of them fall within the last [window_minutes] minutes. *)
Definition attempts_within (self : AuthManager) (identifier : str)
    (window_minutes now : Z) : Z :=
  Z.of_nat (length (List.filter
                      (fun attempt =>
                         (now - timedelta_minutes window_minutes <? attempt)%Z)
                      (recorded_attempts self identifier))).

(** [now] is [datetime.utcnow()]; the method updates [self._rate_limits]. *)
Definition rate_limit_check (config : Config) (self : AuthManager)
    (identifier : str) (max_attempts : option Z) (window_minutes : Z)
    (now : Z) : RateLimit * AuthManager :=
  let limits := default ∅ (_rate_limits self) in
  let max_attempts := default (MAX_LOGIN_ATTEMPTS config) max_attempts in
  let window_start := (now - timedelta_minutes window_minutes)%Z in
  let recent :=
    match limits !! identifier with
    | Some recorded =>
        List.filter (fun attempt => (window_start <? attempt)%Z) recorded
    | None => []
    end in
  let self := {| _rate_limits := Some (<[identifier := recent]> limits) |} in
  let attempts := Z.of_nat (length recent) in
  if (max_attempts <=? attempts)%Z then
    ({| allowed := false;
        attempts := attempts;
        reset_time := Some (window_start + timedelta_minutes window_minutes)%Z;
        remaining := None |}, self)
  else
    ({| allowed := true;
        attempts := attempts;
        reset_time := None;
        remaining := Some (max_attempts - attempts)%Z |}, self).

Definition record_attempt (self : AuthManager) (identifier : str) (now : Z)
    : AuthManager :=
  let limits := default ∅ (_rate_limits self) in
  let recorded := default [] (limits !! identifier) in
  {| _rate_limits := Some (<[identifier := recorded ++ [now]]> limits) |}.

(** A history of calls on one manager. Each call comes [delay]
    microseconds after the one before it; every check on an identifier uses
    the window [window_minutes identifier], as the handlers do (15 for a
    login identifier, 60 for a registration identifier). *)
Inductive call : Type :=
  | RecordAttempt (identifier : str)
  | RateLimitCheck (identifier : str) (max_attempts : option Z).

Definition run_call (config : Config) (window_minutes : str -> Z)
    (state : AuthManager * Z) (step : nat * call) : AuthManager * Z :=
  let '(self, clock) := state in
  let '(delay, c) := step in
  let now := (clock + Z.of_nat delay)%Z in
  match c with
  | RecordAttempt identifier => (record_attempt self identifier now, now)
  | RateLimitCheck identifier max_attempts =>
      (snd (rate_limit_check config self identifier max_attempts
              (window_minutes identifier) now), now)
  end.

Definition run_calls (config : Config) (window_minutes : str -> Z)
    (calls : list (nat * call)) (state : AuthManager * Z) : AuthManager * Z :=
  fold_left (run_call config window_minutes) calls state.

(** The times at which the history calls [record_attempt] for
    [identifier], the clock starting at [clock]. *)
Fixpoint attempt_times (calls : list (nat * call)) (clock : Z)
    (identifier : str) : list Z :=
  match calls with
  | [] => []
  | (delay, c) :: rest =>
      let now := (clock + Z.of_nat delay)%Z in
      match c with
      | RecordAttempt id =>
          if str_eqb id identifier
          then now :: attempt_times rest now identifier
          else attempt_times rest now identifier
      | RateLimitCheck _ _ => attempt_times rest now identifier
      end
  end.

(** What is stored for an identifier agrees with the times [seen] on every
    window that ends at [clock] or later. *)
Definition agrees (window : Z) (self : AuthManager) (clock : Z)
    (identifier : str) (seen : list Z) : Prop :=
  forall now, (clock <= now)%Z ->
    List.filter (fun t => (now - window <? t)%Z)
                (recorded_attempts self identifier)
    = List.filter (fun t => (now - window <? t)%Z) seen.

End Methods.

End Auth.

(** ** routes/auth.py and main.py *)

Module Routes.
Import Models Auth.

(** Modelled from the spec: the [User] row of [models/user.py], which is
    not among the sources (the spec lists User among the relational rows);
    the columns are those the handlers of [routes/auth.py] read and write. *)
Record User : Type := {
  u_id : Z;
  u_username : str;
  u_email : str;
  u_password_hash : optstr;
  u_name : value;
  u_last_login : option Z
}.

(** What the handlers share between requests: the module-level
    [auth_manager] and the tables. *)
Record State : Type := {
  auth_manager : AuthManager;
  users : list User;
  activity_logs : list ActivityLog
}.

(** What a request takes from outside the program: the clock, the bytes
    of the salt, and whether the [k]-th [db.session.commit()] raises. *)
Record Env : Type := {
  now : Z;
  random_bytes : list Byte.byte;
  commit_raises : nat -> bool
}.

(** The parsed body of a request, [request.get_json()]: a JSON object is a
    [dict], kept as the map of its entries; the other constructors are the
    other JSON values. *)
Inductive Body : Type :=
  | BDict (data : gmap str value)
  | BNull
  | BBool (b : bool)
  | BInt (z : Z)
  | BFloat (q : Q)
  | BStr (s : str)
  | BList (items : list value).

(** The request: [is_json] tells whether its content type is JSON, [json]
    is the parsed body, [None] for a body that does not parse. *)
Record Request : Type := {
  is_json : bool;
  json : option Body;
  remote_addr : str
}.

(** The schema of [validate_input]; every type it names is [str]. *)
Record Schema : Type := {
  required : list str;
  types : list str
}.

Definition is_str (v : value) : bool :=
  match v with VStr _ => true | _ => false end.

Definition has_key (data : gmap str value) (field : str) : bool :=
  match data !! field with Some _ => true | None => false end.

(** Truthiness of the parsed body: [None], [False], zero, [''], [[]] and
    [{}] are falsy. *)
Definition body_truthy (data : Body) : bool :=
  match data with
  | BDict data => negb (Nat.eqb (size data) 0)
  | BNull => false
  | BBool b => b
  | BInt z => negb (z =? 0)%Z
  | BFloat q => negb (Qeq_bool q 0)
  | BStr s => negb (str_empty s)
  | BList items => negb (Nat.eqb (length items) 0)
  end.

(** [field in data] for a list [data]: some element is the string. *)
Definition list_has (items : list value) (field : str) : bool :=
  existsb (fun v => match v with
                    | VStr s => str_eqb s field
                    | _ => false
                    end) items.

(** The position that [data[field]] reads in a list [data]: [field] must be
    an [int] (a [bool] is one), negative from the end, and in range. *)
Definition list_position (items : list value) (field : value) : outcome nat :=
  let position (z : Z) : outcome nat :=
    let i := (if z <? 0 then z + Z.of_nat (length items) else z)%Z in
    if ((0 <=? i) && (i <? Z.of_nat (length items)))%Z
    then Ok (Z.to_nat i) else Raise IndexError in
  match field with
  | VBool b => position (if b then 1 else 0)%Z
  | VInt z => position z
  | _ => Raise TypeError
  end.

(** The body of the sanitizing loop when [data] is a list, at the [i]-th
    element: [field] is that element, and [data[field]] is replaced when it
    is a [str]. *)
Definition sanitize_at (data : list value) (i : nat) : outcome (list value) :=
  match data !! i with
  | None => Ok data
  | Some field =>
      match list_position data field with
      | Raise e => Raise e
      | Ok j =>
          match data !! j with
          | Some (VStr s) => Ok (<[j := sanitize_input (VStr s)]> data)
          | _ => Ok data
          end
      end
  end.

(** What the sanitizing loop over a list has done before its [i]-th step:
    [data] differs from [items] only where both hold a string, and each
    element before [i] indexes a position. *)
Definition sanitized_up_to (items data : list value) (i : nat) : Prop :=
  length data = length items
  /\ (forall k, data !! k = items !! k
                \/ exists s s', items !! k = Some (VStr s)
                                /\ data !! k = Some (VStr s'))
  /\ (forall k v, k < i -> items !! k = Some v ->
                  exists j, list_position items v = Ok j).

(** The decorator: the status of its own error response, or the sanitized
    [request.validated_data] that the view then reads; an exception that it
    raises escapes to the framework. For a body that does not parse
    [get_json()] aborts with 400. On a body that is not a dict, [in] is the
    membership of a list or the substring test of a [str] and raises
    [TypeError] on any other value, and [data[field]] takes an index. *)
Definition validate_input (schema : Schema) (request : Request)
    : outcome (Z + Body) :=
  if negb (is_json request) then Ok (inl 400%Z)
  else
    match json request with
    | None => Ok (inl 400%Z)
    | Some data =>
        if negb (body_truthy data) then Ok (inl 400%Z)
        else
          match data with
          | BDict data =>
              if existsb (fun field => negb (has_key data field))
                         (required schema)
              then Ok (inl 400%Z)
              else if existsb (fun field =>
                                 match data !! field with
                                 | Some v => negb (is_str v)
                                 | None => false
                                 end) (types schema)
              then Ok (inl 400%Z)
              else Ok (inr (BDict ((fun v => if is_str v then sanitize_input v
                                             else v) <$> data)))
          | BList items =>
              if existsb (fun field => negb (list_has items field))
                         (required schema)
              then Ok (inl 400%Z)
              else if existsb (list_has items) (types schema)
              then Raise TypeError       (* data[field], field a str *)
              else
                match foreach (seq 0 (length items)) sanitize_at items with
                | Ok items => Ok (inr (BList items))
                | Raise e => Raise e
                end
          | BStr s =>
              if existsb (fun field => negb (str_contains field s))
                         (required schema)
              then Ok (inl 400%Z)
              else Raise TypeError       (* data[field], field a str *)
          | BNull | BBool _ | BInt _ | BFloat _ =>
              Raise TypeError            (* not iterable *)
          end
    end.

(** The decorator calls the view. *)
Definition accepts (schema : Schema) (request : Request) : bool :=
  match validate_input schema request with
  | Ok (inr _) => true
  | _ => false
  end.

(** [data[key]] where the handler uses it as a [str]. *)
Definition str_item (data : gmap str value) (key : str) : outcome str :=
  match data !! key with
  | Some (VStr s) => Ok s
  | Some _ => Raise TypeError
  | None => Raise KeyError
  end.

(** The same on [request.validated_data]: a body that is not a dict takes
    no [str] as an index. *)
Definition body_item (data : Body) (key : str) : outcome str :=
  match data with
  | BDict data => str_item data key
  | _ => Raise TypeError
  end.

(** [data.get(key, default)]; only a dict has the method. *)
Definition body_get (data : Body) (key : str) (default_value : value)
    : outcome value :=
  match data with
  | BDict data => Ok (default default_value (data !! key))
  | _ => Raise AttributeError
  end.

Definition set_auth_manager (am : AuthManager) (st : State) : State :=
  {| auth_manager := am; users := users st; activity_logs := activity_logs st |}.

Definition add_user (user : User) (st : State) : State :=
  {| auth_manager := auth_manager st; users := users st ++ [user];
     activity_logs := activity_logs st |}.

Definition add_log (log : ActivityLog) (st : State) : State :=
  {| auth_manager := auth_manager st; users := users st;
     activity_logs := activity_logs st ++ [log] |}.

Definition set_last_login (user_id : Z) (t : Z) (st : State) : State :=
  {| auth_manager := auth_manager st;
     users := map (fun x => if (u_id x =? user_id)%Z
                            then {| u_id := u_id x; u_username := u_username x;
                                    u_email := u_email x;
                                    u_password_hash := u_password_hash x;
                                    u_name := u_name x; u_last_login := Some t |}
                            else x) (users st);
     activity_logs := activity_logs st |}.

(** [db.session.add(..); db.session.commit()]: the [k]-th commit of the
    request either raises and leaves the tables as they were, or applies
    the pending [change]. *)
Definition commit (env : Env) (k : nat) (change : State -> State) : SE State unit :=
  fun st =>
    if commit_raises env k then (Raise DatabaseError, st)
    else (Ok tt, change st).

(** The next value of the autoincrement primary key. *)
Definition next_id (rows : list User) : Z :=
  (1 + fold_right Z.max 0 (map u_id rows))%Z.

(** The string inside a truthy [password_hash]. *)
Definition fstr_hash (v : optstr) : str :=
  match v with PyStr s => s | PyNone => [] end.

(** The body of a registration request with its three required fields. *)
Definition registration (extra : gmap str value) (username email password : str)
    : gmap str value :=
  <[u "username" := VStr username]>
    (<[u "email" := VStr email]> (<[u "password" := VStr password]> extra)).

Section Handlers.
Context `{PyBuiltins}.
Variable config : Config.

Definition call_rate_limit_check (identifier : str) (max_attempts : option Z)
    (window_minutes : Z) (t : Z) : SE State RateLimit :=
  fun st =>
    let '(r, am) := rate_limit_check config (auth_manager st) identifier
                      max_attempts window_minutes t in
    (Ok r, set_auth_manager am st).

Definition call_record_attempt (identifier : str) (t : Z) : SE State unit :=
  modify (fun st =>
            set_auth_manager (record_attempt (auth_manager st) identifier t) st).

(** The view of POST /auth/register as the decorator calls it: [data] is
    [request.validated_data]. *)
Definition register_handler (env : Env) (data : Body) (client_ip : str)
    : SE State Z :=
  do rate_check <- call_rate_limit_check (u "register_" ++ client_ip)
                     (Some 3%Z) 60 (now env);
  if negb (allowed rate_check) then ret 429%Z
  else
  do _ <- call_record_attempt (u "register_" ++ client_ip) (now env);
  do email <- lift (body_item data (u "email"));
  if negb (validate_email email) then ret 400%Z
  else
  do password <- lift (body_item data (u "password"));
  let password_validation := validate_password_strength config password in
  if negb (valid password_validation) then ret 400%Z
  else
  do username <- lift (body_item data (u "username"));
  if Nat.ltb (length username) 3 || Nat.ltb 50 (length username) then ret 400%Z
  else if negb (re_match (u "^[a-zA-Z0-9_]+$") username) then ret 400%Z
  else
  do existing <- reads users;
  if existsb (fun x => str_eqb (u_username x) username) existing then ret 409%Z
  else if existsb (fun x => str_eqb (u_email x) email) existing then ret 409%Z
  else
    try_except
      (do hashed_password <- lift (hash_password (random_bytes env) password);
       do name <- lift (body_get data (u "name") (VStr username));
       let user := {|
         u_id := next_id existing;
         u_username := username;
         u_email := email;
         u_password_hash := PyStr hashed_password;
         u_name := name;
         u_last_login := None |} in
       do _ <- commit env 0 (add_user user);
       let token := generate_token config (u_id user) (now env) in
       let log := {| log_user_id := u_id user; action := u "user_registered";
                     entity_type := u "user"; entity_id := Some (u_id user) |} in
       do _ <- commit env 1 (add_log log);
       ret 201%Z)
      (fun e => ret 500%Z).      (* db.session.rollback() *)

(** The same view on a dict, which is what the decorator hands to it (see
    [validate_input_accepts]). *)
Definition register (env : Env) (data : gmap str value) (client_ip : str)
    : SE State Z :=
  register_handler env (BDict data) client_ip.

(** The view of POST /auth/login as the decorator calls it. *)
Definition login_handler (env : Env) (data : Body) (client_ip : str)
    : SE State Z :=
  do rate_check <- call_rate_limit_check (u "login_" ++ client_ip) None 15
                     (now env);
  if negb (allowed rate_check) then ret 429%Z
  else
  do username <- lift (body_item data (u "username"));
  do existing <- reads users;
  match List.find (fun x => str_eqb (u_username x) username
                       || str_eqb (u_email x) username) existing with
  | None =>
      do _ <- call_record_attempt (u "login_" ++ client_ip) (now env);
      ret 401%Z
  | Some user =>
      do password <- lift (body_item data (u "password"));
      do password_ok <-
        (if truthy (u_password_hash user)
         then lift (verify_password password (fstr_hash (u_password_hash user)))
         else ret false);
      if negb password_ok then
        do _ <- call_record_attempt (u "login_" ++ client_ip) (now env);
        let log := {| log_user_id := u_id user; action := u "login_failed";
                      entity_type := u "user"; entity_id := Some (u_id user) |} in
        do _ <- commit env 0 (add_log log);
        ret 401%Z
      else
        try_except
          (let token := generate_token config (u_id user) (now env) in
           do _ <- commit env 0 (set_last_login (u_id user) (now env));
           let log := {| log_user_id := u_id user; action := u "user_login";
                         entity_type := u "user"; entity_id := Some (u_id user) |} in
           do _ <- commit env 1 (add_log log);
           ret 200%Z)
          (fun e => ret 500%Z)   (* db.session.rollback() *)
  end.

(** The same view on a dict. *)
Definition login (env : Env) (data : gmap str value) (client_ip : str)
    : SE State Z :=
  login_handler env (BDict data) client_ip.

(** The decorated views, as the framework calls them. *)
Definition register_view (env : Env) (request : Request) : SE State Z :=
  match validate_input {| required := [u "username"; u "email"; u "password"];
                          types := [u "username"; u "email"; u "password"] |}
                       request with
  | Raise e => raise e
  | Ok (inl code) => ret code
  | Ok (inr data) => register_handler env data (remote_addr request)
  end.

Definition login_view (env : Env) (request : Request) : SE State Z :=
  match validate_input {| required := [u "username"; u "password"];
                          types := [u "username"; u "password"] |}
                       request with
  | Raise e => raise e
  | Ok (inl code) => ret code
  | Ok (inr data) => login_handler env data (remote_addr request)
  end.


(** The framework answers an exception that escapes a view with 500. *)
Definition respond (view : SE State Z) (st : State) : Z * State :=
  match view st with
  | (Ok code, st') => (code, st')
  | (Raise _, st') => (500%Z, st')
  end.

End Handlers.



End Routes.

(** ** The framework's loop over requests *)

Module Server.
Import Routes.

(** The requests of one process, answered one after another: the status
    codes in order, and the state after the last one. *)
Definition handle_all (views : list (SE State Z)) (st : State)
    : list Z * State :=
  fold_left (fun '(codes, st) view =>
               let '(code, st') := respond view st in (codes ++ [code], st'))
            views ([], st).

End Server.

(** ** Built-ins to run the examples *)

Module Sample.

(** ASCII versions of the interpreter's tables and stand-ins for the
    libraries, enough to run the code on the examples of the last section.
    Every property below is proved for an arbitrary [PyBuiltins]; none
    depends on these. *)

Definition is_upper (c : N) : bool := ((65 <=? c) && (c <=? 90))%N.
Definition is_lower (c : N) : bool := ((97 <=? c) && (c <=? 122))%N.
Definition is_digit (c : N) : bool := ((48 <=? c) && (c <=? 57))%N.
Definition is_blank (c : N) : bool := (((9 <=? c) && (c <=? 13)) || (c =? 32))%N.

Definition ascii_lower (s : str) : str :=
  map (fun c => if is_upper c then (c + 32)%N else c) s.

(** [$] also matches before a final newline. *)
Definition without_final_newline (s : str) : str :=
  match reverse s with
  | 10%N :: r => reverse r
  | _ => s
  end.

(** [^[a-zA-Z0-9_]+$] *)
Definition match_username (s : str) : bool :=
  let s := without_final_newline s in
  negb (str_empty s)
  && forallb (fun c => is_upper c || is_lower c || is_digit c || (c =? 95)%N) s.

(** The text before the first [c], and the text after it when there is one. *)
Fixpoint split_first (c : N) (s : str) : str * option str :=
  match s with
  | [] => ([], None)
  | d :: s' =>
      if (d =? c)%N then ([], Some s')
      else let '(before, after) := split_first c s' in (d :: before, after)
  end.

(** [^[a-zA-Z0-9._%+-]+@[a-zA-Z0-9.-]+\.[a-zA-Z]{2,}$]: the local part
    ends at the first [@]; the last part is made of letters, so it starts
    after the last dot. *)
Definition match_email (s : str) : bool :=
  let s := without_final_newline s in
  match split_first 64 s with
  | (local_part, Some rest) =>
      match split_first 46 (reverse rest) with
      | (reversed_last, Some reversed_domain) =>
          negb (str_empty local_part)
          && forallb (fun c => is_upper c || is_lower c || is_digit c
                               || bool_decide (c ∈ u "._%+-")) local_part
          && negb (str_empty reversed_domain)
          && forallb (fun c => is_upper c || is_lower c || is_digit c
                               || bool_decide (c ∈ u ".-")) reversed_domain
          && Nat.leb 2 (length reversed_last)
          && forallb (fun c => is_upper c || is_lower c) reversed_last
      | _ => false
      end
  | _ => false
  end.

Definition sample_re_match (pattern s : str) : bool :=
  if str_eqb pattern (u "^[a-zA-Z0-9_]+$") then match_username s
  else if str_eqb pattern (u "^[a-zA-Z0-9._%+-]+@[a-zA-Z0-9.-]+\.[a-zA-Z]{2,}$")
  then match_email s
  else false.

(** No hashing and no signing: the digest of the examples is the text
    itself, and the token the user's identifier. *)
#[export] Instance builtins : PyBuiltins := {|
  lower := ascii_lower;
  isspace := is_blank;
  isupper := is_upper;
  islower := is_lower;
  isdigit := is_digit;
  re_match := sample_re_match;
  sha256 := fun bytes => bytes;
  jwt_encode := fun user_id _ _ => u (pretty user_id)
|}.

(** Data for the examples: a user who owns three contacts whose records
    hold text. *)
Definition db_three_contacts : Connections.DB := {|
  Connections.contacts :=
    [Connections.row_filled; Connections.row_eva; Connections.row_iker];
  Connections.connections := [];
  Connections.ai_analyses := [];
  Connections.activity_logs := []
|}.

(** A server that has just started, a client, and requests one after the
    other: [serve] gives the status codes in order. *)
Definition started : Routes.State := {|
  Routes.auth_manager := {| Auth._rate_limits := None |};
  Routes.users := [];
  Routes.activity_logs := []
|}.

(** Sixteen bytes for a salt. *)
Definition salt_bytes : list Byte.byte :=
  [Byte.xab; Byte.xcd; Byte.x01; Byte.x23; Byte.x45; Byte.x67; Byte.x89;
   Byte.xef; Byte.x10; Byte.x32; Byte.x54; Byte.x76; Byte.x98; Byte.xba;
   Byte.xdc; Byte.xfe].

(** The password that the JSON text Passw0rd!\ud800 decodes to: nine
    ASCII characters and the code point U+D800. *)
Definition password_with_surrogate : str := u "Passw0rd!" ++ [55296%N].

Definition at_time (t : Z) : Routes.Env := {|
  Routes.now := t;
  Routes.random_bytes := salt_bytes;
  Routes.commit_raises := fun _ => false
|}.

Definition post (fields : list (str * value)) : Routes.Request := {|
  Routes.is_json := true;
  Routes.json := Some (Routes.BDict (list_to_map fields));
  Routes.remote_addr := u "10.0.0.1"
|}.

Definition register_at (t : Z) (username email password : str)
    : Routes.State -> Z * Routes.State :=
  Routes.respond
    (Routes.register_view Auth.app_config (at_time t)
       (post [(u "username", VStr username); (u "email", VStr email);
              (u "password", VStr password)])).

Definition login_at (t : Z) (username password : str)
    : Routes.State -> Z * Routes.State :=
  Routes.respond
    (Routes.login_view Auth.app_config (at_time t)
       (post [(u "username", VStr username); (u "password", VStr password)])).

Definition serve (requests : list (Routes.State -> Z * Routes.State))
    : list Z :=
  fst (fold_left (fun '(codes, st) request =>
                    let '(code, st') := request st in (codes ++ [code], st'))
                 requests ([], started)).

Definition minutes (m : Z) : Z := (m * 60000000)%Z.

End Sample.

(** ** The order of a set in one process *)

Module Seed25.
Import Binary64.

(** The order of the two unions of the worked case as CPython 3.11 iterates
    them in a process started with PYTHONHASHSEED=25; a union that the
    worked case does not meet is listed in order of insertion. *)
Definition sample_union_order (a b : list str) : list str :=
  if bool_decide (a = [u "linkedin"; u "tiktok"]
                  /\ b = [u "instagram"; u "linkedin"; u "tiktok"])
  then [u "linkedin"; u "tiktok"; u "instagram"]
  else if bool_decide (a = [u "instagram"; u "linkedin"; u "tiktok"]
                       /\ b = [u "linkedin"; u "tiktok"])
  then [u "instagram"; u "tiktok"; u "linkedin"]
  else remove_dups (a ++ b).

#[export] Instance set_order : SetOrder := {|
  union_order := sample_union_order
|}.

End Seed25.

(** ** Requests for the worked cases *)

Module Cases.
Import Routes Sample.

Definition client : str := u "10.0.0.1".

Definition login_body (username password : str) : gmap str value :=
  list_to_map [(u "username", VStr username); (u "password", VStr password)].

Definition registration_request : Request :=
  post [(u "username", VStr (u "ana_1"));
        (u "email", VStr (u "ana@example.com"));
        (u "password", VStr (u "S3cret!<pw>"));
        (u "age", VInt 30)].

Definition registration_schema : Schema :=
  {| required := [u "username"; u "email"; u "password"];
     types := [u "username"; u "email"; u "password"] |}.

(** What the decorator makes of [registration_request]. *)
Definition registration_validated : gmap str value :=
  list_to_map [(u "username", VStr (u "ana_1"));
               (u "email", VStr (u "ana@example.com"));
               (u "password", VStr (u "S3cret!pw"));
               (u "age", VInt 30)].

(** Five logins with a wrong password, one a minute. *)
Definition five_failed_logins : list (Env * gmap str value) :=
  map (fun t => (at_time (minutes t), login_body (u "ana_1") (u "guess")))
      [0; 1; 2; 3; 4]%Z.

(** A registration request of the client. *)
Definition registration_of (username email password : str) : Request :=
  post [(u "username", VStr username); (u "email", VStr email);
        (u "password", VStr password)].

(** Four registration requests, one a minute: a bad email, a body without
    email and password, a weak password and a good one. *)
Definition four_registrations : list (Env * Request) :=
  [(at_time (minutes 0),
    registration_of (u "ana_1") (u "ana@example") (u "S3cret!pw"));
   (at_time (minutes 1), post [(u "username", VStr (u "ana_1"))]);
   (at_time (minutes 2),
    registration_of (u "ana_1") (u "ana@example.com") (u "secret"));
   (at_time (minutes 3),
    registration_of (u "ana_1") (u "ana@example.com") (u "S3cret!pw"))].

(** The schema of [update_profile], which requires no field, and a request
    whose body is the list [[0]]. *)
Definition update_profile_schema : Schema :=
  {| required := []; types := [u "name"; u "email"] |}.

Definition list_request : Request :=
  {| is_json := true; json := Some (BList [VInt 0]); remote_addr := client |}.

(** The tables after Ana and Eva have registered. *)
Definition two_accounts : State :=
  snd (respond (register Auth.app_config (at_time (minutes 1))
                  (registration ∅ (u "eva_2") (u "eva@example.com")
                     (u "S3cret!pw")) client)
         (snd (respond (register Auth.app_config (at_time 0)
                          (registration ∅ (u "ana_1") (u "ana@example.com")
                             (u "S3cret!pw")) client)
                 started))).

End Cases.

(** ** Records for the worked cases *)

Module EngineCases.
Import Models AIEngine Connections Sample.

(** Two colleagues of Luis at Acme, in other industries and cities. *)
Definition row_marta : Contact := {|
  row_id := 5; row_user_id := 1; row_name := u "Marta";
  row_company := PyStr (u "Acme"); row_position := PyStr (u "CTO");
  row_industry := PyStr (u "Marketing"); row_location := PyStr (u "Sevilla");
  row_social_profiles := []
|}.

Definition row_pau : Contact := {|
  row_id := 6; row_user_id := 1; row_name := u "Pau";
  row_company := PyStr (u "Acme"); row_position := PyStr (u "Analista");
  row_industry := PyStr (u "Finanzas"); row_location := PyStr (u "Valencia");
  row_social_profiles := []
|}.

(** The analysis of Luis and Eva. *)
Definition analysis_luis_eva : Analysis :=
  match call_analyze __init__ contact_filled contact_eva with
  | Ok analysis => analysis
  | Raise _ => {| similarity_score := 0; factors := [];
                  recommendation_strength := [] |}
  end.

End EngineCases.

(** * Properties *)

(** ** Code that only reads *)

Section ReadOnly.
Context {S : Type}.

Lemma read_only_ret {A} (a : A) : read_only (@ret S A a).
Proof. intros s. reflexivity. Qed.

Lemma read_only_raise {A} (e : exn) : read_only (@raise S A e).
Proof. intros s. reflexivity. Qed.

Lemma read_only_reads {A} (f : S -> A) : read_only (reads f).
Proof. intros s. reflexivity. Qed.

Lemma read_only_lift {A} (r : outcome A) : read_only (@lift S A r).
Proof. intros s. reflexivity. Qed.

Lemma read_only_bind {A B} (m : SE S A) (k : A -> SE S B) :
  read_only m -> (forall a, read_only (k a)) -> read_only (bind m k).
Proof.
  intros Hm Hk s. unfold bind.
  specialize (Hm s). destruct (m s) as [[a|e] s']; simpl in *; subst.
  - apply Hk.
  - reflexivity.
Qed.

Lemma read_only_if {A} (b : bool) (m1 m2 : SE S A) :
  read_only m1 -> read_only m2 -> read_only (if b then m1 else m2).
Proof. destruct b; auto. Qed.

Lemma read_only_decide {A} (P : Prop) `{Decision P} (m1 m2 : SE S A) :
  read_only m1 -> read_only m2 -> read_only (if decide P then m1 else m2).
Proof. destruct (decide P); auto. Qed.

(** The result of a sequence whose first part only reads. *)
Lemma bind_read_only {A B} (m : SE S A) (k : A -> SE S B) (s : S) :
  read_only m ->
  bind m k s = match fst (m s) with
               | Ok a => k a s
               | Raise e => (Raise e, s)
               end.
Proof.
  intros Hm. unfold bind. specialize (Hm s).
  destruct (m s) as [[a|e] s']; simpl in *; subst; reflexivity.
Qed.

End ReadOnly.

Create HintDb read_only.
#[export] Hint Resolve read_only_ret read_only_raise read_only_reads
  read_only_lift read_only_if read_only_decide read_only_bind : read_only.

Ltac read_only_steps := auto 20 with read_only.

(** ** What a computation returns *)

Section Returns.

Lemma returns_in_ret {S A} (P : A -> Prop) (a : A) :
  P a -> returns_in P (@ret S A a).
Proof. intros Ha s. exact Ha. Qed.

Lemma returns_in_bind {S A B} (P : B -> Prop) (m : SE S A) (k : A -> SE S B) :
  (forall a, returns_in P (k a)) -> returns_in P (bind m k).
Proof.
  intros Hk s. unfold bind. destruct (m s) as [[a|e] s']; [apply Hk | exact I].
Qed.

Lemma returns_in_if {S A} (P : A -> Prop) (b : bool) (m1 m2 : SE S A) :
  returns_in P m1 -> returns_in P m2 -> returns_in P (if b then m1 else m2).
Proof. destruct b; auto. Qed.

Lemma returns_in_try {S A} (P : A -> Prop) (m : SE S A) (h : exn -> SE S A) :
  returns_in P m -> (forall e, returns_in P (h e)) ->
  returns_in P (try_except m h).
Proof.
  intros Hm Hh s. unfold try_except. specialize (Hm s).
  destruct (m s) as [[a|e] s']; [exact Hm | apply Hh].
Qed.

End Returns.

Ltac returns_in_steps :=
  repeat first
    [ apply returns_in_bind; intros
    | apply returns_in_if
    | apply returns_in_try; [ | intros ]
    | apply returns_in_ret;
      repeat first [ apply list_elem_of_here | apply list_elem_of_further ]
    | match goal with
      | |- returns_in _ (match ?x with _ => _ end) => destruct x
      end ].

(** ** utils/ai_engine.py: the call changes nothing and is repeatable *)

Section EngineReads.
Context `{PyBuiltins}.
Import Models AIEngine.

Lemma get_lower_read_only contact key : read_only (get_lower contact key).
Proof.
  unfold get_lower. apply read_only_bind; [read_only_steps | intros v].
  destruct v; read_only_steps.
Qed.

Lemma industry_read_only : read_only _calculate_industry_similarity.
Proof.
  unfold _calculate_industry_similarity.
  apply read_only_bind; [apply get_lower_read_only | intros].
  apply read_only_bind; [apply get_lower_read_only | intros].
  read_only_steps.
Qed.

Lemma location_read_only : read_only _calculate_location_similarity.
Proof.
  unfold _calculate_location_similarity.
  apply read_only_bind; [apply get_lower_read_only | intros].
  apply read_only_bind; [apply get_lower_read_only | intros].
  read_only_steps.
Qed.

Lemma company_read_only : read_only _calculate_company_similarity.
Proof.
  unfold _calculate_company_similarity.
  apply read_only_bind; [apply get_lower_read_only | intros].
  apply read_only_bind; [apply get_lower_read_only | intros].
  read_only_steps.
Qed.

Lemma social_read_only : read_only _calculate_social_similarity.
Proof.
  unfold _calculate_social_similarity.
  do 2 (apply read_only_bind; [read_only_steps | intros]).
  apply read_only_if; [read_only_steps|].
  apply read_only_decide; [read_only_steps|].
  apply read_only_bind; [read_only_steps | intros weights].
  destruct (set_fold _ _ _). read_only_steps.
Qed.

Lemma level_read_only : read_only _calculate_professional_level_similarity.
Proof.
  unfold _calculate_professional_level_similarity.
  apply read_only_bind; [apply get_lower_read_only | intros].
  apply read_only_bind; [apply get_lower_read_only | intros].
  read_only_steps.
Qed.

Lemma analyze_read_only : read_only analyze_contact_similarity.
Proof.
  unfold analyze_contact_similarity.
  apply read_only_bind; [apply industry_read_only | intros].
  apply read_only_bind; [apply location_read_only | intros].
  apply read_only_bind; [apply company_read_only | intros].
  apply read_only_bind; [apply social_read_only | intros].
  apply read_only_bind; [apply level_read_only | intros].
  apply read_only_ret.
Qed.

End EngineReads.

(** ** utils/ai_engine.py: exchanging the two records *)

Section EngineSymmetry.
Context `{PyBuiltins}.
Import Models AIEngine.

Lemma str_eqb_sym (a b : str) : str_eqb a b = str_eqb b a.
Proof.
  unfold str_eqb. destruct (decide (a = b)) as [->|Hne].
  - reflexivity.
  - rewrite !bool_decide_eq_false_2; congruence.
Qed.

Lemma existsb_pointwise {A} (f g : A -> bool) (l : list A) :
  (forall x, f x = g x) -> existsb f l = existsb g l.
Proof.
  intros Hfg. induction l as [|x l IH]; simpl; [reflexivity|].
  rewrite Hfg, IH. reflexivity.
Qed.

Lemma get_lower_run contact key o :
  get_lower contact key o =
  (match key (contact o) with
   | PyStr s => Ok (lower s)
   | PyNone => Raise AttributeError
   end, o).
Proof.
  unfold get_lower, bind, reads. simpl.
  destruct (key (contact o)); reflexivity.
Qed.

Lemma industry_swap o :
  fst (_calculate_industry_similarity (swap o))
  = fst (_calculate_industry_similarity o).
Proof.
  unfold _calculate_industry_similarity, bind.
  rewrite !get_lower_run. simpl.
  destruct (industry (contact1 o)) as [|a], (industry (contact2 o)) as [|b];
    simpl; try reflexivity.
  rewrite (orb_comm (str_empty (lower b))), (str_eqb_sym (lower b)).
  destruct (str_empty (lower a) || str_empty (lower b)); [reflexivity|].
  destruct (str_eqb (lower a) (lower b)); [reflexivity|].
  simpl.
  rewrite (existsb_pointwise _
             (fun '(_, keywords) =>
                any_keyword_in keywords (lower a)
                && any_keyword_in keywords (lower b)))
    by (intros [c k]; apply andb_comm).
  destruct (existsb _ _); [reflexivity|].
  rewrite (comm_L (∩) (list_to_set (split_ws (lower b)))).
  rewrite (Nat.max_comm (size (list_to_set (split_ws (lower b)) : gset str))).
  destruct (decide _); reflexivity.
Qed.

Lemma location_swap o :
  fst (_calculate_location_similarity (swap o))
  = fst (_calculate_location_similarity o).
Proof.
  unfold _calculate_location_similarity, bind.
  rewrite !get_lower_run. simpl.
  destruct (location (contact1 o)) as [|a], (location (contact2 o)) as [|b];
    simpl; try reflexivity.
  rewrite (orb_comm (str_empty (lower b))), (str_eqb_sym (lower b)).
  destruct (str_empty (lower a) || str_empty (lower b)); [reflexivity|].
  destruct (str_eqb (lower a) (lower b)); [reflexivity|].
  rewrite (comm_L (∩) (list_to_set (split_ws (replace_char 44 32 (lower b))))).
  destruct (decide _); reflexivity.
Qed.

Lemma company_swap o :
  fst (_calculate_company_similarity (swap o))
  = fst (_calculate_company_similarity o).
Proof.
  unfold _calculate_company_similarity, bind.
  rewrite !get_lower_run. simpl.
  destruct (company (contact1 o)) as [|a], (company (contact2 o)) as [|b];
    simpl; try reflexivity.
  rewrite (orb_comm (str_empty (lower b))), (str_eqb_sym (lower b)).
  rewrite (orb_comm (str_contains (lower b) (lower a))).
  destruct (str_empty (lower a) || str_empty (lower b)); [reflexivity|].
  destruct (str_eqb (lower a) (lower b)); [reflexivity|].
  destruct (str_contains (lower a) (lower b) || str_contains (lower b) (lower a));
    reflexivity.
Qed.

Lemma social_swap o :
  fst (_calculate_social_similarity (swap o))
  = fst (_calculate_social_similarity o).
Proof.
  unfold _calculate_social_similarity, bind, reads. simpl.
  rewrite (orb_comm (bool_decide (social_profiles (contact2 o) = []))).
  destruct (_ || _); [reflexivity|].
  rewrite (comm_L (∩) (list_to_set (map platform (social_profiles (contact2 o))))).
  rewrite (comm_L (∪) (list_to_set (map platform (social_profiles (contact2 o))))).
  destruct (decide _); [reflexivity|].
  destruct (set_fold _ _ _). reflexivity.
Qed.

Lemma level_swap o :
  fst (_calculate_professional_level_similarity (swap o))
  = fst (_calculate_professional_level_similarity o).
Proof.
  unfold _calculate_professional_level_similarity, bind.
  rewrite !get_lower_run. simpl.
  destruct (position (contact1 o)) as [|a], (position (contact2 o)) as [|b];
    simpl; try reflexivity.
  rewrite (orb_comm (str_empty (lower b))).
  destruct (str_empty (lower a) || str_empty (lower b)); [reflexivity|].
  set (l1 := _get_professional_level (lower a) _ _ _).
  set (l2 := _get_professional_level (lower b) _ _ _).
  rewrite (Z.eqb_sym l2 l1).
  replace (Z.abs (l2 - l1)) with (Z.abs (l1 - l2)) by lia.
  destruct (l1 =? l2)%Z; [reflexivity|].
  destruct (Z.abs (l1 - l2) =? 1)%Z; reflexivity.
Qed.


(** The result of the analysis from the results of the five factors, the
    first exception winning. *)
Lemma analyze_run o :
  fst (analyze_contact_similarity o) =
  match fst (_calculate_industry_similarity o) with
  | Raise e => Raise e
  | Ok industry_score =>
  match fst (_calculate_location_similarity o) with
  | Raise e => Raise e
  | Ok location_score =>
  match fst (_calculate_company_similarity o) with
  | Raise e => Raise e
  | Ok company_score =>
  match fst (_calculate_social_similarity o) with
  | Raise e => Raise e
  | Ok social_score =>
  match fst (_calculate_professional_level_similarity o) with
  | Raise e => Raise e
  | Ok level_score =>
      let locals :=
        add_factor (u "Nivel profesional similar") (1#10) level_score
          (add_factor (u "Presencia social similar") (15#100) social_score
             (add_factor (u "Empresa relacionada") (2#10) company_score
                (add_factor (u "Ubicación similar") (25#100) location_score
                   (add_factor (u "Industria similar") (3#10) industry_score
                      (0%Q, []))))) in
      Ok {| similarity_score := Qmin (fst locals) 1;
            factors := snd locals;
            recommendation_strength :=
              _get_recommendation_strength (fst locals) |}
  end end end end end.
Proof.
  unfold analyze_contact_similarity.
  rewrite (bind_read_only _ _ _ industry_read_only).
  destruct (fst (_calculate_industry_similarity o)); [|reflexivity].
  rewrite (bind_read_only _ _ _ location_read_only).
  destruct (fst (_calculate_location_similarity o)); [|reflexivity].
  rewrite (bind_read_only _ _ _ company_read_only).
  destruct (fst (_calculate_company_similarity o)); [|reflexivity].
  rewrite (bind_read_only _ _ _ social_read_only).
  destruct (fst (_calculate_social_similarity o)); [|reflexivity].
  rewrite (bind_read_only _ _ _ level_read_only).
  destruct (fst (_calculate_professional_level_similarity o)); reflexivity.
Qed.

(** The loop of [_calculate_social_similarity] meets the platforms in the
    order of the set. With exact sums that order does not matter: two orders
    of the same platforms give the same two totals. *)
Lemma add_platform_same_sums weights common p (a b : Q * Q) :
  fst a == fst b /\ snd a == snd b ->
  fst (add_platform weights common p a) == fst (add_platform weights common p b)
  /\ snd (add_platform weights common p a)
     == snd (add_platform weights common p b).
Proof.
  intros [Ht Hc]. unfold add_platform. simpl.
  destruct (decide (p ∈ common)); rewrite Ht, Hc; split; reflexivity.
Qed.

Lemma platform_loop_any_order (weights : gmap str Q) (common : gset str)
    (order1 order2 : list str) :
  order1 ≡ₚ order2 ->
  fst (foldr (add_platform weights common) (0%Q, 0%Q) order1)
  == fst (foldr (add_platform weights common) (0%Q, 0%Q) order2)
  /\ snd (foldr (add_platform weights common) (0%Q, 0%Q) order1)
     == snd (foldr (add_platform weights common) (0%Q, 0%Q) order2).
Proof.
  induction 1 as [|p l l' _ IH|p q l|l l' l'' _ IH1 _ IH2]; simpl.
  - split; reflexivity.
  - apply add_platform_same_sums. exact IH.
  - unfold add_platform. simpl.
    destruct (decide (p ∈ common)), (decide (q ∈ common)); simpl; split; ring.
  - destruct IH1 as [H1 H2], IH2 as [H3 H4]. split.
    + rewrite H1. exact H3.
    + rewrite H2. exact H4.
Qed.

Lemma platform_loop_order_free (weights : gmap str Q) (common : gset str)
    (platforms : gset str) (order : list str) :
  order ≡ₚ elements platforms ->
  let looped :=
    fold_left (fun acc p => add_platform weights common p acc) order (0%Q, 0%Q) in
  let folded := set_fold (add_platform weights common) (0%Q, 0%Q) platforms in
  fst looped == fst folded /\ snd looped == snd folded.
Proof.
  intros Horder looped folded. subst looped folded.
  unfold set_fold. simpl.
  rewrite <- fold_left_rev_right.
  apply platform_loop_any_order.
  rewrite <- Horder. apply Permutation_sym, Permutation_rev.
Qed.

Lemma analyze_swap o :
  fst (analyze_contact_similarity (swap o))
  = fst (analyze_contact_similarity o).
Proof.
  rewrite !analyze_run.
  rewrite industry_swap, location_swap, company_swap, social_swap, level_swap.
  reflexivity.
Qed.

(** With exact sums, exchanging the two records changes nothing: each of
    the five factor functions gives the same result for [(c1, c2)] and for
    [(c2, c1)], and so does [analyze_contact_similarity]. The sums of the
    code are binary64 sums; see [EngineRounding] below. *)
Theorem analyze_contact_similarity_symmetric (engine : AIEngine)
    (c1 c2 : ContactDict) :
  let o := {| self := engine; contact1 := c1; contact2 := c2 |} in
  let o' := {| self := engine; contact1 := c2; contact2 := c1 |} in
  fst (_calculate_industry_similarity o') = fst (_calculate_industry_similarity o)
  /\ fst (_calculate_location_similarity o') = fst (_calculate_location_similarity o)
  /\ fst (_calculate_company_similarity o') = fst (_calculate_company_similarity o)
  /\ fst (_calculate_social_similarity o') = fst (_calculate_social_similarity o)
  /\ fst (_calculate_professional_level_similarity o')
     = fst (_calculate_professional_level_similarity o)
  /\ call_analyze engine c2 c1 = call_analyze engine c1 c2.
Proof.
  intros o o'. change o' with (swap o).
  repeat split.
  - apply industry_swap.
  - apply location_swap.
  - apply company_swap.
  - apply social_swap.
  - apply level_swap.
  - apply (analyze_swap o).
Qed.

End EngineSymmetry.

(** ** utils/ai_engine.py: exchanging the two records, in binary64 *)

Section EngineRounding.
Import Floats.
Import Models AIEngine Sample.
#[local] Set Warnings "-inexact-float".

(** C8. Exchanging the two records can change the result. Nora and Omar
    work in one industry and share LinkedIn and TikTok; Omar is also on
    Instagram. When the loop of [_calculate_social_similarity] meets the
    three platforms as linkedin, tiktok, instagram for [(nora, omar)] and
    as instagram, tiktok, linkedin for [(omar, nora)], which is what
    CPython 3.11 does in a process started with PYTHONHASHSEED=25, the
    total weight is 2.4000000000000004 one way and 2.4 the other: the
    first call returns the score 0.39999999999999997 and the strength
    baja, the second the score 0.4 and the strength media. *)
Theorem analyze_contact_similarity_depends_on_order (order : Binary64.SetOrder) :
  Binary64.union_order [u "linkedin"; u "tiktok"]
                       [u "instagram"; u "linkedin"; u "tiktok"]
  = [u "linkedin"; u "tiktok"; u "instagram"] ->
  Binary64.union_order [u "instagram"; u "linkedin"; u "tiktok"]
                       [u "linkedin"; u "tiktok"]
  = [u "instagram"; u "tiktok"; u "linkedin"] ->
  exists r12 r21,
    Binary64.call_analyze Binary64.contact_nora Binary64.contact_omar = Ok r12
    /\ Binary64.call_analyze Binary64.contact_omar Binary64.contact_nora = Ok r21
    /\ Binary64.similarity_score r12 = 0.39999999999999997%float
    /\ Binary64.similarity_score r21 = 0.4%float
    /\ (Binary64.similarity_score r12 <? Binary64.similarity_score r21)%float
       = true
    /\ Binary64.recommendation_strength r12 = u "baja"
    /\ Binary64.recommendation_strength r21 = u "media".
Proof.
  destruct order as [order]. cbn [Binary64.union_order].
  intros H12 H21. vm_compute in H12, H21.
  eexists _, _.
  split; [vm_compute; rewrite H12; vm_compute; reflexivity|].
  split; [vm_compute; rewrite H21; vm_compute; reflexivity|].
  vm_compute. repeat split.
Qed.
End EngineRounding.

Section EngineRoundingCase.
Import Models AIEngine Sample Seed25.

Lemma analyze_contact_similarity_depends_on_order_witness :
  exists r12 r21,
    Binary64.call_analyze Binary64.contact_nora Binary64.contact_omar = Ok r12
    /\ Binary64.call_analyze Binary64.contact_omar Binary64.contact_nora = Ok r21
    /\ Binary64.recommendation_strength r12 = u "baja"
    /\ Binary64.recommendation_strength r21 = u "media".
Proof.
  destruct (analyze_contact_similarity_depends_on_order set_order)
    as (r12 & r21 & H12 & H21 & _ & _ & _ & Hs12 & Hs21);
    [vm_compute; reflexivity | vm_compute; reflexivity |].
  exists r12, r21. repeat split; assumption.
Defined.
End EngineRoundingCase.

(** ** utils/ai_engine.py: the factors and the score *)

Section EngineScores.
Context `{PyBuiltins}.
Import Models AIEngine.

Open Scope Q_scope.

Lemma Qnat_le (k m : nat) : (k <= m)%nat -> Qnat k <= Qnat m.
Proof. intros Hkm. unfold Qnat, Qle. simpl. lia. Qed.

Lemma Qnat_pos (m : nat) : (0 < m)%nat -> 0 < Qnat m.
Proof. intros Hm. unfold Qnat, Qlt. simpl. lia. Qed.

Lemma Qdiv_unit_interval (a b : Q) :
  0 <= a -> a <= b -> 0 < b -> 0 <= a / b <= 1.
Proof.
  intros Ha Hab Hb. split.
  - apply Qle_shift_div_l; [assumption|]. lra.
  - apply Qle_shift_div_r; [assumption|]. lra.
Qed.

Lemma Qlt_bool_iff (a b : Q) : Qlt_bool a b = true <-> a < b.
Proof.
  unfold Qlt_bool. rewrite negb_true_iff.
  destruct (Qle_bool b a) eqn:E.
  - apply Qle_bool_iff in E. split; [discriminate | lra].
  - split; [intros _ | reflexivity].
    apply Qnot_le_lt. intros Hle. apply Qle_bool_iff in Hle. congruence.
Qed.

Lemma industry_bounds o v :
  fst (_calculate_industry_similarity o) = Ok v -> 0 <= v <= 1.
Proof.
  unfold _calculate_industry_similarity, bind.
  rewrite !get_lower_run. simpl.
  destruct (industry (contact1 o)) as [|a], (industry (contact2 o)) as [|b]; simpl;
    try discriminate.
  destruct (str_empty (lower a) || str_empty (lower b)).
  { intros [= <-]. lra. }
  destruct (str_eqb (lower a) (lower b)).
  { intros [= <-]. lra. }
  simpl. destruct (existsb _ _).
  { intros [= <-]. lra. }
  set (words1 := list_to_set (split_ws (lower a)) : gset str).
  set (words2 := list_to_set (split_ws (lower b)) : gset str).
  destruct (decide (words1 ∩ words2 = ∅)) as [|Hne].
  { intros [= <-]. lra. }
  intros [= <-].
  assert (size (words1 ∩ words2) <= size words1)%nat as Hsub
    by (apply subseteq_size, intersection_subseteq_l).
  assert (0 < size (words1 ∩ words2))%nat as Hpos.
  { destruct (size (words1 ∩ words2)) eqn:E; [|lia].
    apply size_empty_inv in E. apply leibniz_equiv in E. contradiction. }
  apply Qdiv_unit_interval.
  - apply (Qnat_le 0). lia.
  - apply Qnat_le. lia.
  - apply Qnat_pos. lia.
Qed.

Lemma location_bounds o v :
  fst (_calculate_location_similarity o) = Ok v -> 0 <= v <= 1.
Proof.
  unfold _calculate_location_similarity, bind.
  rewrite !get_lower_run. simpl.
  destruct (location (contact1 o)) as [|a], (location (contact2 o)) as [|b]; simpl;
    try discriminate.
  destruct (str_empty (lower a) || str_empty (lower b)).
  { intros [= <-]. lra. }
  destruct (str_eqb (lower a) (lower b)).
  { intros [= <-]. lra. }
  destruct (decide _).
  { intros [= <-]. lra. }
  match goal with |- context [if ?c then _ else _] => destruct c end;
    intros [= <-]; lra.
Qed.

Lemma company_bounds o v :
  fst (_calculate_company_similarity o) = Ok v -> 0 <= v <= 1.
Proof.
  unfold _calculate_company_similarity, bind.
  rewrite !get_lower_run. simpl.
  destruct (company (contact1 o)) as [|a], (company (contact2 o)) as [|b]; simpl;
    try discriminate.
  destruct (str_empty (lower a) || str_empty (lower b)).
  { intros [= <-]. lra. }
  destruct (str_eqb (lower a) (lower b)).
  { intros [= <-]. lra. }
  destruct (str_contains (lower a) (lower b) || str_contains (lower b) (lower a));
    intros [= <-]; lra.
Qed.

Lemma level_bounds o v :
  fst (_calculate_professional_level_similarity o) = Ok v -> 0 <= v <= 8#10.
Proof.
  unfold _calculate_professional_level_similarity, bind.
  rewrite !get_lower_run. simpl.
  destruct (position (contact1 o)) as [|a], (position (contact2 o)) as [|b]; simpl;
    try discriminate.
  destruct (str_empty (lower a) || str_empty (lower b)).
  { intros [= <-]. lra. }
  set (l1 := _get_professional_level (lower a) _ _ _).
  set (l2 := _get_professional_level (lower b) _ _ _).
  destruct (l1 =? l2)%Z.
  { intros [= <-]. lra. }
  destruct (Z.abs (l1 - l2) =? 1)%Z; intros [= <-]; lra.
Qed.

(** The loop over the platforms keeps [0 <= common_weight <= total_weight]
    when no weight of the table is negative. *)
Lemma platform_loop_invariant (weights : gmap str Q) (common : gset str)
    (platforms : gset str) :
  weights_nonneg weights ->
  let acc := set_fold (add_platform weights common) (0, 0) platforms in
  0 <= snd acc /\ snd acc <= fst acc.
Proof.
  intros Hw. simpl.
  apply (set_fold_ind_L (fun acc _ => 0 <= snd acc /\ snd acc <= fst acc)).
  - simpl. lra.
  - intros p X [total common_w] _ [H0 H1]. simpl in *.
    assert (0 <= default (1#2) (weights !! p)) as Hp.
    { destruct (weights !! p) as [w|] eqn:E; simpl; [eauto | lra]. }
    unfold add_platform. simpl.
    destruct (decide (p ∈ common)); simpl; lra.
Qed.

Lemma social_bounds o v :
  weights_nonneg (platform_weights (self o)) ->
  fst (_calculate_social_similarity o) = Ok v -> 0 <= v <= 1.
Proof.
  intros Hw. unfold _calculate_social_similarity, bind, reads. simpl.
  destruct (_ || _).
  { intros [= <-]. lra. }
  destruct (decide _).
  { intros [= <-]. lra. }
  match goal with
  | |- context [set_fold (add_platform ?w ?c) ?b ?X] =>
      pose proof (platform_loop_invariant w c X Hw) as Hinv; simpl in Hinv;
      destruct (set_fold (add_platform w c) b X) as [total common_w]
  end.
  simpl in *. intros [= <-].
  destruct (Qlt_bool 0 total) eqn:E; [|lra].
  apply Qlt_bool_iff in E. apply Qdiv_unit_interval; lra.
Qed.

Lemma init_weights_nonneg : weights_nonneg (platform_weights __init__).
Proof.
  intros p w. unfold __init__. simpl.
  rewrite !lookup_insert. repeat case_decide; try (intros [= <-]; lra).
  all: rewrite lookup_empty; discriminate.
Qed.


(** When the analysis returns, its score is the capped weighted sum of the
    five factor results. *)
Lemma analyze_score_weighted_sum o r :
  fst (analyze_contact_similarity o) = Ok r ->
  exists i l c s v,
    fst (_calculate_industry_similarity o) = Ok i
    /\ fst (_calculate_location_similarity o) = Ok l
    /\ fst (_calculate_company_similarity o) = Ok c
    /\ fst (_calculate_social_similarity o) = Ok s
    /\ fst (_calculate_professional_level_similarity o) = Ok v
    /\ similarity_score r = Qmin (weighted_sum i l c s v) 1
    /\ recommendation_strength r
       = _get_recommendation_strength (weighted_sum i l c s v).
Proof.
  rewrite analyze_run.
  destruct (fst (_calculate_industry_similarity o)) as [i|]; [|discriminate].
  destruct (fst (_calculate_location_similarity o)) as [l|]; [|discriminate].
  destruct (fst (_calculate_company_similarity o)) as [c|]; [|discriminate].
  destruct (fst (_calculate_social_similarity o)) as [s|]; [|discriminate].
  destruct (fst (_calculate_professional_level_similarity o)) as [v|];
    [|discriminate].
  intros [= <-]. exists i, l, c, s, v. repeat split; reflexivity.
Qed.

Lemma Qmin_below (x y : Q) : x <= y -> Qmin x y = x.
Proof.
  intros Hxy. unfold Qmin, GenericMinMax.gmin.
  destruct (x ?= y) eqn:E; try reflexivity.
  apply Qgt_alt in E. lra.
Qed.

(** With the weights of the constructor: a returned score lies in [0, 1]
    and the cap leaves the weighted sum as it is. *)
Lemma analyze_score_bounds o r :
  weights_nonneg (platform_weights (self o)) ->
  fst (analyze_contact_similarity o) = Ok r ->
  exists i l c s v,
    similarity_score r = weighted_sum i l c s v
    /\ 0 <= similarity_score r <= 1.
Proof.
  intros Hw Hr.
  destruct (analyze_score_weighted_sum o r Hr)
    as (i & l & c & s & v & Hi & Hl & Hc & Hs & Hv & Hscore & _).
  apply industry_bounds in Hi. apply location_bounds in Hl.
  apply company_bounds in Hc. apply (social_bounds o s Hw) in Hs.
  apply level_bounds in Hv.
  assert (0 <= weighted_sum i l c s v <= 1) as Hsum
    by (unfold weighted_sum; lra).
  rewrite Qmin_below in Hscore by lra.
  exists i, l, c, s, v. rewrite Hscore. split; [reflexivity | exact Hsum].
Qed.

Lemma text_factor_returns (key : ContactDict -> optstr) (k : str -> str -> M Q) o :
  is_text (key (contact1 o)) = true -> is_text (key (contact2 o)) = true ->
  (forall a b, exists v, fst (k a b o) = Ok v) ->
  exists v, fst ((do x <- get_lower contact1 key;
                  do y <- get_lower contact2 key; k x y) o) = Ok v.
Proof.
  intros H1 H2 Hk. unfold bind. rewrite get_lower_run.
  destruct (key (contact1 o)) as [|a]; [discriminate|].
  cbn beta iota. rewrite get_lower_run.
  destruct (key (contact2 o)) as [|b]; [discriminate|].
  apply Hk.
Qed.

Lemma text_factor_raises (key : ContactDict -> optstr) (k : str -> str -> M Q) o :
  is_text (key (contact1 o)) && is_text (key (contact2 o)) = false ->
  fst ((do x <- get_lower contact1 key;
        do y <- get_lower contact2 key; k x y) o) = Raise AttributeError.
Proof.
  intros Hnone. unfold bind. rewrite get_lower_run.
  destruct (key (contact1 o)) as [|a]; [reflexivity|].
  cbn beta iota. rewrite get_lower_run.
  destruct (key (contact2 o)) as [|b]; [reflexivity|].
  discriminate.
Qed.

Ltac returns_by_cases :=
  intros; unfold bind, reads, ret; simpl;
  repeat match goal with
         | |- context [if ?c then _ else _] => destruct c
         | |- context [let '(_, _) := ?p in _] => destruct p
         end;
  eexists; reflexivity.

Lemma industry_returns o :
  is_text (industry (contact1 o)) = true ->
  is_text (industry (contact2 o)) = true ->
  exists v, fst (_calculate_industry_similarity o) = Ok v.
Proof.
  intros H1 H2. unfold _calculate_industry_similarity.
  apply text_factor_returns; [assumption..|]. returns_by_cases.
Qed.

Lemma location_returns o :
  is_text (location (contact1 o)) = true ->
  is_text (location (contact2 o)) = true ->
  exists v, fst (_calculate_location_similarity o) = Ok v.
Proof.
  intros H1 H2. unfold _calculate_location_similarity.
  apply text_factor_returns; [assumption..|]. returns_by_cases.
Qed.

Lemma company_returns o :
  is_text (company (contact1 o)) = true ->
  is_text (company (contact2 o)) = true ->
  exists v, fst (_calculate_company_similarity o) = Ok v.
Proof.
  intros H1 H2. unfold _calculate_company_similarity.
  apply text_factor_returns; [assumption..|]. returns_by_cases.
Qed.

Lemma level_returns o :
  is_text (position (contact1 o)) = true ->
  is_text (position (contact2 o)) = true ->
  exists v, fst (_calculate_professional_level_similarity o) = Ok v.
Proof.
  intros H1 H2. unfold _calculate_professional_level_similarity.
  apply text_factor_returns; [assumption..|].
  intros a b. unfold ret.
  set (l1 := _get_professional_level a _ _ _).
  set (l2 := _get_professional_level b _ _ _).
  destruct (str_empty a || str_empty b); [eexists; reflexivity|].
  destruct (l1 =? l2)%Z; [eexists; reflexivity|].
  destruct (Z.abs (l1 - l2) =? 1)%Z; eexists; reflexivity.
Qed.

(** The social factor never raises. *)
Lemma social_returns o : exists v, fst (_calculate_social_similarity o) = Ok v.
Proof. unfold _calculate_social_similarity. returns_by_cases. Qed.

(** The analysis returns when the text entries of both records are strings. *)
Lemma analyze_returns o :
  has_text_fields (contact1 o) && has_text_fields (contact2 o) = true ->
  exists r, fst (analyze_contact_similarity o) = Ok r.
Proof.
  unfold has_text_fields. rewrite !andb_true_iff.
  intros [[[[Hi1 Hl1] Hc1] Hp1] [[[Hi2 Hl2] Hc2] Hp2]].
  rewrite analyze_run.
  destruct (industry_returns o Hi1 Hi2) as [i ->].
  destruct (location_returns o Hl1 Hl2) as [l ->].
  destruct (company_returns o Hc1 Hc2) as [c ->].
  destruct (social_returns o) as [s ->].
  destruct (level_returns o Hp1 Hp2) as [v ->].
  eexists. reflexivity.
Qed.

(** The analysis raises [AttributeError] when a text entry of either
    record is [None]. *)
Lemma analyze_raises o :
  has_text_fields (contact1 o) && has_text_fields (contact2 o) = false ->
  fst (analyze_contact_similarity o) = Raise AttributeError.
Proof.
  intros Hnone. rewrite analyze_run.
  destruct (is_text (industry (contact1 o)) && is_text (industry (contact2 o)))
    eqn:Ei.
  2:{ unfold _calculate_industry_similarity.
      rewrite text_factor_raises by assumption. reflexivity. }
  apply andb_true_iff in Ei as [Hi1 Hi2].
  destruct (industry_returns o Hi1 Hi2) as [i ->].
  destruct (is_text (location (contact1 o)) && is_text (location (contact2 o)))
    eqn:El.
  2:{ unfold _calculate_location_similarity.
      rewrite text_factor_raises by assumption. reflexivity. }
  apply andb_true_iff in El as [Hl1 Hl2].
  destruct (location_returns o Hl1 Hl2) as [l ->].
  destruct (is_text (company (contact1 o)) && is_text (company (contact2 o)))
    eqn:Ec.
  2:{ unfold _calculate_company_similarity.
      rewrite text_factor_raises by assumption. reflexivity. }
  apply andb_true_iff in Ec as [Hc1 Hc2].
  destruct (company_returns o Hc1 Hc2) as [c ->].
  destruct (social_returns o) as [s ->].
  destruct (is_text (position (contact1 o)) && is_text (position (contact2 o)))
    eqn:Ep.
  2:{ unfold _calculate_professional_level_similarity.
      rewrite text_factor_raises by assumption. reflexivity. }
  exfalso. apply andb_true_iff in Ep as [Hp1 Hp2].
  unfold has_text_fields in Hnone.
  rewrite Hi1, Hi2, Hl1, Hl2, Hc1, Hc2, Hp1, Hp2 in Hnone. discriminate.
Qed.

(** C1. On the record of a contact whose optional columns are NULL the
    call does not return the capped weighted sum: [None] has no [lower],
    and [analyze_contact_similarity] raises [AttributeError], whichever
    side the record is passed on. (On records whose text entries are
    strings the score is the capped weighted sum:
    [analyze_returns], [analyze_score_weighted_sum].) *)
Theorem analyze_contact_similarity_raises_on_null_column :
  call_analyze __init__ contact_name_only contact_filled = Raise AttributeError
  /\ call_analyze __init__ contact_filled contact_name_only
     = Raise AttributeError.
Proof. split; apply analyze_raises; reflexivity. Qed.

(** C2. On the same record four of the five factor functions return no
    value at all: the industry, location, company and professional-level
    functions raise [AttributeError]. (When they return, the values lie in
    [0, 1]: [industry_bounds], [location_bounds], [company_bounds],
    [social_bounds], [level_bounds], [analyze_score_bounds].) *)
Theorem factor_functions_raise_on_null_column :
  let o := {| self := __init__; contact1 := contact_name_only;
              contact2 := contact_filled |} in
  fst (_calculate_industry_similarity o) = Raise AttributeError
  /\ fst (_calculate_location_similarity o) = Raise AttributeError
  /\ fst (_calculate_company_similarity o) = Raise AttributeError
  /\ fst (_calculate_professional_level_similarity o) = Raise AttributeError.
Proof.
  intros o. split; [|split; [|split]].
  - unfold _calculate_industry_similarity. apply text_factor_raises. reflexivity.
  - unfold _calculate_location_similarity. apply text_factor_raises. reflexivity.
  - unfold _calculate_company_similarity. apply text_factor_raises. reflexivity.
  - unfold _calculate_professional_level_similarity.
    apply text_factor_raises. reflexivity.
Qed.

(** C3. [analyze_contact_similarity] is deterministic and stateless: calling
    it twice in a row on the same engine and records gives the same result
    (the same score, factors and recommendation strength, or the same
    exception) both times, and after each call the engine instance and the
    two records are what they were before it. *)
Theorem analyze_contact_similarity_deterministic_stateless (o : Objects) :
  let first_call := analyze_contact_similarity o in
  let second_call := analyze_contact_similarity (snd first_call) in
  fst second_call = fst first_call
  /\ self (snd first_call) = self o
  /\ contact1 (snd first_call) = contact1 o
  /\ contact2 (snd first_call) = contact2 o
  /\ snd second_call = o.
Proof.
  intros first_call second_call. subst first_call second_call.
  rewrite !analyze_read_only. repeat split; reflexivity.
Qed.

End EngineScores.

(** ** routes/analytics.py: the density of the network *)

Section NetworkDensity.
Import Models Analytics.

Lemma inner_loop_counts (contact1 : Contact) (rest : list Contact) (acc : nat) :
  fold_left (fun connections contact2 =>
               if potential_connection contact1 contact2
               then S connections else connections) rest acc
  = acc + length (List.filter (potential_connection contact1) rest).
Proof.
  revert acc. induction rest as [|c rest IH]; intros acc; simpl.
  - lia.
  - rewrite IH. destruct (potential_connection contact1 c); simpl; lia.
Qed.

Lemma enumerate_cons {A} (start : nat) (x : A) (l : list A) :
  enumerate start (x :: l) = (start, x) :: enumerate (S start) l.
Proof.
  unfold enumerate. simpl. f_equal.
  - f_equal. lia.
  - apply imap_ext. intros i y _. simpl. f_equal. lia.
Qed.

Lemma outer_loop_counts (before after : list Contact) (acc : nat) :
  fold_left
    (fun connections '(i, contact1) =>
       fold_left
         (fun connections contact2 =>
            if potential_connection contact1 contact2
            then S connections else connections)
         (drop (i + 1) (before ++ after)) connections)
    (enumerate (length before) after) acc
  = acc + count_after after.
Proof.
  revert before acc. induction after as [|c after IH]; intros before acc.
  - simpl. lia.
  - rewrite enumerate_cons. simpl.
    replace (before ++ c :: after) with ((before ++ [c]) ++ after)
      by (rewrite <- app_assoc; reflexivity).
    replace (length before + 1) with (length (before ++ [c]))
      by (rewrite length_app; simpl; lia).
    replace (S (length before)) with (length (before ++ [c]))
      by (rewrite length_app; simpl; lia).
    rewrite drop_app_length, inner_loop_counts, IH. lia.
Qed.

Lemma count_connections_after (contacts : list Contact) :
  count_connections contacts = count_after contacts.
Proof.
  unfold count_connections.
  apply (outer_loop_counts [] contacts 0).
Qed.

(** Counting the positions after [before] whose contact is linked to
    [contact1] is counting the contacts themselves. *)
Lemma count_positions (contacts after : list Contact) (i : nat)
    (contact1 : Contact) :
  contacts !! i = Some contact1 ->
  forall prefix, contacts = prefix ++ after ->
  length (List.filter (share_at contacts)
            (map (pair i) (seq (length prefix) (length after))))
  = length (List.filter (potential_connection contact1) after).
Proof.
  intros Hi. induction after as [|c after IH]; intros prefix Hl.
  - reflexivity.
  - simpl. unfold share_at at 1. simpl. rewrite Hi.
    assert (contacts !! length prefix = Some c) as ->.
    { rewrite Hl. rewrite lookup_app_r by lia.
      rewrite Nat.sub_diag. reflexivity. }
    specialize (IH (prefix ++ [c])).
    rewrite length_app in IH. simpl in IH.
    rewrite Nat.add_1_r in IH.
    rewrite <- app_assoc in IH. specialize (IH Hl).
    destruct (potential_connection contact1 c); simpl; rewrite IH; reflexivity.
Qed.

Lemma pairs_from (contacts : list Contact) (after : list Contact) :
  forall prefix, contacts = prefix ++ after ->
  length (List.filter (share_at contacts)
            (flat_map (fun i => map (pair i)
                                  (seq (S i) (length contacts - S i)))
                      (seq (length prefix) (length after))))
  = count_after after.
Proof.
  induction after as [|c after IH]; intros prefix Hl.
  - reflexivity.
  - simpl. rewrite List.filter_app, length_app.
    specialize (IH (prefix ++ [c])).
    rewrite length_app in IH. simpl in IH. rewrite Nat.add_1_r in IH.
    rewrite <- app_assoc in IH. specialize (IH Hl). rewrite IH.
    f_equal.
    assert (length contacts - S (length prefix) = length after) as ->.
    { rewrite Hl, length_app. simpl. lia. }
    replace (S (length prefix)) with (length (prefix ++ [c]))
      by (rewrite length_app; simpl; lia).
    apply count_positions.
    + rewrite Hl. rewrite lookup_app_r by lia.
      rewrite Nat.sub_diag. reflexivity.
    + rewrite <- app_assoc. exact Hl.
Qed.

Lemma unordered_pairs_after (contacts : list Contact) :
  unordered_pairs_sharing contacts = count_after contacts.
Proof.
  unfold unordered_pairs_sharing, index_pairs.
  apply (pairs_from contacts contacts []). reflexivity.
Qed.

Lemma count_after_bound (contacts : list Contact) :
  2 * count_after contacts <= length contacts * (length contacts - 1).
Proof.
  induction contacts as [|c rest IH]; simpl; [lia|].
  pose proof (List.filter_length_le (potential_connection c) rest) as Hle.
  rewrite Nat.sub_0_r.
  destruct rest as [|d rest']; simpl in *; nia.
Qed.


(** C5. [calculate_network_density] returns 0.0 for fewer than two contacts
    and otherwise the number of unordered pairs of contacts that share a
    non-empty industry, location or company, divided by [n * (n - 1) / 2];
    the result lies in [0, 1]. *)
Theorem calculate_network_density_spec (contacts : list Contact) :
  let n := length contacts in
  calculate_network_density contacts
  = (if Nat.ltb n 2 then 0
     else Qnat (unordered_pairs_sharing contacts)
          / (inject_Z (Z.of_nat n * (Z.of_nat n - 1)) / 2))%Q
  /\ (0 <= calculate_network_density contacts <= 1)%Q.
Proof.
  intros n. unfold calculate_network_density. fold n.
  destruct (Nat.ltb n 2) eqn:En.
  { split; [reflexivity | lra]. }
  apply Nat.ltb_ge in En.
  rewrite count_connections_after, unordered_pairs_after.
  pose proof (count_after_bound contacts) as Hbound. fold n in Hbound.
  set (pairs := count_after contacts) in *.
  set (total := (inject_Z (Z.of_nat n * (Z.of_nat n - 1)) / 2)%Q).
  assert (inject_Z (Z.of_nat n * (Z.of_nat n - 1)) == Qnat (n * (n - 1)))%Q
    as Hprod.
  { unfold Qnat. rewrite Nat2Z.inj_mul, Nat2Z.inj_sub by lia. reflexivity. }
  assert (0 < total)%Q as Htotal.
  { unfold total. rewrite Hprod.
    assert (0 < Qnat (n * (n - 1)))%Q by (apply Qnat_pos; nia).
    apply Qlt_shift_div_l; lra. }
  assert (Qnat pairs <= total)%Q as Hle.
  { unfold total. rewrite Hprod.
    assert (Qnat (2 * pairs) <= Qnat (n * (n - 1)))%Q as H2
      by (apply Qnat_le; exact Hbound).
    assert (Qnat (2 * pairs) == 2 * Qnat pairs)%Q as H3.
    { unfold Qnat. rewrite Nat2Z.inj_mul. unfold Qeq. simpl. lia. }
    apply Qle_shift_div_l; lra. }
  assert (Qlt_bool 0 total = true) as -> by (apply Qlt_bool_iff; exact Htotal).
  split; [reflexivity|].
  apply Qdiv_unit_interval; [|assumption..].
  apply (Qnat_le 0). lia.
Qed.

End NetworkDensity.

(** ** routes/connections.py: generating suggestions *)

Section GenerateConnections.
Context `{PyBuiltins}.
Import Models AIEngine Analytics Connections.

(** One pair whose records hold text: the body of the inner loop adds what
    the specification asks for the pair. *)
Lemma consider_pair_text (db : DB) (user_id : Z) (contacts_data : list ContactDict)
    (i j : nat) (contact1 contact2 : Contact) (suggestions : list Connection) :
  contacts_data !! i = Some (to_dict contact1) ->
  contacts_data !! j = Some (to_dict contact2) ->
  has_text_fields (to_dict contact1) = true ->
  has_text_fields (to_dict contact2) = true ->
  consider_pair db user_id contacts_data i contact1 suggestions (j, contact2)
  = Ok (suggestions ++ suggestion_for db user_id (contact1, contact2)).
Proof.
  intros Hi Hj H1 H2. unfold consider_pair, item, suggestion_for.
  rewrite Hi, Hj.
  destruct (analyze_returns
              {| self := ai_engine; contact1 := to_dict contact1;
                 contact2 := to_dict contact2 |}) as [r Hr].
  { simpl. rewrite H1, H2. reflexivity. }
  unfold call_analyze. rewrite Hr.
  destruct (Qle_bool (3#10) (similarity_score r)); simpl.
  - destruct (existing_connection db user_id (row_id contact1) (row_id contact2));
      simpl.
    + rewrite app_nil_r. reflexivity.
    + reflexivity.
  - rewrite app_nil_r. reflexivity.
Qed.

Lemma inner_loop_text (db : DB) (user_id : Z) (contacts_data : list ContactDict)
    (i : nat) (contact1 : Contact) (after : list Contact) :
  contacts_data !! i = Some (to_dict contact1) ->
  has_text_fields (to_dict contact1) = true ->
  forall (start : nat) (suggestions : list Connection),
    (forall k c, after !! k = Some c ->
                 contacts_data !! (start + k) = Some (to_dict c)
                 /\ has_text_fields (to_dict c) = true) ->
    foreach (enumerate start after)
            (consider_pair db user_id contacts_data i contact1) suggestions
    = Ok (suggestions
          ++ flat_map (suggestion_for db user_id) (map (pair contact1) after)).
Proof.
  intros Hi H1. induction after as [|c after IH]; intros start suggestions Hafter.
  - simpl. rewrite app_nil_r. reflexivity.
  - rewrite enumerate_cons. cbn [foreach].
    destruct (Hafter 0 c eq_refl) as [Hc Htext].
    rewrite Nat.add_0_r in Hc.
    rewrite (consider_pair_text db user_id contacts_data i start contact1 c)
      by assumption.
    rewrite IH.
    + cbn [map flat_map]. rewrite <- app_assoc. reflexivity.
    + intros k d Hk. specialize (Hafter (S k) d Hk).
      rewrite Nat.add_succ_r in Hafter. exact Hafter.
Qed.

Lemma outer_loop_text (db : DB) (user_id : Z) (before after : list Contact)
    (suggestions : list Connection) :
  Forall (fun c => has_text_fields (to_dict c) = true) (before ++ after) ->
  foreach (enumerate (length before) after)
    (fun suggestions '(i, contact1) =>
       foreach (enumerate (i + 1) (drop (i + 1) (before ++ after)))
         (consider_pair db user_id (map to_dict (before ++ after)) i contact1)
         suggestions)
    suggestions
  = Ok (suggestions
        ++ flat_map (suggestion_for db user_id) (pairs_in_order after)).
Proof.
  revert before suggestions.
  induction after as [|c after IH]; intros before suggestions Htext.
  - simpl. rewrite app_nil_r. reflexivity.
  - rewrite enumerate_cons. cbn [foreach].
    assert (before ++ c :: after = (before ++ [c]) ++ after) as Hsplit
      by (rewrite <- app_assoc; reflexivity).
    assert (length (before ++ [c]) = S (length before)) as Hlen
      by (rewrite length_app; simpl; lia).
    assert (drop (length before + 1) (before ++ c :: after) = after) as ->.
    { rewrite Hsplit, Nat.add_1_r, <- Hlen. apply drop_app_length. }
    rewrite (inner_loop_text db user_id _ (length before) c after).
    + rewrite Hsplit, <- Hlen, IH by (rewrite <- Hsplit; exact Htext).
      cbn [pairs_in_order]. rewrite flat_map_app, <- app_assoc. reflexivity.
    + rewrite list_lookup_fmap, lookup_app_r by lia.
      rewrite Nat.sub_diag. reflexivity.
    + rewrite Forall_app, Forall_cons in Htext. tauto.
    + intros k d Hk. split.
      * rewrite list_lookup_fmap, Hsplit, lookup_app_r by (rewrite Hlen; lia).
        rewrite Hlen. replace (length before + 1 + k - S (length before)) with k
          by lia.
        rewrite Hk. reflexivity.
      * rewrite Forall_app, Forall_cons in Htext.
        destruct Htext as (_ & _ & Hafter).
        rewrite Forall_forall in Hafter. apply Hafter.
        eapply list_elem_of_lookup_2. exact Hk.
Qed.

(** When the records of the user's contacts hold text, the loops collect,
    pair by pair in index order, what the specification asks for. *)
Lemma collect_suggestions_text (db : DB) (user_id : Z) (contacts : list Contact) :
  Forall (fun c => has_text_fields (to_dict c) = true) contacts ->
  collect_suggestions db user_id contacts (map to_dict contacts)
  = Ok (flat_map (suggestion_for db user_id) (pairs_in_order contacts)).
Proof.
  intros Htext. unfold collect_suggestions.
  apply (outer_loop_text db user_id [] contacts [] Htext).
Qed.

(** For a user with at least two contacts whose records hold text, the
    handler answers 200 and adds to the table exactly the rows that the
    pairs ask for; the rows that were there stay as they were. *)
Lemma generate_connections_text (db : DB) (user_id : Z) :
  let mine := List.filter (fun c => (row_user_id c =? user_id)%Z) (contacts db) in
  user_id <> 0%Z ->
  2 <= length mine ->
  Forall (fun c => has_text_fields (to_dict c) = true) mine ->
  exists db',
    generate_connections (Some user_id) db = (Ok 200%Z, db')
    /\ connections db'
       = connections db
         ++ flat_map (suggestion_for db user_id) (pairs_in_order mine)
    /\ contacts db' = contacts db.
Proof.
  intros mine Hid Hlen Htext. unfold generate_connections. fold mine.
  rewrite (proj2 (Z.eqb_neq user_id 0) Hid).
  rewrite (proj2 (Nat.ltb_ge (length mine) 2) Hlen).
  rewrite (collect_suggestions_text db user_id mine Htext).
  eexists. split; [reflexivity|]. split; reflexivity.
Qed.

(** C4. User 1 owns three contacts: Luis and Eva, whose pair scores above
    0.3 and has no row yet, and Ana, created from a name alone. For this user
    [generate_connections] persists nothing, not even the row for Luis and
    Eva: the analysis of the pair of Luis and Ana raises [AttributeError] on
    the NULL columns, the exception escapes the handler, and the tables are
    left as they were. (For a user whose records hold text the handler adds
    exactly the rows asked for: [generate_connections_text].) *)
Theorem generate_connections_raises_on_null_column :
  generate_connections (Some 1%Z) db_with_null_columns
  = (Raise AttributeError, db_with_null_columns)
  /\ existing_connection db_with_null_columns 1 (row_id row_filled)
                         (row_id row_eva) = None
  /\ exists analysis,
       @call_analyze Sample.builtins ai_engine (to_dict row_filled)
                     (to_dict row_eva) = Ok analysis
       /\ Qle_bool (3#10) (similarity_score analysis) = true.
Proof.
  split; [reflexivity|]. split; [reflexivity|].
  eexists. split; [vm_compute; reflexivity|]. reflexivity.
Qed.

End GenerateConnections.

(** ** utils/auth.py: sanitizing input *)

Section Sanitize.
Import Auth.

Lemma filter_all (P : N -> Prop) `{forall x, Decision (P x)} (s : str) :
  (forall x, x ∈ s -> P x) -> filter P s = s.
Proof.
  induction s as [|c s IH]; intros Hall; [reflexivity|].
  rewrite filter_cons_True by (apply Hall; left).
  rewrite IH; [reflexivity|]. intros x Hx. apply Hall. right. exact Hx.
Qed.

Lemma remove_chars_filter (chars : list N) (s : str) :
  fold_left (fun data char => remove_char char data) chars s
  = filter (fun d => d ∉ chars) s.
Proof.
  revert s. induction chars as [|c chars IH]; intros s; simpl.
  - symmetry. apply filter_all. intros x _. apply not_elem_of_nil.
  - rewrite IH. unfold remove_char. rewrite list_filter_filter.
    apply list_filter_iff. intros x. rewrite not_elem_of_cons. tauto.
Qed.

Lemma sanitized_text (s : str) :
  sanitize_input (VStr s)
  = VStr (take 1000 (filter (fun d => d ∉ dangerous_chars) s)).
Proof. unfold sanitize_input. rewrite remove_chars_filter. reflexivity. Qed.

Lemma take_filter_fixed (P : N -> Prop) `{forall x, Decision (P x)} (n : nat)
    (s : str) :
  take n (filter P (take n (filter P s))) = take n (filter P s).
Proof.
  rewrite (filter_all P (take n (filter P s))).
  - rewrite take_take, Nat.min_id. reflexivity.
  - intros x Hx. apply elem_of_take in Hx as (i & Hx & _).
    apply list_elem_of_lookup_2 in Hx. apply list_elem_of_filter in Hx. tauto.
Qed.

(** C10. For a string, the result of [sanitize_input] holds none of the
    characters <, >, double quote, single quote, & and NUL and has at most
    1000 characters; sanitizing twice is sanitizing once; a value that is
    not a string is returned unchanged. *)
Theorem sanitize_input_clean_idempotent :
  (forall s : str, exists t : str,
      sanitize_input (VStr s) = VStr t
      /\ (forall c, c ∈ [60; 62; 34; 39; 38; 0]%N -> c ∉ t)
      /\ length t <= 1000)
  /\ (forall data : value,
        sanitize_input (sanitize_input data) = sanitize_input data)
  /\ (forall data : value,
        match data with
        | VStr _ => True
        | other => sanitize_input other = other
        end).
Proof.
  split; [|split].
  - intros s. eexists. split; [apply sanitized_text|]. split.
    + intros c Hc Hin. apply elem_of_take in Hin as (i & Hin & _).
      apply list_elem_of_lookup_2 in Hin. apply list_elem_of_filter in Hin.
      destruct Hin as [Hnot _]. apply Hnot. exact Hc.
    + rewrite length_take. lia.
  - intros [| | | |s| |]; try reflexivity.
    rewrite sanitized_text, sanitized_text. f_equal. apply take_filter_fixed.
  - intros [| | | |s| |]; first [exact I | reflexivity].
Qed.

End Sanitize.

(** ** utils/auth.py: hashing and verifying passwords *)

Section Passwords.
Context `{PyBuiltins}.
Import Auth.

Lemma hex_digit_not_colon (d : N) : hex_digit d <> 58%N.
Proof. unfold hex_digit. destruct (d <? 10)%N eqn:E; [apply N.ltb_lt in E|]; lia. Qed.

(** A hexadecimal rendering holds no colon. *)
Lemma hex_no_colon (bytes : list N) : 58%N ∉ hex bytes.
Proof.
  unfold hex. induction bytes as [|b bytes IH]; simpl.
  - apply not_elem_of_nil.
  - rewrite !not_elem_of_cons. repeat split; try assumption;
      apply not_eq_sym, hex_digit_not_colon.
Qed.

Lemma split_on_no_sep (sep : N) (cur s : str) :
  sep ∉ s -> split_on_from sep cur s = [cur ++ s].
Proof.
  revert cur. induction s as [|c s IH]; intros cur Hs; simpl.
  - rewrite app_nil_r. reflexivity.
  - apply not_elem_of_cons in Hs as [Hc Hs].
    destruct (c =? sep)%N eqn:E; [apply N.eqb_eq in E; congruence|].
    rewrite IH by assumption. rewrite <- app_assoc. reflexivity.
Qed.

Lemma split_on_first_sep (sep : N) (cur a b : str) :
  sep ∉ a ->
  split_on_from sep cur (a ++ sep :: b) = (cur ++ a) :: split_on_from sep [] b.
Proof.
  revert cur. induction a as [|c a IH]; intros cur Ha; simpl.
  - rewrite N.eqb_refl, app_nil_r. reflexivity.
  - apply not_elem_of_cons in Ha as [Hc Ha].
    destruct (c =? sep)%N eqn:E; [apply N.eqb_eq in E; congruence|].
    rewrite IH by assumption. rewrite <- app_assoc. reflexivity.
Qed.

(** A hexadecimal digit is an ASCII character. *)
Lemma hex_digit_ascii (d : N) : (d < 16)%N -> (hex_digit d < 128)%N.
Proof.
  intros Hd. unfold hex_digit. destruct (d <? 10)%N; lia.
Qed.

Lemma ascii_not_surrogate (c : N) : (c < 128)%N -> is_surrogate c = false.
Proof.
  intros Hc. unfold is_surrogate. apply andb_false_iff. left.
  apply N.leb_gt. lia.
Qed.

(** The salt can always be encoded. *)
Lemma token_hex_no_surrogate (random_bytes : list Byte.byte) :
  existsb is_surrogate (token_hex random_bytes) = false.
Proof.
  unfold token_hex, hex.
  induction random_bytes as [|b random_bytes IH]; [reflexivity|].
  pose proof (Byte.to_N_bounded b) as Hb.
  cbn [map flat_map app existsb]. rewrite IH.
  rewrite !ascii_not_surrogate; [reflexivity| |]; apply hex_digit_ascii.
  - apply N.mod_lt. lia.
  - apply N.Div0.div_lt_upper_bound. lia.
Qed.

Lemma sha256_hexdigest_salted (random_bytes : list Byte.byte) (password : str) :
  sha256_hexdigest (password ++ token_hex random_bytes)
  = if existsb is_surrogate password then Raise UnicodeEncodeError
    else Ok (hex (sha256 (flat_map utf8_bytes
                            (password ++ token_hex random_bytes)))).
Proof.
  unfold sha256_hexdigest, encode.
  rewrite existsb_app, token_hex_no_surrogate, orb_false_r.
  destruct (existsb is_surrogate password); reflexivity.
Qed.

Lemma hash_password_run (random_bytes : list Byte.byte) (password : str) :
  hash_password random_bytes password
  = if existsb is_surrogate password then Raise UnicodeEncodeError
    else Ok (token_hex random_bytes ++ u ":" ++
             hex (sha256 (flat_map utf8_bytes
                            (password ++ token_hex random_bytes)))).
Proof.
  unfold hash_password. rewrite sha256_hexdigest_salted.
  destruct (existsb is_surrogate password); reflexivity.
Qed.

(** What [hash_password] emits splits at its colon into the salt and the
    digest. *)
Lemma salt_colon_digest_parts (random_bytes : list Byte.byte) (digest : list N) :
  split_on 58 (token_hex random_bytes ++ u ":" ++ hex digest)
  = [token_hex random_bytes; hex digest].
Proof.
  unfold split_on, token_hex.
  change (u ":") with [58%N]. simpl.
  rewrite split_on_first_sep by apply hex_no_colon.
  rewrite split_on_no_sep by apply hex_no_colon.
  reflexivity.
Qed.

(** [verify_password] never raises. *)
Lemma verify_password_returns (password stored : str) :
  exists b, verify_password password stored = Ok b.
Proof.
  unfold verify_password, sha256_hexdigest, encode.
  destruct (split_on 58 stored) as [|a [|b [|c parts]]]; simpl;
    try (eexists; reflexivity).
  destruct (existsb is_surrogate (password ++ a)); simpl; eexists; reflexivity.
Qed.

(** A password that ends in a surrogate code point: hashing it raises
    [UnicodeEncodeError], so checking it against its own hash returns
    nothing. *)
Lemma verify_own_hash_raises_on_surrogate :
  @verify_own_hash Sample.builtins Sample.salt_bytes
                   Sample.password_with_surrogate
  = Raise UnicodeEncodeError.
Proof. vm_compute. reflexivity. Qed.

(** C9. Hashing round-trips for the passwords that UTF-8 can encode: for a
    password that holds no surrogate code point and every salt drawn while
    hashing, [hash_password] returns the salt, a colon and the digest, two
    hexadecimal strings without a colon, and [verify_password] accepts the
    password against it; for a password that holds a surrogate,
    [hash_password] raises [UnicodeEncodeError]. On every stored string
    [verify_password] returns, and on one that does not split into exactly
    two colon-separated parts it returns [False]. *)
Theorem verify_password_round_trip :
  (forall (random_bytes : list Byte.byte) (password : str),
      match hash_password random_bytes password with
      | Ok hashed_password =>
          existsb is_surrogate password = false
          /\ (exists digest,
                 hashed_password = token_hex random_bytes ++ u ":" ++ digest
                 /\ (58%N ∉ token_hex random_bytes) /\ (58%N ∉ digest)
                 /\ split_on 58 hashed_password
                    = [token_hex random_bytes; digest])
          /\ verify_password password hashed_password = Ok true
      | Raise e =>
          existsb is_surrogate password = true /\ e = UnicodeEncodeError
      end)
  /\ (forall (random_bytes : list Byte.byte) (password : str),
        verify_own_hash random_bytes password
        = if existsb is_surrogate password then Raise UnicodeEncodeError
          else Ok true)
  /\ (forall password stored : str,
        if Nat.eqb (length (split_on 58 stored)) 2
        then exists b, verify_password password stored = Ok b
        else verify_password password stored = Ok false).
Proof.
  assert (Hverify : forall random_bytes password,
             existsb is_surrogate password = false ->
             verify_password password
               (token_hex random_bytes ++ u ":" ++
                hex (sha256 (flat_map utf8_bytes
                               (password ++ token_hex random_bytes))))
             = Ok true).
  { intros random_bytes password Hpw. unfold verify_password.
    rewrite salt_colon_digest_parts. cbn [unpack2].
    rewrite sha256_hexdigest_salted, Hpw.
    unfold str_eqb. rewrite bool_decide_eq_true_2 by reflexivity.
    reflexivity. }
  split; [|split].
  - intros random_bytes password. rewrite hash_password_run.
    destruct (existsb is_surrogate password) eqn:Hpw.
    + split; reflexivity.
    + split; [reflexivity|]. split.
      * eexists. split; [reflexivity|]. split; [apply hex_no_colon|].
        split; [apply hex_no_colon|]. apply salt_colon_digest_parts.
      * apply Hverify. exact Hpw.
  - intros random_bytes password. unfold verify_own_hash.
    rewrite hash_password_run.
    destruct (existsb is_surrogate password) eqn:Hpw; [reflexivity|].
    apply Hverify. exact Hpw.
  - intros password stored.
    destruct (Nat.eqb (length (split_on 58 stored)) 2) eqn:Hparts;
      [apply verify_password_returns|].
    unfold verify_password.
    destruct (split_on 58 stored) as [|a [|b [|c parts]]];
      try reflexivity.
    discriminate Hparts.
Qed.

End Passwords.

(** ** utils/auth.py and routes/auth.py: the rate limit *)

Section RateLimit.
Context `{PyBuiltins}.
Import Models Auth Routes.

Lemma rate_limit_check_result (config : Config) (self : AuthManager)
    (identifier : str) (max_attempts : option Z) (window_minutes now : Z) :
  let limit := default (MAX_LOGIN_ATTEMPTS config) max_attempts in
  let counted := attempts_within self identifier window_minutes now in
  let r := fst (rate_limit_check config self identifier max_attempts
                  window_minutes now) in
  allowed r = negb (limit <=? counted)%Z
  /\ attempts r = counted
  /\ remaining r = (if allowed r then Some (limit - counted)%Z else None)
  /\ reset_time r = (if allowed r then None else Some now).
Proof.
  intros limit counted r. subst r.
  unfold rate_limit_check. fold limit.
  assert (Z.of_nat
            (length
               match default ∅ (_rate_limits self) !! identifier with
               | Some recorded =>
                   List.filter
                     (fun attempt =>
                        (now - timedelta_minutes window_minutes <? attempt)%Z)
                     recorded
               | None => []
               end) = counted) as ->.
  { unfold counted, attempts_within, recorded_attempts.
    destruct (default ∅ (_rate_limits self) !! identifier); reflexivity. }
  destruct (limit <=? counted)%Z; simpl; repeat split; try reflexivity.
  f_equal. lia.
Qed.

(** The check keeps, for its identifier, the attempts of the window, and
    leaves the other identifiers alone. *)
Lemma rate_limit_check_state (config : Config) (self : AuthManager)
    (identifier : str) (max_attempts : option Z) (window_minutes now : Z) :
  let self' := snd (rate_limit_check config self identifier max_attempts
                      window_minutes now) in
  recorded_attempts self' identifier
  = List.filter (fun attempt =>
                   (now - timedelta_minutes window_minutes <? attempt)%Z)
                (recorded_attempts self identifier)
  /\ forall other, other <> identifier ->
       recorded_attempts self' other = recorded_attempts self other.
Proof.
  intros self'. subst self'. unfold rate_limit_check.
  set (recent := match default ∅ (_rate_limits self) !! identifier with
                 | Some recorded => List.filter _ recorded
                 | None => []
                 end).
  assert (forall b : bool, snd (if b then
            ({| allowed := false; attempts := Z.of_nat (length recent);
                reset_time := Some (now - timedelta_minutes window_minutes
                                    + timedelta_minutes window_minutes)%Z;
                remaining := None |},
             {| _rate_limits := Some (<[identifier := recent]>
                                        (default ∅ (_rate_limits self))) |})
          else
            ({| allowed := true; attempts := Z.of_nat (length recent);
                reset_time := None;
                remaining := Some (default (MAX_LOGIN_ATTEMPTS config)
                                     max_attempts
                                   - Z.of_nat (length recent))%Z |},
             {| _rate_limits := Some (<[identifier := recent]>
                                        (default ∅ (_rate_limits self))) |}))
          = {| _rate_limits := Some (<[identifier := recent]>
                                       (default ∅ (_rate_limits self))) |})
    as Hsnd by (intros []; reflexivity).
  rewrite Hsnd. unfold recorded_attempts. simpl. split.
  - rewrite lookup_insert_eq. simpl. subst recent.
    destruct (default ∅ (_rate_limits self) !! identifier); reflexivity.
  - intros other Hne. rewrite lookup_insert_ne by congruence. reflexivity.
Qed.

Lemma record_attempt_recorded (self : AuthManager) (identifier : str) (t : Z) :
  recorded_attempts (record_attempt self identifier t) identifier
  = recorded_attempts self identifier ++ [t]
  /\ forall other, other <> identifier ->
       recorded_attempts (record_attempt self identifier t) other
       = recorded_attempts self other.
Proof.
  unfold record_attempt, recorded_attempts. simpl. split.
  - rewrite lookup_insert_eq. reflexivity.
  - intros other Hne. rewrite lookup_insert_ne by congruence. reflexivity.
Qed.

(** The status of a view that returns within [codes], once the framework
    has answered an escaping exception with 500. *)
Lemma respond_in (codes : list Z) (view : SE State Z) (st : State) :
  returns_in (fun code => code ∈ codes) view ->
  fst (respond view st) ∈ 500%Z :: codes.
Proof.
  intros Hv. unfold respond. specialize (Hv st).
  destruct (view st) as [[code|e] st']; simpl in *.
  - right. exact Hv.
  - left.
Qed.



Lemma respond_bind {A} (m : SE State A)
    (k : A -> SE State Z) (st st' : State) (a : A) :
  m st = (Ok a, st') -> respond (bind m k) st = respond (k a) st'.
Proof. intros Hm. unfold respond, bind. rewrite Hm. reflexivity. Qed.

Lemma validate_input_status (schema : Schema) (request : Request) (code : Z) :
  validate_input schema request = Ok (inl code) -> code = 400%Z.
Proof.
  unfold validate_input.
  destruct (negb (is_json request)); [congruence|].
  destruct (json request) as [data|]; [|congruence].
  destruct (negb (body_truthy data)); [congruence|].
  destruct data;
    repeat match goal with
           | |- context [if ?c then _ else _] => destruct c
           | |- context [match foreach ?l ?f ?x with _ => _ end] =>
               destruct (foreach l f x)
           end; congruence.
Qed.

(** The framework answers 500 when the decorator raises. *)
Lemma respond_raise (e : exn) (st : State) :
  respond (raise e) st = (500%Z, st).
Proof. reflexivity. Qed.

(** [login] answers 429 exactly when its rate check refuses. *)
Lemma login_handler_too_many (config : Config) (env : Env) (data : Body)
    (client_ip : str) (st : State) :
  fst (respond (login_handler config env data client_ip) st) = 429%Z
  <-> allowed (fst (rate_limit_check config (auth_manager st)
                      (u "login_" ++ client_ip) None 15 (now env))) = false.
Proof.
  unfold login_handler.
  destruct (rate_limit_check config (auth_manager st) (u "login_" ++ client_ip)
              None 15 (now env)) as [r am] eqn:Er.
  erewrite respond_bind.
  2:{ unfold call_rate_limit_check. rewrite Er. reflexivity. }
  cbv beta. cbn [fst]. destruct (allowed r); cbn [negb].
  - split; [|discriminate]. intros H429.
    match type of H429 with
    | fst (respond ?v ?s) = _ =>
        assert (returns_in (fun code => code ∈ [401; 401; 200; 500]%Z) v) as Hv
          by returns_in_steps;
        pose proof (respond_in _ v s Hv) as Hin
    end.
    rewrite H429 in Hin. repeat (apply elem_of_cons in Hin as [Hin|Hin];
                                 [discriminate|]).
    apply elem_of_nil in Hin. contradiction.
  - split; intros _; reflexivity.
Qed.

Lemma login_too_many (config : Config) (env : Env) (data : gmap str value)
    (client_ip : str) (st : State) :
  fst (respond (login config env data client_ip) st) = 429%Z
  <-> allowed (fst (rate_limit_check config (auth_manager st)
                      (u "login_" ++ client_ip) None 15 (now env))) = false.
Proof. apply login_handler_too_many. Qed.

End RateLimit.

(** ** utils/auth.py: the rate limit over a history of calls *)

Section RateLimitHistory.
Context `{PyBuiltins}.
Import Auth.

Lemma filter_filter_implied {A} (p q : A -> bool) (l : list A) :
  (forall x, p x = true -> q x = true) ->
  List.filter p (List.filter q l) = List.filter p l.
Proof.
  intros Hpq. induction l as [|x l IH]; simpl; [reflexivity|].
  destruct (q x) eqn:Eq; simpl.
  - rewrite IH. reflexivity.
  - rewrite IH. destruct (p x) eqn:Ep; [|reflexivity].
    apply Hpq in Ep. congruence.
Qed.

Lemma run_call_agrees (config : Config) (window_minutes : str -> Z)
    (identifier : str) (self : AuthManager) (clock : Z) (seen : list Z)
    (step : nat * call) :
  let window := timedelta_minutes (window_minutes identifier) in
  agrees window self clock identifier seen ->
  let '(self', clock') := run_call config window_minutes (self, clock) step in
  agrees window self' clock' identifier
         (seen ++ attempt_times [step] clock identifier).
Proof.
  intros window Hagree. destruct step as [delay [id|id max_attempts]]; simpl.
  - intros now Hnow. unfold str_eqb.
    destruct (record_attempt_recorded self id (clock + Z.of_nat delay))
      as [Hsame Hother].
    destruct (decide (id = identifier)) as [->|Hne].
    + rewrite bool_decide_eq_true_2 by reflexivity.
      rewrite Hsame, !List.filter_app, Hagree by lia. reflexivity.
    + rewrite bool_decide_eq_false_2 by assumption.
      rewrite Hother, app_nil_r by congruence. apply Hagree. lia.
  - intros now Hnow. rewrite app_nil_r.
    destruct (rate_limit_check_state config self id max_attempts
                (window_minutes id) (clock + Z.of_nat delay))
      as [Hsame Hother].
    destruct (decide (id = identifier)) as [->|Hne].
    + rewrite Hsame, filter_filter_implied.
      * apply Hagree. lia.
      * fold window. intros t Ht. apply Z.ltb_lt in Ht. apply Z.ltb_lt. lia.
    + rewrite Hother by congruence. apply Hagree. lia.
Qed.

Lemma attempt_times_app (calls1 calls2 : list (nat * call)) (clock : Z)
    (identifier : str) (config : Config) (window_minutes : str -> Z)
    (self : AuthManager) :
  attempt_times (calls1 ++ calls2) clock identifier
  = attempt_times calls1 clock identifier
    ++ attempt_times calls2
         (snd (run_calls config window_minutes calls1 (self, clock)))
         identifier.
Proof.
  revert clock self. induction calls1 as [|[delay c] calls1 IH];
    intros clock self; [reflexivity|].
  unfold run_calls in *. cbn [app attempt_times fold_left].
  destruct c as [id|id max_attempts]; cbn [run_call].
  - rewrite (IH _ (record_attempt self id (clock + Z.of_nat delay))).
    destruct (str_eqb id identifier); reflexivity.
  - rewrite (IH _ (snd (rate_limit_check config self id max_attempts
                          (window_minutes id) (clock + Z.of_nat delay)))).
    reflexivity.
Qed.

Lemma run_calls_agrees (config : Config) (window_minutes : str -> Z)
    (identifier : str) (calls : list (nat * call)) :
  forall (self : AuthManager) (clock : Z) (seen : list Z),
    let window := timedelta_minutes (window_minutes identifier) in
    agrees window self clock identifier seen ->
    let '(self', clock') :=
      run_calls config window_minutes calls (self, clock) in
    agrees window self' clock' identifier
           (seen ++ attempt_times calls clock identifier).
Proof.
  induction calls as [|step calls IH]; intros self clock seen window Hagree.
  - simpl. rewrite app_nil_r. exact Hagree.
  - unfold run_calls. cbn [fold_left].
    pose proof (run_call_agrees config window_minutes identifier self clock
                  seen step Hagree) as Hstep.
    destruct (run_call config window_minutes (self, clock) step)
      as [self1 clock1] eqn:E1.
    specialize (IH self1 clock1 _ Hstep). unfold run_calls in IH.
    destruct (fold_left _ calls (self1, clock1)) as [self2 clock2].
    replace (seen ++ attempt_times (step :: calls) clock identifier)
      with ((seen ++ attempt_times [step] clock identifier)
            ++ attempt_times calls clock1 identifier); [exact IH|].
    rewrite <- app_assoc. f_equal.
    change (step :: calls) with ([step] ++ calls).
    rewrite (attempt_times_app [step] calls clock identifier config
               window_minutes self).
    unfold run_calls. cbn [fold_left]. rewrite E1. reflexivity.
Qed.

(** After any history of calls on a new manager, the attempts that a check
    counts for an identifier are the calls of [record_attempt] for it
    within the window. *)
Lemma attempts_within_history (config : Config) (window_minutes : str -> Z)
    (calls : list (nat * call)) (identifier : str) (delay : nat) :
  let '(self, clock) :=
    run_calls config window_minutes calls ({| _rate_limits := None |}, 0%Z) in
  let now := (clock + Z.of_nat delay)%Z in
  attempts_within self identifier (window_minutes identifier) now
  = Z.of_nat (length (List.filter
                        (fun t => (now - timedelta_minutes
                                           (window_minutes identifier) <? t)%Z)
                        (attempt_times calls 0 identifier))).
Proof.
  pose proof (run_calls_agrees config window_minutes identifier calls
                {| _rate_limits := None |} 0%Z []) as Hrun.
  simpl in Hrun.
  destruct (run_calls config window_minutes calls
              ({| _rate_limits := None |}, 0%Z)) as [self clock].
  intros now. unfold attempts_within.
  rewrite Hrun; [reflexivity| |subst now; lia].
  intros t _. reflexivity.
Qed.

(** The clock of a history does not go back, and every attempt of the
    history lies at or before its end. *)
Lemma attempt_times_past (config : Config) (window_minutes : str -> Z)
    (identifier : str) (calls : list (nat * call)) :
  forall (self : AuthManager) (clock : Z),
    let finish := snd (run_calls config window_minutes calls (self, clock)) in
    (clock <= finish)%Z
    /\ Forall (fun t => (t <= finish)%Z) (attempt_times calls clock identifier).
Proof.
  induction calls as [|[delay c] calls IH]; intros self clock finish.
  - split; [subst finish; simpl; lia | constructor].
  - subst finish. unfold run_calls in *. cbn [fold_left attempt_times].
    destruct c as [id|id max_attempts]; cbn [run_call].
    + destruct (IH (record_attempt self id (clock + Z.of_nat delay))
                   (clock + Z.of_nat delay)%Z) as [Hclock Htimes].
      split; [lia|].
      destruct (str_eqb id identifier); [constructor|]; assumption.
    + destruct (IH (snd (rate_limit_check config self id max_attempts
                           (window_minutes id) (clock + Z.of_nat delay)))
                   (clock + Z.of_nat delay)%Z) as [Hclock Htimes].
      split; [lia | assumption].
Qed.

Lemma filter_pointwise {A} (p q : A -> bool) (l : list A) :
  Forall (fun x => p x = q x) l -> List.filter p l = List.filter q l.
Proof.
  induction 1 as [|x l Hx _ IH]; simpl; [reflexivity|].
  rewrite Hx, IH. reflexivity.
Qed.

(** The attempts that a check counts are the calls of [record_attempt] for
    the identifier made within the window that ends at the check. *)
Lemma attempts_within_window_history (config : Config) (window_minutes : str -> Z)
    (calls : list (nat * call)) (identifier : str) (delay : nat) :
  let '(self, clock) :=
    run_calls config window_minutes calls ({| _rate_limits := None |}, 0%Z) in
  let now := (clock + Z.of_nat delay)%Z in
  let window_start :=
    (now - timedelta_minutes (window_minutes identifier))%Z in
  attempts_within self identifier (window_minutes identifier) now
  = Z.of_nat (length (List.filter
                        (fun t => (window_start <? t)%Z && (t <=? now)%Z)
                        (attempt_times calls 0 identifier))).
Proof.
  pose proof (attempts_within_history config window_minutes calls identifier
                delay) as Hcount.
  pose proof (attempt_times_past config window_minutes identifier calls
                {| _rate_limits := None |} 0%Z) as [_ Hpast].
  destruct (run_calls config window_minutes calls
              ({| _rate_limits := None |}, 0%Z)) as [self clock].
  cbn [snd] in Hpast. intros now window_start. subst now window_start.
  cbv zeta in Hcount. rewrite Hcount.
  do 2 f_equal. apply filter_pointwise.
  eapply Forall_impl; [exact Hpast|].
  intros t Ht. cbv beta in Ht |- *.
  replace (t <=? clock + Z.of_nat delay)%Z with true;
    [rewrite andb_true_r; reflexivity|].
  symmetry. apply Z.leb_le. lia.
Qed.
End RateLimitHistory.

(** ** utils/auth.py and routes/auth.py: the gate of login *)

Section RateLimitGate.
Context `{PyBuiltins}.
Import Models Auth Routes.

(** C6. The in-process counter is the gate of login: [rate_limit_check]
    refuses ([allowed] is [False]) exactly when the attempts recorded by
    [record_attempt] for the identifier within the last [window_minutes]
    minutes number at least [max_attempts], it reports that number, and
    when it allows it reports [remaining = max_attempts - attempts];
    [record_attempt] appends the time of the attempt to what is recorded
    for the identifier, and after any history of calls on a new manager,
    each identifier checked with its own window under a clock that does
    not go back, the number the check counts is the number of
    [record_attempt] calls for the identifier within the window; and the
    login endpoint answers 429 if and only if that check refuses the
    client's identifier. *)
Theorem rate_limit_gate :
  (forall (config : Config) (self : AuthManager) (identifier : str)
          (max_attempts : option Z) (window_minutes now : Z),
      let limit := default (MAX_LOGIN_ATTEMPTS config) max_attempts in
      let counted := attempts_within self identifier window_minutes now in
      let r := fst (rate_limit_check config self identifier max_attempts
                      window_minutes now) in
      (allowed r = false <-> (limit <= counted)%Z)
      /\ attempts r = counted
      /\ remaining r = (if allowed r then Some (limit - counted)%Z else None))
  /\ (forall (self : AuthManager) (identifier : str) (t : Z),
        recorded_attempts (record_attempt self identifier t) identifier
        = recorded_attempts self identifier ++ [t])
  /\ (forall (config : Config) (window_minutes : str -> Z)
             (calls : list (nat * call)) (identifier : str) (delay : nat),
        let '(self, clock) :=
          run_calls config window_minutes calls
                    ({| _rate_limits := None |}, 0%Z) in
        let now := (clock + Z.of_nat delay)%Z in
        let window_start :=
          (now - timedelta_minutes (window_minutes identifier))%Z in
        attempts_within self identifier (window_minutes identifier) now
        = Z.of_nat
            (length (List.filter
                       (fun t => (window_start <? t)%Z && (t <=? now)%Z)
                       (attempt_times calls 0 identifier))))
  /\ (forall (config : Config) (env : Env) (data : gmap str value)
             (client_ip : str) (st : State),
        fst (respond (login config env data client_ip) st) = 429%Z
        <-> allowed (fst (rate_limit_check config (auth_manager st)
                            (u "login_" ++ client_ip) None 15 (now env)))
            = false)
  /\ (forall (config : Config) (env : Env) (request : Request) (st : State),
        fst (respond (login_view config env request) st) = 429%Z
        <-> exists data,
              validate_input {| required := [u "username"; u "password"];
                                types := [u "username"; u "password"] |}
                             request = Ok (inr data)
              /\ allowed (fst (rate_limit_check config (auth_manager st)
                                 (u "login_" ++ remote_addr request) None 15
                                 (now env))) = false).
Proof.
  split; [|split; [|split; [|split]]].
  - intros config self identifier max_attempts window_minutes now limit counted r.
    destruct (rate_limit_check_result config self identifier max_attempts
                window_minutes now) as (Hallowed & Hattempts & Hremaining & _).
    fold limit counted r in Hallowed, Hattempts, Hremaining.
    split; [|split; assumption].
    rewrite Hallowed, negb_false_iff. apply Z.leb_le.
  - intros self identifier t. apply record_attempt_recorded.
  - apply attempts_within_window_history.
  - apply login_too_many.
  - intros config env request st. unfold login_view.
    destruct (validate_input _ request) as [[code|data]|e] eqn:Ev.
    + apply validate_input_status in Ev as ->. split.
      * discriminate.
      * intros (data & Hdata & _). discriminate.
    + rewrite login_handler_too_many. split.
      * intros Hr. exists data. split; [reflexivity | exact Hr].
      * intros (data' & _ & Hr). exact Hr.
    + rewrite respond_raise. split.
      * discriminate.
      * intros (data & Hdata & _). discriminate.
Qed.

End RateLimitGate.

(** ** routes/auth.py and main.py: the status codes *)

Section StatusCodes.
Context `{PyBuiltins}.
Import Models Auth Routes.

Lemma registration_items extra username email password :
  let data := registration extra username email password in
  str_item data (u "username") = Ok username
  /\ str_item data (u "email") = Ok email
  /\ str_item data (u "password") = Ok password.
Proof.
  unfold registration, str_item. repeat split.
  - rewrite lookup_insert_eq. reflexivity.
  - rewrite lookup_insert_ne by (vm_compute; discriminate).
    rewrite lookup_insert_eq. reflexivity.
  - rewrite lookup_insert_ne by (vm_compute; discriminate).
    rewrite lookup_insert_ne by (vm_compute; discriminate).
    rewrite lookup_insert_eq. reflexivity.
Qed.






End StatusCodes.

(** ** utils/auth.py: the password rules *)

Section PasswordRules.
Context `{PyBuiltins}.
Import Auth.

Lemma valid_criteria (config : Config) (password : str) :
  valid (validate_password_strength config password)
  = (PASSWORD_MIN_LENGTH config <=? Z.of_nat (length password))%Z
    && any_char isupper password && any_char islower password
    && any_char isdigit password && any_char is_special password.
Proof.
  unfold validate_password_strength. cbn [valid].
  rewrite (Z.ltb_antisym (PASSWORD_MIN_LENGTH config)).
  destruct (PASSWORD_MIN_LENGTH config <=? Z.of_nat (length password))%Z,
    (any_char isupper password), (any_char islower password),
    (any_char isdigit password), (any_char is_special password);
    reflexivity.
Qed.

(** X1. [validate_password_strength] accepts a password exactly when it has
    at least PASSWORD_MIN_LENGTH characters, an uppercase letter, a
    lowercase letter, a digit and one of the listed special characters, and
    it reports one error for each requirement that is not met. *)
Theorem validate_password_strength_criteria (config : Config) (password : str) :
  let long_enough :=
    (PASSWORD_MIN_LENGTH config <=? Z.of_nat (length password))%Z in
  let v := validate_password_strength config password in
  valid v = long_enough && any_char isupper password
            && any_char islower password && any_char isdigit password
            && any_char is_special password
  /\ length (errors v)
     = Nat.b2n (negb long_enough)
       + Nat.b2n (negb (any_char isupper password))
       + Nat.b2n (negb (any_char islower password))
       + Nat.b2n (negb (any_char isdigit password))
       + Nat.b2n (negb (any_char is_special password)).
Proof.
  intros long_enough v. subst long_enough v.
  split; [apply valid_criteria|].
  unfold validate_password_strength. cbn [errors].
  rewrite (Z.ltb_antisym (PASSWORD_MIN_LENGTH config)).
  destruct (PASSWORD_MIN_LENGTH config <=? Z.of_nat (length password))%Z,
    (any_char isupper password), (any_char islower password),
    (any_char isdigit password), (any_char is_special password);
    reflexivity.
Qed.

(** X2. Under a minimum length of at least 8, every password that
    [validate_password_strength] accepts is rated strong. *)
Theorem accepted_password_is_strong (config : Config) (password : str) :
  (8 <= PASSWORD_MIN_LENGTH config)%Z ->
  valid (validate_password_strength config password) = true ->
  strength (validate_password_strength config password) = u "strong".
Proof.
  intros Hmin Hvalid. rewrite valid_criteria in Hvalid.
  apply andb_true_iff in Hvalid as [Hvalid Hspecial].
  apply andb_true_iff in Hvalid as [Hvalid Hdigit].
  apply andb_true_iff in Hvalid as [Hvalid Hlower].
  apply andb_true_iff in Hvalid as [Hlen Hupper].
  apply Z.leb_le in Hlen.
  unfold validate_password_strength. cbn [strength].
  unfold _calculate_password_strength.
  rewrite Hupper, Hlower, Hdigit, Hspecial.
  replace (Nat.leb 8 (length password)) with true
    by (symmetry; apply Nat.leb_le; lia).
  destruct (Nat.leb 12 (length password)); reflexivity.
Qed.

End PasswordRules.

(** ** utils/auth.py: the decorator of the views *)

Section Decorator.
Context `{PyBuiltins}.
Import Models Auth Routes.

(** A sanitized string is short and holds no dangerous character. *)
Lemma sanitized_clean (s : str) :
  exists t, sanitize_input (VStr s) = VStr t
            /\ length t <= 1000
            /\ forall c, c ∈ dangerous_chars -> c ∉ t.
Proof.
  eexists. split; [apply sanitized_text|]. split.
  - rewrite length_take. lia.
  - intros c Hc Hin. apply elem_of_take in Hin as (i & Hin & _).
    apply list_elem_of_lookup_2 in Hin. apply list_elem_of_filter in Hin.
    destruct Hin as [Hnot _]. apply Hnot. exact Hc.
Qed.

(** The position that an element indexes depends on the length of the list
    alone, and only an [int] or a [bool] has one. *)
Lemma list_position_length (items items' : list value) (field : value) :
  length items = length items' ->
  list_position items field = list_position items' field.
Proof. intros Hlen. unfold list_position. rewrite Hlen. reflexivity. Qed.

Lemma list_position_not_str (items : list value) (s : str) (j : nat) :
  list_position items (VStr s) = Ok j -> False.
Proof. discriminate. Qed.

Lemma sanitize_at_step (items data data' : list value) (i : nat) :
  i < length items ->
  sanitized_up_to items data i ->
  sanitize_at data i = Ok data' ->
  sanitized_up_to items data' (S i).
Proof.
  intros Hi (Hlen & Hsame & Hdone). unfold sanitize_at.
  destruct (data !! i) as [field|] eqn:Efield.
  2:{ apply lookup_ge_None in Efield. lia. }
  destruct (list_position data field) as [j|e] eqn:Ej; [|discriminate].
  assert (forall k v, k < S i -> items !! k = Some v ->
                      exists j, list_position items v = Ok j) as Hdone'.
  { intros k v Hk Hv. destruct (decide (k = i)) as [->|Hne].
    - destruct (Hsame i) as [Heq | (s & s' & _ & Hd)].
      + rewrite Efield, Hv in Heq. injection Heq as ->.
        exists j. rewrite <- (list_position_length data) by exact Hlen.
        exact Ej.
      + rewrite Efield in Hd. injection Hd as ->. discriminate Ej.
    - apply (Hdone k v); [lia | exact Hv]. }
  destruct (data !! j) as [[| | | |s| |]|] eqn:Eat; intros [= <-];
    try (split; [exact Hlen | split; [exact Hsame | exact Hdone']]).
  split; [rewrite length_insert; exact Hlen|]. split; [|exact Hdone'].
  intros k. destruct (decide (k = j)) as [->|Hne].
  - right. rewrite list_lookup_insert_eq by (apply lookup_lt_Some in Eat; exact Eat).
    destruct (Hsame j) as [Heq | (s0 & s' & Hitem & _)].
    + rewrite Eat in Heq. eexists s, _. split; [symmetry; exact Heq|].
      reflexivity.
    + eexists s0, _. split; [exact Hitem|]. reflexivity.
  - rewrite list_lookup_insert_ne by congruence. apply Hsame.
Qed.

Lemma sanitize_loop (items : list value) (steps : nat) :
  forall (i : nat) (data data' : list value),
    i + steps = length items ->
    sanitized_up_to items data i ->
    foreach (seq i steps) sanitize_at data = Ok data' ->
    sanitized_up_to items data' (length items).
Proof.
  induction steps as [|steps IH]; intros i data data' Hsteps Hinv; cbn [seq foreach].
  - intros [= <-]. replace (length items) with i by lia. exact Hinv.
  - destruct (sanitize_at data i) as [data1|e] eqn:Estep; [|discriminate].
    apply IH; [lia|].
    apply (sanitize_at_step items data); [lia | exact Hinv | exact Estep].
Qed.

(** A list passes the sanitizing loop unchanged, and only when each of its
    elements indexes a position of the list. *)
Lemma sanitize_loop_passes (items items' : list value) :
  foreach (seq 0 (length items)) sanitize_at items = Ok items' ->
  items' = items
  /\ Forall (fun v => exists j, list_position items v = Ok j) items.
Proof.
  intros Hloop.
  destruct (sanitize_loop items (length items) 0 items items') as
    (Hlen & Hsame & Hdone); [reflexivity | | exact Hloop |].
  { split; [reflexivity|]. split; [intros k; left; reflexivity|].
    intros k v Hk. lia. }
  assert (Forall (fun v => exists j, list_position items v = Ok j) items)
    as Hall.
  { apply Forall_lookup. intros k v Hv.
    apply (Hdone k v); [apply lookup_lt_Some in Hv; exact Hv | exact Hv]. }
  split; [|exact Hall].
  apply list_eq. intros k.
  destruct (Hsame k) as [Heq | (s & s' & Hitem & _)]; [exact Heq|].
  exfalso. pose proof (proj1 (Forall_lookup _ _) Hall k _ Hitem) as [j Hj].
  discriminate Hj.
Qed.

(** X3. What the decorator hands to a view. The content type of the
    request is JSON, and its body is a non-empty object or, under a schema
    that requires no field, a non-empty list each of whose elements is an
    [int] or a [bool] that indexes a position of the list. For an object,
    [validated_data] has the keys of the body, its string values sanitized
    and the others unchanged; every required field is present, and every
    typed field that is present is a string of at most 1000 characters
    without <, >, quotes, & and NUL. A list is handed over unchanged. *)
Theorem validate_input_accepts (schema : Schema) (request : Request)
    (data : Body) :
  validate_input schema request = Ok (inr data) ->
  is_json request = true
  /\ ((exists body validated,
         json request = Some (BDict body) /\ body <> ∅
         /\ data = BDict validated
         /\ (forall field,
               validated !! field
               = (fun v => if is_str v then sanitize_input v else v)
                   <$> body !! field)
         /\ (forall field, field ∈ required schema ->
                           is_Some (validated !! field))
         /\ (forall field v,
               field ∈ types schema -> validated !! field = Some v ->
               exists s, v = VStr s /\ length s <= 1000
                         /\ forall c, c ∈ dangerous_chars -> c ∉ s))
      \/ (exists items,
            json request = Some (BList items) /\ items <> []
            /\ data = BList items
            /\ required schema = []
            /\ Forall (fun v => exists j, list_position items v = Ok j)
                      items)).
Proof.
  unfold validate_input.
  destruct (is_json request); cbn [negb]; [|discriminate].
  destruct (json request) as [parsed|]; [|discriminate].
  destruct (body_truthy parsed) eqn:Etruthy; cbn [negb]; [|discriminate].
  intros Hpass. split; [reflexivity|].
  destruct parsed as [body| | | | |s|items]; try discriminate Hpass.
  - left.
    destruct (existsb _ (required schema)) eqn:Erequired; [discriminate|].
    destruct (existsb _ (types schema)) eqn:Etypes; [discriminate|].
    injection Hpass as <-. eexists body, _.
    split; [reflexivity|]. split.
    { intros ->. cbn [body_truthy] in Etruthy.
      rewrite map_size_empty in Etruthy. discriminate. }
    split; [reflexivity|].
    split; [intros field; apply lookup_fmap|]. split.
    + intros field Hfield. rewrite lookup_fmap.
      assert (has_key body field = true) as Hkey.
      { destruct (has_key body field) eqn:Ek; [reflexivity|].
        assert (existsb (fun field => negb (has_key body field))
                        (required schema) = true) as Hex.
        { apply existsb_exists. exists field. split.
          - apply list_elem_of_In. exact Hfield.
          - rewrite Ek. reflexivity. }
        congruence. }
      unfold has_key in Hkey. destruct (body !! field); [|discriminate].
      eexists. reflexivity.
    + intros field v Hfield. rewrite lookup_fmap.
      destruct (body !! field) as [w|] eqn:Ew; [|discriminate].
      cbn. intros [= <-].
      assert (is_str w = true) as Hstr.
      { destruct (is_str w) eqn:Es; [reflexivity|].
        assert (existsb (fun field => match body !! field with
                                      | Some v => negb (is_str v)
                                      | None => false
                                      end) (types schema) = true) as Hex.
        { apply existsb_exists. exists field. split.
          - apply list_elem_of_In. exact Hfield.
          - rewrite Ew, Es. reflexivity. }
        congruence. }
      rewrite Hstr. destruct w; try discriminate.
      destruct (sanitized_clean s) as (t & -> & Hlen & Hclean).
      exists t. repeat split; assumption.
  - destruct (existsb _ (required schema)); discriminate.
  - right.
    destruct (existsb _ (required schema)) eqn:Erequired; [discriminate|].
    destruct (existsb (list_has items) (types schema)); [discriminate|].
    destruct (foreach _ sanitize_at items) as [items'|e] eqn:Eloop;
      [|discriminate].
    injection Hpass as <-.
    destruct (sanitize_loop_passes items items' Eloop) as [-> Hall].
    exists items. split; [reflexivity|]. split.
    { intros ->. discriminate Etruthy. }
    split; [reflexivity|]. split; [|exact Hall].
    destruct (required schema) as [|field fields]; [reflexivity|].
    exfalso. cbn [existsb] in Erequired.
    apply orb_false_iff in Erequired as [Hfield _].
    apply negb_false_iff in Hfield. unfold list_has in Hfield.
    apply existsb_exists in Hfield as (v & Hv & Hstr).
    destruct v; try discriminate Hstr.
    apply list_elem_of_In in Hv.
    apply (proj1 (Forall_forall _ _) Hall) in Hv as [j Hj].
    discriminate Hj.
Qed.
End Decorator.

(** ** routes/auth.py: the counters over a history of requests *)

Section Lockout.
Context `{PyBuiltins}.
Import Models Auth Routes Server.

(** What [login] does to the counter: the check prunes it, and an attempt is
    recorded on the two paths that answer 401. *)
Lemma login_attempts (config : Config) (env : Env) (data : Body)
    (client_ip : str) (st : State) :
  let identifier := u "login_" ++ client_ip in
  let checked := rate_limit_check config (auth_manager st) identifier None 15
                   (now env) in
  let answer := respond (login_handler config env data client_ip) st in
  (auth_manager (snd answer) = snd checked
   \/ auth_manager (snd answer)
      = record_attempt (snd checked) identifier (now env))
  /\ (fst answer = 401%Z ->
      auth_manager (snd answer)
      = record_attempt (snd checked) identifier (now env))
  /\ (allowed (fst checked) = false -> auth_manager (snd answer) = snd checked).
Proof.
  intros identifier checked answer. subst answer checked.
  unfold login_handler, respond, bind, call_rate_limit_check,
    call_record_attempt, try_except, commit, modify, reads, lift, ret.
  fold identifier.
  destruct (rate_limit_check config (auth_manager st) identifier None 15
              (now env)) as [r am].
  cbn [fst snd].
  destruct (allowed r); cbn [negb auth_manager set_auth_manager];
    [|repeat split; auto; discriminate].
  destruct (body_item data (u "username")) as [username|e];
    [|cbn; repeat split; auto; discriminate].
  cbn [users set_auth_manager].
  destruct (find _ (users st)) as [user|];
    [|cbn; repeat split; auto; discriminate].
  destruct (body_item data (u "password")) as [password|e];
    [|cbn; repeat split; auto; discriminate].
  destruct (truthy (u_password_hash user)).
  - destruct (verify_password password (fstr_hash (u_password_hash user)))
      as [[]|e]; cbn [negb];
      repeat (destruct (commit_raises env _));
      cbn; repeat split; auto; discriminate.
  - cbn [negb]. repeat (destruct (commit_raises env _));
      cbn; repeat split; auto; discriminate.
Qed.

(** What [register] does to the counter: refused, the check prunes it;
    allowed, the attempt is recorded before any other check. *)
Lemma register_attempts (config : Config) (env : Env) (data : Body)
    (client_ip : str) (st : State) :
  let identifier := u "register_" ++ client_ip in
  let checked := rate_limit_check config (auth_manager st) identifier
                   (Some 3%Z) 60 (now env) in
  let answer := respond (register_handler config env data client_ip) st in
  (fst answer = 429%Z <-> allowed (fst checked) = false)
  /\ auth_manager (snd answer)
     = if allowed (fst checked)
       then record_attempt (snd checked) identifier (now env)
       else snd checked.
Proof.
  intros identifier checked answer. subst answer checked.
  unfold register_handler, respond, bind, call_rate_limit_check,
    call_record_attempt, try_except, commit, modify, reads, lift, ret.
  fold identifier.
  destruct (rate_limit_check config (auth_manager st) identifier (Some 3%Z) 60
              (now env)) as [r am].
  cbn [fst snd].
  destruct (allowed r); cbn [negb auth_manager set_auth_manager];
    [|split; [split; reflexivity | reflexivity]].
  assert (forall P : Prop, (429%Z = 429%Z <-> true = false) -> P) as Hno
    by (intros P [Hc _]; specialize (Hc eq_refl); discriminate).
  destruct (body_item data (u "email")) as [email|e];
    [|cbn; split; [split; discriminate | reflexivity]].
  destruct (validate_email email); cbn [negb];
    [|cbn; split; [split; discriminate | reflexivity]].
  destruct (body_item data (u "password")) as [password|e];
    [|cbn; split; [split; discriminate | reflexivity]].
  destruct (valid (validate_password_strength config password)); cbn [negb];
    [|cbn; split; [split; discriminate | reflexivity]].
  destruct (body_item data (u "username")) as [username|e];
    [|cbn; split; [split; discriminate | reflexivity]].
  destruct (_ || _); [cbn; split; [split; discriminate | reflexivity]|].
  destruct (re_match _ username); cbn [negb];
    [|cbn; split; [split; discriminate | reflexivity]].
  cbn [users set_auth_manager].
  destruct (existsb _ (users st));
    [cbn; split; [split; discriminate | reflexivity]|].
  destruct (existsb _ (users st));
    [cbn; split; [split; discriminate | reflexivity]|].
  destruct (hash_password (random_bytes env) password) as [hashed|e];
    [|cbn; split; [split; discriminate | reflexivity]].
  destruct (body_get data (u "name") (VStr username)) as [name|e];
    [|cbn; split; [split; discriminate | reflexivity]].
  repeat (destruct (commit_raises env _));
    cbn; (split; [split; discriminate | reflexivity]).
Qed.

Lemma handle_all_from (views : list (SE State Z)) (codes : list Z) (st : State) :
  fold_left (fun '(codes, st) view =>
               let '(code, st') := respond view st in (codes ++ [code], st'))
            views (codes, st)
  = (codes ++ fst (handle_all views st), snd (handle_all views st)).
Proof.
  unfold handle_all. revert codes st.
  induction views as [|view views IH]; intros codes st; cbn [fold_left].
  - rewrite app_nil_r. reflexivity.
  - destruct (respond view st) as [code st'].
    rewrite (IH (codes ++ [code])), (IH ([] ++ [code])).
    cbn [fst snd app]. rewrite <- app_assoc. reflexivity.
Qed.

Lemma handle_all_cons (view : SE State Z) (views : list (SE State Z))
    (st : State) :
  handle_all (view :: views) st
  = (fst (respond view st) :: fst (handle_all views (snd (respond view st))),
     snd (handle_all views (snd (respond view st)))).
Proof.
  unfold handle_all at 1. cbn [fold_left].
  destruct (respond view st) as [code st']. rewrite handle_all_from.
  reflexivity.
Qed.

(** A check made no later than [finish] keeps every attempt of the window
    that ends at [finish]. *)
Lemma attempts_within_check (config : Config) (self : AuthManager)
    (identifier : str) (max_attempts : option Z) (window_minutes t finish : Z) :
  (t <= finish)%Z ->
  attempts_within (snd (rate_limit_check config self identifier max_attempts
                          window_minutes t))
                  identifier window_minutes finish
  = attempts_within self identifier window_minutes finish.
Proof.
  intros Ht. unfold attempts_within.
  destruct (rate_limit_check_state config self identifier max_attempts
              window_minutes t) as [-> _].
  rewrite filter_filter_implied; [reflexivity|].
  intros x Hx. apply Z.ltb_lt in Hx. apply Z.ltb_lt. lia.
Qed.

Lemma attempts_within_record (self : AuthManager) (identifier : str)
    (window_minutes t finish : Z) :
  (finish - timedelta_minutes window_minutes < t)%Z ->
  attempts_within (record_attempt self identifier t) identifier
                  window_minutes finish
  = (attempts_within self identifier window_minutes finish + 1)%Z.
Proof.
  intros Ht. unfold attempts_within.
  destruct (record_attempt_recorded self identifier t) as [-> _].
  rewrite List.filter_app, length_app. cbn [List.filter].
  rewrite (proj2 (Z.ltb_lt _ _) Ht). cbn [length]. lia.
Qed.

Lemma login_all_attempts (config : Config) (client_ip : str) (finish : Z)
    (requests : list (Env * gmap str value)) :
  forall st : State,
    Forall (fun request =>
              (finish - timedelta_minutes 15 < now (fst request) <= finish)%Z)
           requests ->
    let served :=
      handle_all (map (fun request =>
                         login config (fst request) (snd request) client_ip)
                      requests) st in
    (attempts_within (auth_manager st) (u "login_" ++ client_ip) 15 finish
     + Z.of_nat (length (List.filter (Z.eqb 401) (fst served)))
     <= attempts_within (auth_manager (snd served)) (u "login_" ++ client_ip)
                        15 finish)%Z.
Proof.
  induction requests as [|[env data] requests IH]; intros st Htimes served.
  - subst served. cbn. lia.
  - subst served. cbn [map]. rewrite handle_all_cons. cbn [fst snd].
    apply Forall_cons in Htimes as [Ht Htimes]. cbn [fst] in Ht.
    specialize (IH (snd (respond (login config env data client_ip) st)) Htimes).
    cbv zeta in IH.
    destruct (login_attempts config env (BDict data) client_ip st)
      as (Hstate & H401 & _). cbv zeta in Hstate, H401.
    fold (login config env data client_ip) in Hstate, H401.
    cbn [List.filter length].
    set (answer := respond (login config env data client_ip) st) in *.
    set (checked := rate_limit_check config (auth_manager st)
                      (u "login_" ++ client_ip) None 15 (now env)) in *.
    assert (attempts_within (auth_manager st) (u "login_" ++ client_ip) 15 finish
            + (if (401 =? fst answer)%Z then 1 else 0)
            <= attempts_within (auth_manager (snd answer))
                 (u "login_" ++ client_ip) 15 finish)%Z as Hstep.
    { destruct (401 =? fst answer)%Z eqn:Ecode.
      - apply Z.eqb_eq in Ecode. symmetry in Ecode.
        rewrite (H401 Ecode), attempts_within_record by lia.
        subst checked. rewrite attempts_within_check by lia. lia.
      - destruct Hstate as [-> | ->].
        + subst checked. rewrite attempts_within_check by lia. lia.
        + rewrite attempts_within_record by lia.
          subst checked. rewrite attempts_within_check by lia. lia. }
    destruct (401 =? fst answer)%Z; cbn [length] in *; lia.
Qed.

(** X4. Failed logins lock an address out: when the login requests of one
    address within the last 15 minutes include at least MAX_LOGIN_ATTEMPTS
    answers 401, the next login from that address answers 429, whatever
    credentials it carries and whatever the other requests answered. *)
Theorem login_lockout (config : Config) (client_ip : str)
    (requests : list (Env * gmap str value)) (env : Env)
    (data : gmap str value) (st : State) :
  Forall (fun request =>
            (now env - timedelta_minutes 15 < now (fst request) <= now env)%Z)
         requests ->
  let served :=
    handle_all (map (fun request =>
                       login config (fst request) (snd request) client_ip)
                    requests) st in
  (MAX_LOGIN_ATTEMPTS config
   <= Z.of_nat (length (List.filter (Z.eqb 401) (fst served))))%Z ->
  fst (respond (login config env data client_ip) (snd served)) = 429%Z.
Proof.
  intros Htimes served Hfailed.
  pose proof (login_all_attempts config client_ip (now env) requests st Htimes)
    as Hcount. cbv zeta in Hcount. fold served in Hcount.
  apply login_too_many.
  destruct (rate_limit_check_result config (auth_manager (snd served))
              (u "login_" ++ client_ip) None 15 (now env)) as (-> & _).
  cbn [default]. apply negb_false_iff, Z.leb_le.
  assert (0 <= attempts_within (auth_manager st) (u "login_" ++ client_ip) 15
                 (now env))%Z by (unfold attempts_within; lia).
  lia.
Qed.

(** The decorated view runs its handler on what the decorator hands over;
    when the decorator refuses or raises, nothing changes. *)
Lemma register_view_run (config : Config) (env : Env) (request : Request)
    (st : State) :
  match validate_input {| required := [u "username"; u "email"; u "password"];
                          types := [u "username"; u "email"; u "password"] |}
                       request with
  | Ok (inr data) =>
      respond (register_view config env request) st
      = respond (register_handler config env data (remote_addr request)) st
  | _ => snd (respond (register_view config env request) st) = st
  end.
Proof.
  unfold register_view.
  destruct (validate_input _ request) as [[code|data]|e]; reflexivity.
Qed.

Lemma register_all_attempts (config : Config) (client_ip : str) (finish : Z)
    (requests : list (Env * Request)) :
  let schema := {| required := [u "username"; u "email"; u "password"];
                   types := [u "username"; u "email"; u "password"] |} in
  forall st : State,
    Forall (fun request =>
              (finish - timedelta_minutes 60 < now (fst request) <= finish)%Z
              /\ remote_addr (snd request) = client_ip)
           requests ->
    let served :=
      handle_all (map (fun request =>
                         register_view config (fst request) (snd request))
                      requests) st in
    (attempts_within (auth_manager st) (u "register_" ++ client_ip) 60 finish
     + Z.of_nat (length (List.filter
                           (fun answered =>
                              accepts schema (snd (fst answered))
                              && negb (snd answered =? 429)%Z)
                           (zip requests (fst served))))
     <= attempts_within (auth_manager (snd served))
                        (u "register_" ++ client_ip) 60 finish)%Z.
Proof.
  intros schema.
  induction requests as [|[env request] requests IH]; intros st Htimes served.
  - subst served. cbn. lia.
  - subst served. cbn [map]. rewrite handle_all_cons. cbn [fst snd].
    apply Forall_cons in Htimes as [[Ht Hip] Htimes]. cbn [fst snd] in Ht, Hip.
    specialize (IH (snd (respond (register_view config env request) st))
                   Htimes).
    cbv zeta in IH.
    cbn [zip_with List.filter fst snd].
    pose proof (register_view_run config env request st) as Hrun.
    unfold accepts at 1. fold schema in Hrun.
    set (answer := respond (register_view config env request) st) in *.
    assert (attempts_within (auth_manager st) (u "register_" ++ client_ip) 60
                            finish
            + (if match validate_input schema request with
                  | Ok (inr _) => true
                  | _ => false
                  end && negb (fst answer =? 429)%Z then 1 else 0)
            <= attempts_within (auth_manager (snd answer))
                 (u "register_" ++ client_ip) 60 finish)%Z as Hstep.
    { destruct (validate_input schema request) as [[code|data]|e];
        cbn [andb]; try (rewrite Hrun; lia).
      rewrite Hrun, Hip.
      destruct (register_attempts config env data client_ip st)
        as (H429 & Hstate). cbv zeta in H429, Hstate.
      rewrite Hstate.
      set (checked := rate_limit_check config (auth_manager st)
                        (u "register_" ++ client_ip) (Some 3%Z) 60 (now env))
        in *.
      destruct (allowed (fst checked)) eqn:Eallowed.
      - rewrite attempts_within_record by lia.
        subst checked. rewrite attempts_within_check by lia.
        destruct (negb _); lia.
      - rewrite (proj2 H429 eq_refl). cbn [negb Z.eqb Pos.eqb].
        subst checked. rewrite attempts_within_check by lia. lia. }
    destruct (match validate_input schema request with
              | Ok (inr _) => true
              | _ => false
              end && negb (fst answer =? 429)%Z); cbn [length] in *; lia.
Qed.

(** X5. Registration attempts are counted whether they succeed or not: when
    at least three registration requests of one address within the last 60
    minutes got past the decorator and were not refused with 429, the next
    registration request from that address that gets past the decorator
    answers 429. A request that the decorator refuses is not counted. *)
Theorem register_limit (config : Config) (client_ip : str)
    (requests : list (Env * Request)) (env : Env) (request : Request)
    (st : State) :
  let schema := {| required := [u "username"; u "email"; u "password"];
                   types := [u "username"; u "email"; u "password"] |} in
  Forall (fun request =>
            (now env - timedelta_minutes 60 < now (fst request) <= now env)%Z
            /\ remote_addr (snd request) = client_ip)
         requests ->
  remote_addr request = client_ip ->
  accepts schema request = true ->
  let served :=
    handle_all (map (fun request =>
                       register_view config (fst request) (snd request))
                    requests) st in
  3 <= length (List.filter
                 (fun answered =>
                    accepts schema (snd (fst answered))
                    && negb (snd answered =? 429)%Z)
                 (zip requests (fst served))) ->
  fst (respond (register_view config env request) (snd served)) = 429%Z.
Proof.
  intros schema Htimes Hip Haccepts served Hcount.
  pose proof (register_all_attempts config client_ip (now env) requests st
                Htimes) as Hall. cbv zeta in Hall. fold schema served in Hall.
  pose proof (register_view_run config env request (snd served)) as Hrun.
  fold schema in Hrun. unfold accepts in Haccepts.
  destruct (validate_input schema request) as [[code|data]|e];
    try discriminate Haccepts.
  rewrite Hrun, Hip.
  apply register_attempts.
  destruct (rate_limit_check_result config (auth_manager (snd served))
              (u "register_" ++ client_ip) (Some 3%Z) 60 (now env))
    as (-> & _).
  change (default (MAX_LOGIN_ATTEMPTS config) (Some 3%Z)) with 3%Z.
  apply negb_false_iff, Z.leb_le.
  assert (0 <= attempts_within (auth_manager st) (u "register_" ++ client_ip)
                 60 (now env))%Z by (unfold attempts_within; lia).
  lia.
Qed.

(** X6. A login or a registration touches only the counter of its own
    identifier: what is recorded for every other identifier (another
    address, or the other endpoint) stays as it was. *)
Theorem rate_limit_isolation (config : Config) (env : Env)
    (data : gmap str value) (client_ip other_ip : str) (st : State) :
  let after_login :=
    auth_manager (snd (respond (login config env data client_ip) st)) in
  let after_register :=
    auth_manager (snd (respond (register config env data client_ip) st)) in
  (forall identifier, identifier <> u "login_" ++ client_ip ->
     recorded_attempts after_login identifier
     = recorded_attempts (auth_manager st) identifier)
  /\ (forall identifier, identifier <> u "register_" ++ client_ip ->
        recorded_attempts after_register identifier
        = recorded_attempts (auth_manager st) identifier).
Proof.
  intros after_login after_register. split.
  - intros identifier Hne. subst after_login.
    unfold login.
    destruct (login_attempts config env (BDict data) client_ip st)
      as ([-> | ->] & _).
    + apply rate_limit_check_state. exact Hne.
    + destruct (record_attempt_recorded
                  (snd (rate_limit_check config (auth_manager st)
                          (u "login_" ++ client_ip) None 15 (now env)))
                  (u "login_" ++ client_ip) (now env)) as [_ ->]; [|exact Hne].
      apply rate_limit_check_state. exact Hne.
  - intros identifier Hne. subst after_register.
    unfold register.
    destruct (register_attempts config env (BDict data) client_ip st)
      as (_ & ->).
    destruct (allowed _).
    + destruct (record_attempt_recorded
                  (snd (rate_limit_check config (auth_manager st)
                          (u "register_" ++ client_ip) (Some 3%Z) 60 (now env)))
                  (u "register_" ++ client_ip) (now env)) as [_ ->];
        [|exact Hne].
      apply rate_limit_check_state. exact Hne.
    + apply rate_limit_check_state. exact Hne.
Qed.
End Lockout.

(** ** routes/auth.py: the accounts *)

Section Accounts.
Context `{PyBuiltins}.
Import Models Auth Routes.

(** What [register] leaves in the [users] table: nothing new, or one row
    for a username and an email that no row had. *)
Lemma register_users (config : Config) (env : Env) (data : gmap str value)
    (client_ip : str) (st : State) :
  let answer := respond (register config env data client_ip) st in
  (users (snd answer) = users st /\ fst answer <> 201%Z)
  \/ exists username email password hashed_password,
       str_item data (u "username") = Ok username
       /\ str_item data (u "email") = Ok email
       /\ str_item data (u "password") = Ok password
       /\ hash_password (random_bytes env) password = Ok hashed_password
       /\ existsb (fun x => str_eqb (u_username x) username) (users st) = false
       /\ existsb (fun x => str_eqb (u_email x) email) (users st) = false
       /\ users (snd answer)
          = users st ++ [{| u_id := next_id (users st);
                            u_username := username;
                            u_email := email;
                            u_password_hash := PyStr hashed_password;
                            u_name := default (VStr username) (data !! u "name");
                            u_last_login := None |}].
Proof.
  intros answer. subst answer.
  unfold register, register_handler, body_item, body_get, respond, bind,
    call_rate_limit_check, call_record_attempt, try_except, commit, modify,
    reads, lift, ret.
  destruct (rate_limit_check config (auth_manager st) _ (Some 3%Z) 60
              (now env)) as [r am].
  cbn [fst snd].
  destruct (allowed r); cbn [negb auth_manager set_auth_manager];
    [|left; split; [reflexivity | discriminate]].
  destruct (str_item data (u "email")) as [email|e];
    [|left; split; [reflexivity | discriminate]].
  destruct (validate_email email); cbn [negb];
    [|left; split; [reflexivity | discriminate]].
  destruct (str_item data (u "password")) as [password|e];
    [|left; split; [reflexivity | discriminate]].
  destruct (valid (validate_password_strength config password)); cbn [negb];
    [|left; split; [reflexivity | discriminate]].
  destruct (str_item data (u "username")) as [username|e];
    [|left; split; [reflexivity | discriminate]].
  destruct (_ || _); [left; split; [reflexivity | discriminate]|].
  destruct (re_match _ username); cbn [negb];
    [|left; split; [reflexivity | discriminate]].
  cbn [users set_auth_manager].
  destruct (existsb (fun x => str_eqb (u_username x) username) (users st))
    eqn:Eusername; [left; split; [reflexivity | discriminate]|].
  destruct (existsb (fun x => str_eqb (u_email x) email) (users st))
    eqn:Eemail; [left; split; [reflexivity | discriminate]|].
  destruct (hash_password (random_bytes env) password) as [hashed|e] eqn:Ehash;
    [|left; split; [reflexivity | discriminate]].
  destruct (commit_raises env 0);
    [left; split; [reflexivity | discriminate]|].
  right. exists username, email, password, hashed.
  repeat (split; [first [reflexivity | assumption]|]).
  destruct (commit_raises env 1); reflexivity.
Qed.

Lemma existsb_false_not_in {A} (key : A -> str) (k : str) (rows : list A) :
  existsb (fun x => str_eqb (key x) k) rows = false -> k ∉ map key rows.
Proof.
  induction rows as [|x rows IH]; cbn [existsb map]; intros Hno.
  - apply not_elem_of_nil.
  - apply orb_false_iff in Hno as [Hx Hrows]. apply not_elem_of_cons. split.
    + unfold str_eqb in Hx. apply bool_decide_eq_false in Hx. congruence.
    + apply IH. exact Hrows.
Qed.

Lemma next_id_fresh (rows : list User) : next_id rows ∉ map u_id rows.
Proof.
  assert (forall x, x ∈ map u_id rows ->
                    (x <= fold_right Z.max 0 (map u_id rows))%Z) as Hmax.
  { induction rows as [|r rows IH]; cbn [map fold_right]; intros x Hx.
    - apply elem_of_nil in Hx. contradiction.
    - apply elem_of_cons in Hx as [-> | Hx]; [lia|].
      specialize (IH x Hx). lia. }
  intros Hin. apply Hmax in Hin. unfold next_id in Hin. lia.
Qed.

Lemma NoDup_snoc {A} (l : list A) (x : A) : NoDup l -> x ∉ l -> NoDup (l ++ [x]).
Proof.
  intros Hl Hx. apply NoDup_app. split; [exact Hl|]. split.
  - intros y Hy Hyx. apply list_elem_of_singleton in Hyx as ->. contradiction.
  - apply NoDup_singleton.
Qed.

(** X7. Registration keeps the accounts distinct: if no two rows of [users]
    share a username, an email or an id, the same holds after any
    registration request, whatever it answers. *)
Theorem register_keeps_accounts_distinct (config : Config) (env : Env)
    (data : gmap str value) (client_ip : str) (st : State) :
  NoDup (map u_username (users st)) ->
  NoDup (map u_email (users st)) ->
  NoDup (map u_id (users st)) ->
  let st' := snd (respond (register config env data client_ip) st) in
  NoDup (map u_username (users st'))
  /\ NoDup (map u_email (users st'))
  /\ NoDup (map u_id (users st')).
Proof.
  intros Husernames Hemails Hids st'. subst st'.
  destruct (register_users config env data client_ip st)
    as [[-> _] | (username & email & password & hashed & _ & _ & _ & _
                  & Husername & Hemail & ->)].
  - repeat split; assumption.
  - rewrite !map_app. cbn [map u_username u_email u_id].
    repeat split; apply NoDup_snoc; try assumption.
    + apply existsb_false_not_in. exact Husername.
    + apply existsb_false_not_in. exact Hemail.
    + apply next_id_fresh.
Qed.

(** What [hash_password] returns is accepted for the password. *)
Lemma verify_hashed (random_bytes : list Byte.byte)
    (password hashed_password : str) :
  hash_password random_bytes password = Ok hashed_password ->
  verify_password password hashed_password = Ok true
  /\ truthy (PyStr hashed_password) = true.
Proof.
  rewrite hash_password_run.
  destruct (existsb is_surrogate password) eqn:Hpw; [discriminate|].
  intros Hhashed.
  assert (hashed_password
          = token_hex random_bytes ++ u ":" ++
            hex (sha256 (flat_map utf8_bytes
                           (password ++ token_hex random_bytes)))) as ->
    by congruence.
  clear Hhashed. split.
  - unfold verify_password. rewrite salt_colon_digest_parts. cbn [unpack2].
    rewrite sha256_hexdigest_salted, Hpw.
    unfold str_eqb. rewrite bool_decide_eq_true_2 by reflexivity. reflexivity.
  - change (u ":") with [58%N].
    destruct (token_hex random_bytes); reflexivity.
Qed.

Lemma find_snoc {A} (p : A -> bool) (l : list A) (x : A) :
  existsb p l = false -> p x = true -> List.find p (l ++ [x]) = Some x.
Proof.
  induction l as [|y l IH]; cbn [existsb app List.find]; intros Hl Hx.
  - rewrite Hx. reflexivity.
  - apply orb_false_iff in Hl as [-> Hl]. apply IH; assumption.
Qed.

(** X8. Registering and then logging in: after a registration that answers
    201, a login with the same username and password answers 200, provided
    no earlier row has the username as its email, the address is not locked
    out and the two commits of the login do not raise. *)
Theorem register_then_login (config : Config) (env env' : Env)
    (extra data' : gmap str value) (username email password : str)
    (client_ip client_ip' : str) (st : State) :
  let registered :=
    respond (register config env (registration extra username email password)
               client_ip) st in
  fst registered = 201%Z ->
  existsb (fun x => str_eqb (u_email x) username) (users st) = false ->
  str_item data' (u "username") = Ok username ->
  str_item data' (u "password") = Ok password ->
  allowed (fst (rate_limit_check config (auth_manager (snd registered))
                  (u "login_" ++ client_ip') None 15 (now env'))) = true ->
  commit_raises env' 0 = false ->
  commit_raises env' 1 = false ->
  fst (respond (login config env' data' client_ip') (snd registered)) = 200%Z.
Proof.
  intros registered H201 Hnoemail Husername' Hpassword' Hallowed Hc0 Hc1.
  destruct (registration_items extra username email password)
    as (Hu & He & Hp).
  destruct (register_users config env
              (registration extra username email password) client_ip st)
    as [[_ Hno] | (username0 & email0 & password0 & hashed & Hu0 & He0 & Hp0
                   & Hhash & Hfresh & _ & Husers)];
    [contradiction|].
  rewrite Hu in Hu0. rewrite He in He0. rewrite Hp in Hp0.
  injection Hu0 as <-. injection He0 as <-. injection Hp0 as <-.
  fold registered in Husers.
  destruct (verify_hashed _ _ _ Hhash) as [Hverify Htruthy].
  unfold login, login_handler. cbn [body_item].
  destruct (rate_limit_check config (auth_manager (snd registered))
              (u "login_" ++ client_ip') None 15 (now env')) as [r am] eqn:Er.
  cbn [fst] in Hallowed.
  erewrite respond_bind.
  2:{ unfold call_rate_limit_check. rewrite Er. reflexivity. }
  rewrite Hallowed. cbn [negb].
  erewrite respond_bind by (unfold lift; rewrite Husername'; reflexivity).
  erewrite respond_bind by reflexivity.
  cbn [users set_auth_manager]. rewrite Husers.
  rewrite find_snoc.
  - erewrite respond_bind by (unfold lift; rewrite Hpassword'; reflexivity).
    cbn [u_password_hash]. rewrite Htruthy. cbn [fstr_hash].
    erewrite respond_bind by (unfold lift; rewrite Hverify; reflexivity).
    cbn [negb]. unfold respond, try_except, bind, commit, ret.
    rewrite Hc0, Hc1. reflexivity.
  - rewrite <- (orb_false_r false). rewrite <- Hfresh at 1.
    rewrite <- Hnoemail at 1. clear.
    induction (users st) as [|x l IH]; cbn [existsb]; [reflexivity|].
    rewrite IH. destruct (str_eqb (u_username x) username),
      (str_eqb (u_email x) username),
      (existsb (fun x => str_eqb (u_username x) username) l),
      (existsb (fun x => str_eqb (u_email x) username) l); reflexivity.
  - cbn [u_username]. unfold str_eqb.
    rewrite bool_decide_eq_true_2 by reflexivity. reflexivity.
Qed.
End Accounts.

(** ** routes/auth.py: worked cases *)

Section AuthCases.
Import Models Auth Routes Server Sample Cases.

Lemma accepted_password_is_strong_witness :
  strength (validate_password_strength app_config (u "S3cret!pw")) = u "strong".
Proof.
  apply accepted_password_is_strong; [vm_compute; discriminate|].
  vm_compute. reflexivity.
Defined.

Lemma validate_input_accepts_witness :
  (validate_input registration_schema registration_request
   = Ok (inr (BDict registration_validated))
   /\ exists body, json registration_request = Some (BDict body) /\ body <> ∅)
  /\ (validate_input update_profile_schema list_request
      = Ok (inr (BList [VInt 0]))
      /\ Forall (fun v => exists j, list_position [VInt 0] v = Ok j) [VInt 0]).
Proof.
  split; (split; [vm_compute; reflexivity|]).
  - destruct (validate_input_accepts registration_schema registration_request
                (BDict registration_validated))
      as (_ & [(body & validated & Hbody & Hne & _)
              | (items & Hitems & _)]);
      [vm_compute; reflexivity | |].
    + exists body. split; assumption.
    + vm_compute in Hitems. discriminate Hitems.
  - destruct (validate_input_accepts update_profile_schema list_request
                (BList [VInt 0]))
      as (_ & [(body & validated & Hbody & _)
              | (items & Hitems & _ & Hdata & _ & Hall)]);
      [vm_compute; reflexivity | |].
    + vm_compute in Hbody. discriminate Hbody.
    + injection Hdata as <-. exact Hall.
Defined.


Lemma login_lockout_witness :
  fst (respond (login app_config (at_time (minutes 5))
                  (login_body (u "ana_1") (u "S3cret!pw")) client)
         (snd (handle_all
                 (map (fun request =>
                         login app_config (fst request) (snd request) client)
                      five_failed_logins)
                 started)))
  = 429%Z.
Proof.
  apply (login_lockout app_config client five_failed_logins
           (at_time (minutes 5))).
  - unfold five_failed_logins. cbn [map].
    repeat (apply Forall_cons; split; [vm_compute; split; [reflexivity|discriminate]|]).
    apply Forall_nil_2.
  - vm_compute. discriminate.
Defined.

Lemma register_limit_witness :
  let served :=
    handle_all (map (fun request =>
                       register_view app_config (fst request) (snd request))
                    four_registrations)
               started in
  fst served = [400; 400; 400; 201]%Z
  /\ fst (respond (register_view app_config (at_time (minutes 4))
                     (registration_of (u "eva_2") (u "eva@example.com")
                        (u "S3cret!pw")))
            (snd served))
     = 429%Z.
Proof.
  split; [vm_compute; reflexivity|].
  apply (register_limit app_config client four_registrations
           (at_time (minutes 4))).
  - unfold four_registrations.
    repeat (apply Forall_cons; split;
            [split; [vm_compute; split; [reflexivity|discriminate]
                    | reflexivity]|]).
    apply Forall_nil_2.
  - reflexivity.
  - vm_compute. reflexivity.
  - vm_compute. repeat constructor.
Defined.

Lemma register_keeps_accounts_distinct_witness :
  let st' :=
    snd (respond (register app_config (at_time (minutes 2))
                    (registration ∅ (u "iker_3") (u "iker@example.com")
                       (u "S3cret!pw")) client) two_accounts) in
  map u_id (users two_accounts) = [1; 2]%Z
  /\ map u_id (users st') = [1; 2; 3]%Z
  /\ NoDup (map u_username (users st'))
  /\ NoDup (map u_email (users st'))
  /\ NoDup (map u_id (users st')).
Proof.
  split; [vm_compute; reflexivity|]. split; [vm_compute; reflexivity|].
  apply register_keeps_accounts_distinct; vm_compute;
    (apply NoDup_cons; split;
     [rewrite not_elem_of_cons; split;
      [discriminate | apply not_elem_of_nil]|]);
    apply NoDup_singleton.
Defined.

Lemma register_then_login_witness :
  fst (respond (login app_config (at_time (minutes 1))
                  (login_body (u "ana_1") (u "S3cret!pw")) client)
         (snd (respond (register app_config (at_time 0)
                          (registration ∅ (u "ana_1") (u "ana@example.com")
                             (u "S3cret!pw")) client) started)))
  = 200%Z.
Proof.
  apply (register_then_login app_config (at_time 0) (at_time (minutes 1)) ∅);
    vm_compute; reflexivity.
Defined.

End AuthCases.

(** ** utils/ai_engine.py: records that hold text *)

Section EngineText.
Context `{PyBuiltins}.
Import Models AIEngine Factors Connections.

(** The five conditional appends, from the empty list. *)
Lemma factors_by_label (i l c s v : Q) :
  let factors :=
    snd (add_factor (u "Nivel profesional similar") (1#10) v
          (add_factor (u "Presencia social similar") (15#100) s
             (add_factor (u "Empresa relacionada") (2#10) c
                (add_factor (u "Ubicación similar") (25#100) l
                   (add_factor (u "Industria similar") (3#10) i
                      (0%Q, [])))))) in
  any_factor_has (u "Industria") factors = Qlt_bool 0 i
  /\ any_factor_has (u "Ubicación") factors = Qlt_bool 0 l
  /\ any_factor_has (u "Empresa") factors = Qlt_bool 0 c
  /\ any_factor_has (u "social") factors = Qlt_bool 0 s
  /\ bool_decide (factors = [])
     = negb (Qlt_bool 0 i || Qlt_bool 0 l || Qlt_bool 0 c || Qlt_bool 0 s
             || Qlt_bool 0 v).
Proof.
  intros factors. subst factors. unfold add_factor. cbn [fst snd].
  destruct (Qlt_bool 0 i), (Qlt_bool 0 l), (Qlt_bool 0 c), (Qlt_bool 0 s),
    (Qlt_bool 0 v); cbn [app];
    repeat split; try (vm_compute; reflexivity);
    try (apply bool_decide_eq_false_2; discriminate);
    try (apply bool_decide_eq_true_2; reflexivity).
Qed.

(** A returned analysis, written from the five factor results. *)
Lemma analyze_by_factors o r :
  fst (analyze_contact_similarity o) = Ok r ->
  exists i l c s v,
    factor_results o = Some (i, l, c, s, v)
    /\ r = {| similarity_score := Qmin (weighted_sum i l c s v) 1;
              factors :=
                snd (add_factor (u "Nivel profesional similar") (1#10) v
                      (add_factor (u "Presencia social similar") (15#100) s
                         (add_factor (u "Empresa relacionada") (2#10) c
                            (add_factor (u "Ubicación similar") (25#100) l
                               (add_factor (u "Industria similar") (3#10) i
                                  (0%Q, []))))));
              recommendation_strength :=
                _get_recommendation_strength (weighted_sum i l c s v) |}.
Proof.
  rewrite analyze_run. unfold factor_results.
  destruct (fst (_calculate_industry_similarity o)) as [i|]; [|discriminate].
  destruct (fst (_calculate_location_similarity o)) as [l|]; [|discriminate].
  destruct (fst (_calculate_company_similarity o)) as [c|]; [|discriminate].
  destruct (fst (_calculate_social_similarity o)) as [s|]; [|discriminate].
  destruct (fst (_calculate_professional_level_similarity o)) as [v|];
    [|discriminate].
  intros [= <-]. exists i, l, c, s, v. split; reflexivity.
Qed.

(** X9. On two records whose four text entries are strings, and with
    weights that are not negative, [analyze_contact_similarity] returns:
    each of the five factors lies in [0, 1], the score is their weighted
    sum, it lies in [0, 1], and the recommendation strength is the one of
    the score. *)
Theorem analyze_contact_similarity_on_text (engine : AIEngine)
    (c1 c2 : ContactDict) :
  weights_nonneg (platform_weights engine) ->
  has_text_fields c1 = true ->
  has_text_fields c2 = true ->
  exists r i l c s v,
    call_analyze engine c1 c2 = Ok r
    /\ factor_results {| self := engine; contact1 := c1; contact2 := c2 |}
       = Some (i, l, c, s, v)
    /\ (0 <= i <= 1 /\ 0 <= l <= 1 /\ 0 <= c <= 1 /\ 0 <= s <= 1
        /\ 0 <= v <= 1)%Q
    /\ similarity_score r = weighted_sum i l c s v
    /\ (0 <= similarity_score r <= 1)%Q
    /\ recommendation_strength r
       = _get_recommendation_strength (similarity_score r).
Proof.
  intros Hw H1 H2.
  set (o := {| self := engine; contact1 := c1; contact2 := c2 |}).
  destruct (analyze_returns o) as [r Hr].
  { cbn. rewrite H1, H2. reflexivity. }
  destruct (analyze_by_factors o r Hr) as (i & l & c & s & v & Hf & Hrec).
  exists r, i, l, c, s, v.
  split; [exact Hr|]. split; [exact Hf|].
  unfold factor_results in Hf.
  destruct (fst (_calculate_industry_similarity o)) as [i'|] eqn:Hi;
    [|discriminate].
  destruct (fst (_calculate_location_similarity o)) as [l'|] eqn:Hl;
    [|discriminate].
  destruct (fst (_calculate_company_similarity o)) as [c'|] eqn:Hc;
    [|discriminate].
  destruct (fst (_calculate_social_similarity o)) as [s'|] eqn:Hs;
    [|discriminate].
  destruct (fst (_calculate_professional_level_similarity o)) as [v'|] eqn:Hv;
    [|discriminate].
  injection Hf as -> -> -> -> ->.
  apply industry_bounds in Hi. apply location_bounds in Hl.
  apply company_bounds in Hc. apply (social_bounds o s Hw) in Hs.
  apply level_bounds in Hv.
  assert (0 <= weighted_sum i l c s v <= 1)%Q as Hsum
    by (unfold weighted_sum; lra).
  split; [repeat split; lra|].
  rewrite Hrec. cbn [similarity_score recommendation_strength].
  rewrite Qmin_below by lra.
  split; [reflexivity|]. split; [exact Hsum | reflexivity].
Qed.

(** X10. [analyze_contact_similarity] returns when the four text entries
    of both records are strings, and raises [AttributeError] when one of
    them is [None]; it raises nothing else. *)
Theorem analyze_contact_similarity_raises_iff (engine : AIEngine)
    (c1 c2 : ContactDict) :
  if has_text_fields c1 && has_text_fields c2
  then exists r, call_analyze engine c1 c2 = Ok r
  else call_analyze engine c1 c2 = Raise AttributeError.
Proof.
  set (o := {| self := engine; contact1 := c1; contact2 := c2 |}).
  destruct (has_text_fields c1 && has_text_fields c2) eqn:Htext.
  - apply (analyze_returns o). exact Htext.
  - apply (analyze_raises o). exact Htext.
Qed.

(** X11. The connection type of a returned analysis follows the factor
    results: industry and location both positive, industry alone, location,
    company, social overlap, in this order of precedence, and
    ai_recommended when none of the four is positive (a positive level
    factor alone does not count). *)
Theorem connection_type_by_scores (engine : AIEngine) (c1 c2 : ContactDict)
    (r : Analysis) :
  call_analyze engine c1 c2 = Ok r ->
  exists i l c s v,
    factor_results {| self := engine; contact1 := c1; contact2 := c2 |}
    = Some (i, l, c, s, v)
    /\ determine_connection_type_from_analysis r
       = if Qlt_bool 0 i then
           if Qlt_bool 0 l then u "industry_location_match"
           else u "industry_match"
         else if Qlt_bool 0 l then u "location_match"
         else if Qlt_bool 0 c then u "company_match"
         else if Qlt_bool 0 s then u "social_match"
         else u "ai_recommended".
Proof.
  intros Hr.
  destruct (analyze_by_factors _ r Hr) as (i & l & c & s & v & Hf & ->).
  exists i, l, c, s, v. split; [exact Hf|].
  unfold determine_connection_type_from_analysis. cbn [factors].
  destruct (factors_by_label i l c s v) as (-> & -> & -> & -> & _).
  reflexivity.
Qed.

(** X12. The reasoning text of a returned analysis follows the factor
    results: the fixed sentence when no factor is positive; otherwise one
    sentence for each positive factor among industry, location, company and
    social overlap, in this order, then one closing sentence chosen by the
    score, joined by a full stop and a space and ended by a full stop. *)
Theorem reasoning_by_scores (engine : AIEngine) (c1 c2 : ContactDict)
    (r : Analysis) :
  call_analyze engine c1 c2 = Ok r ->
  exists i l c s v,
    factor_results {| self := engine; contact1 := c1; contact2 := c2 |}
    = Some (i, l, c, s, v)
    /\ generate_connection_reasoning c1 c2 r
       = if negb (Qlt_bool 0 i || Qlt_bool 0 l || Qlt_bool 0 c
                  || Qlt_bool 0 s || Qlt_bool 0 v)
         then u "Perfiles complementarios que podrían beneficiarse de una conexión profesional."
         else
           join (u ". ")
             ((if Qlt_bool 0 i
               then [u "Ambos profesionales trabajan en " ++ fstr (industry c1)]
               else [])
              ++ (if Qlt_bool 0 l
                  then [u "Se encuentran en la misma ubicación geográfica ("
                        ++ fstr (location c1) ++ u ")"]
                  else [])
              ++ (if Qlt_bool 0 c
                  then [u "Tienen conexiones empresariales relacionadas"]
                  else [])
              ++ (if Qlt_bool 0 s
                  then [u "Comparten presencia en plataformas sociales similares"]
                  else [])
              ++ [if Qle_bool (7#10) (similarity_score r)
                  then u "Esta conexión tiene un alto potencial de éxito y beneficio mutuo"
                  else if Qle_bool (5#10) (similarity_score r)
                  then u "Existe una buena oportunidad de colaboración profesional"
                  else u "Podría ser una conexión valiosa para expandir la red profesional"])
           ++ u ".".
Proof.
  intros Hr.
  destruct (analyze_by_factors _ r Hr) as (i & l & c & s & v & Hf & ->).
  exists i, l, c, s, v. split; [exact Hf|].
  unfold generate_connection_reasoning. cbn [factors similarity_score].
  destruct (factors_by_label i l c s v) as (-> & -> & -> & -> & ->).
  destruct (Qlt_bool 0 i), (Qlt_bool 0 l), (Qlt_bool 0 c), (Qlt_bool 0 s),
    (Qlt_bool 0 v); cbn [negb orb app];
    try reflexivity;
    destruct (Qle_bool (7#10) _); try reflexivity;
    destruct (Qle_bool (5#10) _); reflexivity.
Qed.
End EngineText.

(** ** routes/connections.py: the rows that are stored *)

Section Suggestions.
Context `{PyBuiltins}.
Import Models AIEngine Analytics Connections.

(** The row that a pair asks for: it is for the user, pending, scored
    between 0.3 and 1, and for a pair that had no row. *)
Lemma suggestion_for_row (db : DB) (user_id : Z) (contact1 contact2 : Contact)
    (row : Connection) :
  row ∈ suggestion_for db user_id (contact1, contact2) ->
  conn_user_id row = user_id
  /\ conn_contact_id row = row_id contact1
  /\ suggested_contact_id row = row_id contact2
  /\ status row = u "pending"
  /\ (3#10 <= confidence_score row <= 1)%Q
  /\ existing_connection db user_id (row_id contact1) (row_id contact2) = None.
Proof.
  unfold suggestion_for.
  destruct (call_analyze ai_engine (to_dict contact1) (to_dict contact2))
    as [r|e] eqn:Hr; [|intros Hin; apply elem_of_nil in Hin; contradiction].
  destruct (Qle_bool (3#10) (similarity_score r)) eqn:Hscore; cbn [andb];
    [|intros Hin; apply elem_of_nil in Hin; contradiction].
  destruct (existing_connection db user_id (row_id contact1) (row_id contact2))
    as [existing|] eqn:Hexisting.
  - rewrite bool_decide_eq_true_2 by (eexists; reflexivity). cbn [negb].
    intros Hin. apply elem_of_nil in Hin. contradiction.
  - rewrite bool_decide_eq_false_2 by (intros [x Hx]; discriminate).
    cbn [negb]. intros Hin. apply list_elem_of_singleton in Hin as ->.
    cbn. repeat split; try reflexivity.
    + apply Qle_bool_iff. exact Hscore.
    + destruct (analyze_score_bounds
                  {| self := ai_engine; contact1 := to_dict contact1;
                     contact2 := to_dict contact2 |} r init_weights_nonneg Hr)
        as (i & l & c & s & v & _ & _ & Hle).
      exact Hle.
Qed.

Lemma in_pairs_in_order {A} (l : list A) (x y : A) :
  (x, y) ∈ pairs_in_order l -> x ∈ l /\ y ∈ l.
Proof.
  induction l as [|z l IH]; cbn [pairs_in_order]; intros Hin.
  - apply elem_of_nil in Hin. contradiction.
  - apply elem_of_app in Hin as [Hin | Hin].
    + apply list_elem_of_fmap in Hin as (w & [= -> ->] & Hw).
      split; [left | right; exact Hw].
    + destruct (IH Hin). split; right; assumption.
Qed.

(** X13. For a user with at least two contacts whose records hold text,
    [generate_connections] answers 200, leaves the contacts and the stored
    connections as they were, and appends the rows that the pairs ask for,
    in index order: each new row is for the user, pending, scored between
    0.3 and 1, joins two of the user's contacts and is for a pair that had
    no row; one [AIAnalysis] row counting them and one [ActivityLog] row are
    appended. *)
Theorem generate_connections_on_text (db : DB) (user_id : Z) :
  let mine := List.filter (fun c => (row_user_id c =? user_id)%Z) (contacts db) in
  user_id <> 0%Z ->
  2 <= length mine ->
  Forall (fun c => has_text_fields (to_dict c) = true) mine ->
  exists db' new analysis log,
    generate_connections (Some user_id) db = (Ok 200%Z, db')
    /\ contacts db' = contacts db
    /\ connections db' = connections db ++ new
    /\ new = flat_map (suggestion_for db user_id) (pairs_in_order mine)
    /\ Forall (fun row =>
                 conn_user_id row = user_id
                 /\ status row = u "pending"
                 /\ (3#10 <= confidence_score row <= 1)%Q
                 /\ (exists contact1 contact2,
                        contact1 ∈ mine /\ contact2 ∈ mine
                        /\ conn_contact_id row = row_id contact1
                        /\ suggested_contact_id row = row_id contact2)
                 /\ existing_connection db user_id (conn_contact_id row)
                      (suggested_contact_id row) = None) new
    /\ ai_analyses db' = ai_analyses db ++ [analysis]
    /\ an_suggestions_generated analysis = length new
    /\ Connections.activity_logs db' = Connections.activity_logs db ++ [log].
Proof.
  intros mine Hid Hlen Htext. unfold generate_connections. fold mine.
  rewrite (proj2 (Z.eqb_neq user_id 0) Hid).
  rewrite (proj2 (Nat.ltb_ge (length mine) 2) Hlen).
  rewrite (collect_suggestions_text db user_id mine Htext).
  do 4 eexists. split; [reflexivity|]. split; [reflexivity|].
  split; [reflexivity|]. split; [reflexivity|].
  split; [|split; [reflexivity|split; reflexivity]].
  apply Forall_forall. intros row Hrow.
  apply list_elem_of_In, in_flat_map in Hrow as ([contact1 contact2] & Hpair & Hrow).
  apply list_elem_of_In in Hpair. apply list_elem_of_In in Hrow.
  destruct (suggestion_for_row db user_id contact1 contact2 row Hrow)
    as (Hu & H1 & H2 & Hs & Hc & He).
  destruct (in_pairs_in_order mine contact1 contact2 Hpair) as [Hin1 Hin2].
  split; [exact Hu|]. split; [exact Hs|]. split; [exact Hc|]. split.
  - exists contact1, contact2. repeat split; assumption.
  - rewrite H1, H2. exact He.
Qed.

Lemma find_is_Some {A} (p : A -> bool) (l : list A) (x : A) :
  x ∈ l -> p x = true -> is_Some (List.find p l).
Proof.
  induction l as [|y l IH]; intros Hin Hp.
  - apply elem_of_nil in Hin. contradiction.
  - cbn [List.find]. destruct (p y) eqn:Hy; [eexists; reflexivity|].
    apply elem_of_cons in Hin as [-> | Hin]; [congruence|].
    apply IH; assumption.
Qed.

(** Once the rows of a round are stored, the same pair asks for nothing. *)
Lemma suggestion_for_stored (db db' : DB) (user_id : Z)
    (pairs : list (Contact * Contact)) (pair : Contact * Contact) :
  connections db'
  = connections db ++ flat_map (suggestion_for db user_id) pairs ->
  pair ∈ pairs ->
  suggestion_for db' user_id pair = [].
Proof.
  intros Hstored Hpair. destruct pair as [contact1 contact2].
  destruct (call_analyze ai_engine (to_dict contact1) (to_dict contact2))
    as [r|e] eqn:Hr; [|unfold suggestion_for; rewrite Hr; reflexivity].
  destruct (Qle_bool (3#10) (similarity_score r)) eqn:Hscore;
    [|unfold suggestion_for; rewrite Hr, Hscore; reflexivity].
  assert (is_Some (existing_connection db' user_id (row_id contact1)
                     (row_id contact2))) as Hsome.
  { unfold existing_connection at 1. rewrite Hstored.
    destruct (existing_connection db user_id (row_id contact1)
                (row_id contact2)) as [existing|] eqn:Hexisting.
    - unfold existing_connection in Hexisting.
      apply find_some in Hexisting as [Hin Hp].
      eapply find_is_Some; [|exact Hp].
      apply elem_of_app. left. apply list_elem_of_In. exact Hin.
    - assert (exists row, suggestion_for db user_id (contact1, contact2) = [row]
                          /\ conn_user_id row = user_id
                          /\ conn_contact_id row = row_id contact1
                          /\ suggested_contact_id row = row_id contact2)
        as (row & Hrow & Hu & H1 & H2).
      { unfold suggestion_for. rewrite Hr, Hscore, Hexisting.
        rewrite bool_decide_eq_false_2 by (intros [x Hx]; discriminate).
        eexists. split; [reflexivity|]. repeat split. }
      apply (find_is_Some _ _ row).
      + apply elem_of_app. right. apply list_elem_of_In, in_flat_map.
        exists (contact1, contact2).
        split; [apply list_elem_of_In; exact Hpair|].
        rewrite Hrow. left. reflexivity.
      + rewrite Hu, H1, H2, !Z.eqb_refl. reflexivity. }
  unfold suggestion_for. rewrite Hr, Hscore.
  rewrite bool_decide_eq_true_2 by exact Hsome. reflexivity.
Qed.

Lemma flat_map_nil {A B} (f : A -> list B) (l : list A) :
  (forall x, x ∈ l -> f x = []) -> flat_map f l = [].
Proof.
  induction l as [|x l IH]; intros Hall; [reflexivity|].
  cbn [flat_map]. rewrite (Hall x) by left.
  apply IH. intros y Hy. apply Hall. right. exact Hy.
Qed.

(** X14. Generating twice stores nothing twice: for such a user, a second
    call of [generate_connections] right after the first answers 200 and
    leaves the connections as the first call left them. *)
Theorem generate_connections_twice (db : DB) (user_id : Z) :
  let mine := List.filter (fun c => (row_user_id c =? user_id)%Z) (contacts db) in
  user_id <> 0%Z ->
  2 <= length mine ->
  Forall (fun c => has_text_fields (to_dict c) = true) mine ->
  exists db' db'',
    generate_connections (Some user_id) db = (Ok 200%Z, db')
    /\ generate_connections (Some user_id) db' = (Ok 200%Z, db'')
    /\ connections db'' = connections db'
    /\ contacts db'' = contacts db.
Proof.
  intros mine Hid Hlen Htext.
  destruct (generate_connections_text db user_id Hid Hlen Htext)
    as (db' & Hfirst & Hstored & Hcontacts).
  fold mine in Hstored.
  exists db'. unfold generate_connections at 2.
  rewrite Hcontacts. fold mine.
  rewrite (proj2 (Z.eqb_neq user_id 0) Hid).
  rewrite (proj2 (Nat.ltb_ge (length mine) 2) Hlen).
  rewrite (collect_suggestions_text db' user_id mine Htext).
  rewrite (flat_map_nil (suggestion_for db' user_id) (pairs_in_order mine))
    by (intros pair Hpair;
        exact (suggestion_for_stored db db' user_id _ pair Hstored Hpair)).
  eexists. split; [exact Hfirst|]. split; [reflexivity|].
  cbn [connections contacts]. rewrite app_nil_r. split; reflexivity.
Qed.
End Suggestions.

(** ** routes/analytics.py: the density and the order of the contacts *)

Section DensityOrder.
Import Models Analytics.

Lemma optstr_eqb_sym (a b : optstr) : optstr_eqb a b = optstr_eqb b a.
Proof.
  destruct a as [|s], b as [|t]; try reflexivity.
  cbn [optstr_eqb]. unfold str_eqb.
  destruct (decide (s = t)) as [->|Hne]; [reflexivity|].
  rewrite !bool_decide_eq_false_2; congruence.
Qed.

Lemma potential_connection_sym (contact1 contact2 : Contact) :
  potential_connection contact1 contact2 = potential_connection contact2 contact1.
Proof.
  unfold potential_connection, shares.
  rewrite (optstr_eqb_sym (row_industry contact1)),
    (optstr_eqb_sym (row_location contact1)),
    (optstr_eqb_sym (row_company contact1)).
  destruct (truthy (row_industry contact1)), (truthy (row_industry contact2)),
    (truthy (row_location contact1)), (truthy (row_location contact2)),
    (truthy (row_company contact1)), (truthy (row_company contact2));
    reflexivity.
Qed.

Lemma filter_length_perm {A} (p : A -> bool) (l l' : list A) :
  l ≡ₚ l' -> length (List.filter p l) = length (List.filter p l').
Proof.
  induction 1 as [|x l l' _ IH|x y l|l l' l'' _ IH1 _ IH2]; cbn [List.filter].
  - reflexivity.
  - destruct (p x); cbn [length]; rewrite IH; reflexivity.
  - destruct (p x), (p y); reflexivity.
  - congruence.
Qed.

Lemma count_after_perm (contacts contacts' : list Contact) :
  contacts ≡ₚ contacts' -> count_after contacts = count_after contacts'.
Proof.
  induction 1 as [|x l l' Hl IH|x y l|l l' l'' _ IH1 _ IH2];
    cbn [count_after].
  - reflexivity.
  - rewrite IH, (filter_length_perm _ l l' Hl). reflexivity.
  - cbn [List.filter]. rewrite (potential_connection_sym y x).
    destruct (potential_connection x y); cbn [length]; lia.
  - congruence.
Qed.

(** X15. The density does not depend on the order of the contacts: two
    lists with the same contacts in another order have the same density. *)
Theorem calculate_network_density_any_order (contacts contacts' : list Contact) :
  contacts ≡ₚ contacts' ->
  calculate_network_density contacts = calculate_network_density contacts'.
Proof.
  intros Hperm. unfold calculate_network_density.
  rewrite !count_connections_after, (count_after_perm _ _ Hperm),
    (Permutation_length Hperm).
  reflexivity.
Qed.

(** The contacts after the first are linked to it, or not, as the pairs of
    positions are. *)
Lemma filter_first_pairs (b : bool) (c : Contact) (rest : list Contact) :
  (forall i j c1 c2, i < j -> (c :: rest) !! i = Some c1 ->
                     (c :: rest) !! j = Some c2 ->
                     potential_connection c1 c2 = b) ->
  List.filter (potential_connection c) rest = if b then rest else [].
Proof.
  intros Hpairs.
  assert (forall d, d ∈ rest -> potential_connection c d = b) as Hc.
  { intros d Hd. apply list_elem_of_lookup_1 in Hd as [k Hk].
    apply (Hpairs 0 (S k)); [lia | reflexivity | exact Hk]. }
  clear Hpairs. induction rest as [|d rest IH]; [destruct b; reflexivity|].
  cbn [List.filter]. rewrite Hc by left.
  assert (List.filter (potential_connection c) rest
          = if b then rest else []) as Hrest
    by (apply IH; intros e He; apply Hc; right; exact He).
  rewrite Hrest. destruct b; reflexivity.
Qed.

Lemma count_after_all (contacts : list Contact) :
  (forall i j c d, i < j -> contacts !! i = Some c -> contacts !! j = Some d ->
                   potential_connection c d = true) ->
  2 * count_after contacts = length contacts * (length contacts - 1).
Proof.
  induction contacts as [|c rest IH]; intros Hall; cbn [count_after length].
  - reflexivity.
  - rewrite (filter_first_pairs true c rest Hall).
    assert (2 * count_after rest = length rest * (length rest - 1)) as Hrest.
    { apply IH. intros i j a b Hij Ha Hb.
      apply (Hall (S i) (S j)); [lia | exact Ha | exact Hb]. }
    destruct rest as [|d rest']; cbn [length] in *; nia.
Qed.

Lemma count_after_none (contacts : list Contact) :
  (forall i j c d, i < j -> contacts !! i = Some c -> contacts !! j = Some d ->
                   potential_connection c d = false) ->
  count_after contacts = 0.
Proof.
  induction contacts as [|c rest IH]; intros Hnone; cbn [count_after].
  - reflexivity.
  - rewrite (filter_first_pairs false c rest Hnone).
    apply IH. intros i j a b Hij Ha Hb.
    apply (Hnone (S i) (S j)); [lia | exact Ha | exact Hb].
Qed.

(** X16. For at least two contacts, the density is 1 when the contacts at
    every two different positions of the list share a non-empty industry,
    location or company, and 0 when the contacts at no two different
    positions do. *)
Theorem calculate_network_density_extremes (contacts : list Contact) :
  2 <= length contacts ->
  ((forall (i j : nat) c d,
       i < j -> contacts !! i = Some c -> contacts !! j = Some d ->
       potential_connection c d = true) ->
   (calculate_network_density contacts == 1)%Q)
  /\ ((forall (i j : nat) c d,
         i < j -> contacts !! i = Some c -> contacts !! j = Some d ->
         potential_connection c d = false) ->
      (calculate_network_density contacts == 0)%Q).
Proof.
  intros Hlen. unfold calculate_network_density.
  rewrite (proj2 (Nat.ltb_ge (length contacts) 2) Hlen).
  rewrite count_connections_after.
  set (n := length contacts) in *.
  assert (inject_Z (Z.of_nat n * (Z.of_nat n - 1)) == Qnat (n * (n - 1)))%Q
    as Hprod.
  { unfold Qnat. rewrite Nat2Z.inj_mul, Nat2Z.inj_sub by lia. reflexivity. }
  assert (0 < Qnat (n * (n - 1)))%Q as Hpos by (apply Qnat_pos; nia).
  assert (0 < inject_Z (Z.of_nat n * (Z.of_nat n - 1)) / 2)%Q as Htotal
    by (rewrite Hprod; apply Qlt_shift_div_l; lra).
  rewrite (proj2 (Qlt_bool_iff _ _) Htotal).
  split; intros Hpairs.
  - pose proof (count_after_all contacts Hpairs) as Hcount. fold n in Hcount.
    assert (Qnat (n * (n - 1)) == 2 * Qnat (count_after contacts))%Q as Hq.
    { rewrite <- Hcount. unfold Qnat. rewrite Nat2Z.inj_mul.
      unfold Qeq. simpl. lia. }
    rewrite Hprod, Hq. field.
    rewrite Hq in Hpos. lra.
  - rewrite (count_after_none contacts Hpairs).
    unfold Qnat. simpl. field. rewrite Hprod in *. lra.
Qed.
End DensityOrder.

(** ** utils/ai_engine.py, routes/connections.py, routes/analytics.py:
    worked cases *)

Section EngineWorkedCases.
Import Models AIEngine Factors Analytics Connections Sample EngineCases.

Lemma analyze_contact_similarity_on_text_witness :
  exists r, call_analyze __init__ contact_filled contact_eva = Ok r
            /\ (0 <= similarity_score r <= 1)%Q.
Proof.
  destruct (analyze_contact_similarity_on_text __init__ contact_filled
              contact_eva init_weights_nonneg eq_refl eq_refl)
    as (r & i & l & c & s & v & Hr & _ & _ & _ & Hscore & _).
  exists r. split; [exact Hr | exact Hscore].
Defined.

Lemma connection_type_by_scores_witness :
  exists i l c s v,
    factor_results {| self := __init__; contact1 := contact_filled;
                      contact2 := contact_eva |} = Some (i, l, c, s, v)
    /\ determine_connection_type_from_analysis analysis_luis_eva
       = if Qlt_bool 0 i then
           if Qlt_bool 0 l then u "industry_location_match"
           else u "industry_match"
         else if Qlt_bool 0 l then u "location_match"
         else if Qlt_bool 0 c then u "company_match"
         else if Qlt_bool 0 s then u "social_match"
         else u "ai_recommended".
Proof.
  apply (connection_type_by_scores __init__ contact_filled contact_eva).
  vm_compute. reflexivity.
Defined.

Lemma reasoning_by_scores_witness :
  exists i l c s v,
    factor_results {| self := __init__; contact1 := contact_filled;
                      contact2 := contact_eva |} = Some (i, l, c, s, v)
    /\ firstn 31 (generate_connection_reasoning contact_filled contact_eva
                    analysis_luis_eva)
       = u "Se encuentran en la misma ubica".
Proof.
  destruct (reasoning_by_scores __init__ contact_filled contact_eva
              analysis_luis_eva) as (i & l & c & s & v & Hf & _);
    [vm_compute; reflexivity|].
  exists i, l, c, s, v. split; [exact Hf|]. vm_compute. reflexivity.
Defined.

Lemma generate_connections_on_text_witness :
  exists db' new,
    generate_connections (Some 1%Z) db_three_contacts = (Ok 200%Z, db')
    /\ connections db' = new
    /\ length new = 1.
Proof.
  destruct (generate_connections_on_text db_three_contacts 1)
    as (db' & new & analysis & log & Hrun & _ & Hstored & Hnew & _).
  - discriminate.
  - vm_compute. repeat constructor.
  - vm_compute. repeat constructor.
  - exists db', new. split; [exact Hrun|]. split; [exact Hstored|].
    rewrite Hnew. vm_compute. reflexivity.
Defined.

Lemma generate_connections_twice_witness :
  exists db' db'',
    generate_connections (Some 1%Z) db_three_contacts = (Ok 200%Z, db')
    /\ generate_connections (Some 1%Z) db' = (Ok 200%Z, db'')
    /\ connections db'' = connections db'
    /\ contacts db'' = contacts db_three_contacts.
Proof.
  apply (generate_connections_twice db_three_contacts 1).
  - discriminate.
  - vm_compute. repeat constructor.
  - vm_compute. repeat constructor.
Defined.

Lemma calculate_network_density_any_order_witness :
  calculate_network_density [row_filled; row_eva; row_iker]
  = calculate_network_density [row_eva; row_filled; row_iker].
Proof.
  apply calculate_network_density_any_order. apply perm_swap.
Defined.

Lemma calculate_network_density_extremes_witness :
  (calculate_network_density [row_filled; row_marta; row_pau] == 1)%Q
  /\ (calculate_network_density [row_filled; row_eva; row_iker] == 0)%Q.
Proof.
  split.
  - apply (calculate_network_density_extremes [row_filled; row_marta; row_pau]).
    + cbn [length]. lia.
    + intros i j c d Hij Hi Hj.
      destruct i as [|[|[|i]]], j as [|[|[|j]]];
        cbn [lookup list_lookup] in Hi, Hj;
        try lia; try discriminate;
        injection Hi as <-; injection Hj as <-; vm_compute; reflexivity.
  - apply (calculate_network_density_extremes [row_filled; row_eva; row_iker]).
    + cbn [length]. lia.
    + intros i j c d Hij Hi Hj.
      destruct i as [|[|[|i]]], j as [|[|[|j]]];
        cbn [lookup list_lookup] in Hi, Hj;
        try lia; try discriminate;
        injection Hi as <-; injection Hj as <-; vm_compute; reflexivity.
Defined.

End EngineWorkedCases.

(** ** utils/ai_engine.py: the report on the health of a network *)

Section NetworkHealthFacts.
Context `{PyBuiltins}.
Import Models AIEngine Analytics Health.

(** One pair of records that hold text: the counter goes up by at most
    one. *)
Lemma count_pair_text (self : AIEngine) (contact1 contact2 : ContactDict)
    (high : nat) :
  has_text_fields contact1 = true -> has_text_fields contact2 = true ->
  exists k, count_pair self contact1 high contact2 = Ok (high + k) /\ k <= 1.
Proof.
  intros H1 H2. unfold count_pair.
  destruct (analyze_returns {| self := self; contact1 := contact1;
                               contact2 := contact2 |}) as [r Hr].
  { cbn. rewrite H1, H2. reflexivity. }
  unfold call_analyze. rewrite Hr.
  destruct (Qle_bool (5#10) (similarity_score r)).
  - exists 1. split; [f_equal; lia | lia].
  - exists 0. split; [f_equal; lia | lia].
Qed.

Lemma count_pair_none (self : AIEngine) (contact1 contact2 : ContactDict)
    (high : nat) :
  has_text_fields contact1 && has_text_fields contact2 = false ->
  count_pair self contact1 high contact2 = Raise AttributeError.
Proof.
  intros Hnone. unfold count_pair, call_analyze.
  rewrite (analyze_raises {| self := self; contact1 := contact1;
                             contact2 := contact2 |}) by exact Hnone.
  reflexivity.
Qed.

Lemma inner_loop_health_text (self : AIEngine) (contact1 : ContactDict)
    (rest : list ContactDict) :
  has_text_fields contact1 = true ->
  forallb has_text_fields rest = true ->
  forall high, exists k,
    foreach rest (count_pair self contact1) high = Ok (high + k)
    /\ k <= length rest.
Proof.
  intros H1. induction rest as [|c rest IH]; intros Hrest high.
  - exists 0. split; [cbn; f_equal; lia | cbn; lia].
  - cbn [forallb] in Hrest. apply andb_true_iff in Hrest as [Hc Hrest].
    destruct (count_pair_text self contact1 c high H1 Hc) as (k1 & Hk1 & Hle1).
    destruct (IH Hrest (high + k1)) as (k2 & Hk2 & Hle2).
    exists (k1 + k2). cbn [foreach length]. rewrite Hk1, Hk2.
    split; [f_equal; lia | lia].
Qed.

Lemma inner_loop_health_none (self : AIEngine) (contact1 : ContactDict)
    (rest : list ContactDict) :
  rest <> [] ->
  has_text_fields contact1 && forallb has_text_fields rest = false ->
  forall high,
    foreach rest (count_pair self contact1) high = Raise AttributeError.
Proof.
  intros Hne Hnone. destruct (has_text_fields contact1) eqn:H1.
  - cbn [andb] in Hnone. clear Hne.
    induction rest as [|c rest IH]; intros high; [discriminate|].
    cbn [forallb] in Hnone. cbn [foreach].
    destruct (has_text_fields c) eqn:Hc.
    + destruct (count_pair_text self contact1 c high H1 Hc) as (k & -> & _).
      apply IH. exact Hnone.
    + rewrite count_pair_none by (rewrite H1, Hc; reflexivity). reflexivity.
  - intros high. destruct rest as [|c rest]; [contradiction|].
    cbn [foreach]. rewrite count_pair_none by (rewrite H1; reflexivity).
    reflexivity.
Qed.

Lemma outer_loop_health_text (self : AIEngine)
    (before after : list ContactDict) (high : nat) :
  forallb has_text_fields after = true ->
  exists k,
    foreach (enumerate (length before) after)
      (fun high '(i, contact1) =>
         foreach (drop (i + 1) (before ++ after)) (count_pair self contact1)
                 high)
      high
    = Ok (high + k)
    /\ 2 * k <= length after * (length after - 1).
Proof.
  revert before high. induction after as [|c after IH]; intros before high Htext.
  - exists 0. split; [cbn; f_equal; lia | cbn; lia].
  - cbn [forallb] in Htext. apply andb_true_iff in Htext as [Hc Hafter].
    rewrite enumerate_cons. cbn [foreach].
    assert (before ++ c :: after = (before ++ [c]) ++ after) as Hsplit
      by (rewrite <- app_assoc; reflexivity).
    assert (length (before ++ [c]) = S (length before)) as Hlen
      by (rewrite length_app; cbn; lia).
    assert (drop (length before + 1) (before ++ c :: after) = after) as ->.
    { rewrite Hsplit, Nat.add_1_r, <- Hlen. apply drop_app_length. }
    destruct (inner_loop_health_text self c after Hc Hafter high)
      as (k1 & -> & Hle1).
    rewrite Hsplit, <- Hlen.
    destruct (IH (before ++ [c]) (high + k1) Hafter) as (k2 & -> & Hle2).
    exists (k1 + k2). split; [f_equal; lia|].
    cbn [length]. destruct after as [|d after']; cbn [length] in *; nia.
Qed.

(** The loops return when there are fewer than two records or every record
    holds text, and raise [AttributeError] otherwise. *)
Lemma count_high_potential_run (self : AIEngine) (contacts : list ContactDict) :
  if Nat.leb 2 (length contacts) && negb (forallb has_text_fields contacts)
  then count_high_potential self contacts = Raise AttributeError
  else exists high,
         count_high_potential self contacts = Ok high
         /\ 2 * high <= length contacts * (length contacts - 1).
Proof.
  unfold count_high_potential.
  destruct (forallb has_text_fields contacts) eqn:Htext.
  - rewrite andb_false_r.
    destruct (outer_loop_health_text self [] contacts 0 Htext) as (k & Hk & Hle).
    exists k. split; [exact Hk | exact Hle].
  - rewrite andb_true_r.
    destruct contacts as [|c [|d rest]]; cbn [length Nat.leb].
    + exists 0. split; [reflexivity | cbn; lia].
    + exists 0. split; [reflexivity | cbn; lia].
    + rewrite enumerate_cons. cbn [foreach].
      change (drop (0 + 1) (c :: d :: rest)) with (d :: rest).
      rewrite inner_loop_health_none; [reflexivity | discriminate | exact Htext].
Qed.

Lemma size_list_to_set_le (l : list str) :
  size (list_to_set l : gset str) <= length l.
Proof.
  induction l as [|x l IH]; cbn [list_to_set length].
  - rewrite size_empty. lia.
  - rewrite size_union_alt, size_singleton.
    assert (size ((list_to_set l : gset str) ∖ {[x]})
            <= size (list_to_set l : gset str))
      by (apply subseteq_size; intros y Hy;
          apply elem_of_difference in Hy; tauto).
    lia.
Qed.

Lemma truthy_values_length (key : ContactDict -> optstr)
    (contacts : list ContactDict) :
  length (truthy_values key contacts) <= length contacts.
Proof.
  unfold truthy_values. induction contacts as [|c contacts IH]; cbn; [lia|].
  destruct (text_of (key c)); cbn; lia.
Qed.

(** The recommendations: none for an empty list, which divides by zero;
    otherwise between one and five. *)
Lemma recommendations_run (contacts : list ContactDict) (diversity potential : Q) :
  match _generate_network_recommendations contacts diversity potential with
  | None => contacts = []
  | Some recommendations =>
      contacts <> [] /\ 1 <= length recommendations <= 5
  end.
Proof.
  unfold _generate_network_recommendations.
  destruct contacts as [|c contacts]; [reflexivity|].
  cbn [length Nat.eqb].
  split; [discriminate|].
  destruct (Nat.ltb _ 10), (Qlt_bool diversity _), (Qlt_bool potential _),
    (Nat.ltb (size _) 3), (Qlt_bool (_ / _) _);
    cbn [app]; split;
    repeat first [ rewrite bool_decide_eq_false_2 by discriminate
                 | rewrite bool_decide_eq_true_2 by reflexivity ];
    cbn [app length]; lia.
Qed.

(** X17. [_generate_network_recommendations] divides by zero exactly for
    an empty list. For any other list it returns one message for each of
    its five conditions that holds: fewer than 10 contacts, a diversity
    under 0.3, a potential under 0.2, fewer than 3 distinct locations,
    fewer than half of the contacts with a social profile. When none holds
    it returns the single message of a balanced network, which appears in
    no other result. *)
Theorem network_recommendations_spec (contacts : list ContactDict)
    (diversity potential : Q) :
  let few_contacts := Nat.ltb (length contacts) 10 in
  let low_diversity := Qlt_bool diversity (3#10) in
  let low_potential := Qlt_bool potential (2#10) in
  let few_locations :=
    Nat.ltb (size (list_to_set (truthy_values location contacts) : gset str))
            3 in
  let few_profiles :=
    Qlt_bool (Qnat (length (List.filter
                              (fun c => negb (bool_decide
                                                (social_profiles c = [])))
                              contacts))
              / Qnat (length contacts)) (5#10) in
  match _generate_network_recommendations contacts diversity potential with
  | None => contacts = []
  | Some recommendations =>
      contacts <> []
      /\ length recommendations
         = Nat.max 1 (Nat.b2n few_contacts + Nat.b2n low_diversity
                      + Nat.b2n low_potential + Nat.b2n few_locations
                      + Nat.b2n few_profiles)
      /\ if few_contacts || low_diversity || low_potential || few_locations
            || few_profiles
         then message_balanced ∉ recommendations
         else recommendations = [message_balanced]
  end.
Proof.
  intros few_contacts low_diversity low_potential few_locations few_profiles.
  subst few_contacts low_diversity low_potential few_locations few_profiles.
  unfold _generate_network_recommendations.
  destruct contacts as [|c contacts]; [reflexivity|].
  cbn [Nat.eqb length].
  split; [discriminate|].
  destruct (Nat.ltb _ 10), (Qlt_bool diversity _), (Qlt_bool potential _),
    (Nat.ltb (size _) 3), (Qlt_bool (_ / _) _);
    cbn [app orb Nat.b2n Nat.add Nat.max];
    repeat first [ rewrite bool_decide_eq_false_2 by discriminate
                 | rewrite bool_decide_eq_true_2 by reflexivity ];
    cbn [app length]; (split; [reflexivity|]);
    first [ reflexivity
          | intros Hin;
            repeat (apply elem_of_cons in Hin as [Hin|Hin];
                    [vm_compute in Hin; discriminate Hin|]);
            apply elem_of_nil in Hin; exact Hin ].
Qed.

(** X18. [analyze_network_health] raises [AttributeError] when there are
    at least two contacts and one of them has [None] in one of its four
    text entries, whatever the other entries are; for every other list,
    also an empty one or a single contact without text, it returns a
    dict and raises nothing. *)
Theorem analyze_network_health_errors (self : AIEngine)
    (contacts : list ContactDict) :
  if Nat.leb 2 (length contacts) && negb (forallb has_text_fields contacts)
  then analyze_network_health self contacts
       = inl (FromAnalysis AttributeError)
  else exists health, analyze_network_health self contacts = inr health.
Proof.
  unfold analyze_network_health.
  pose proof (count_high_potential_run self contacts) as Hloops.
  destruct contacts as [|c contacts].
  { rewrite bool_decide_eq_true_2 by reflexivity. cbn [length Nat.leb andb].
    eexists. reflexivity. }
  rewrite bool_decide_eq_false_2 by discriminate.
  destruct (Nat.leb 2 (length (c :: contacts))
            && negb (forallb has_text_fields (c :: contacts))).
  - rewrite Hloops. reflexivity.
  - destruct Hloops as (high & -> & _).
    match goal with
    | |- context [_generate_network_recommendations ?l ?d ?p] =>
        pose proof (recommendations_run l d p) as Hrecs;
        destruct (_generate_network_recommendations l d p)
    end.
    + eexists. reflexivity.
    + discriminate.
Qed.

(** X19. In a dict that [analyze_network_health] returns, the diversity
    index, the connection potential and the health score lie between 0 and
    1, the health score is 0.4 times the diversity plus 0.6 times the
    potential, there are between one and five recommendations, and the
    potential of a network of at most one contact is 0. *)
Theorem analyze_network_health_bounds (self : AIEngine)
    (contacts : list ContactDict) (health : NetworkHealth) :
  analyze_network_health self contacts = inr health ->
  (0 <= diversity_index health <= 1)%Q
  /\ (0 <= connection_potential health <= 1)%Q
  /\ (health_score health
      == diversity_index health * (4#10)
         + connection_potential health * (6#10))%Q
  /\ (0 <= health_score health <= 1)%Q
  /\ 1 <= length (recommendations health) <= 5
  /\ (length contacts <= 1 -> (connection_potential health == 0)%Q).
Proof.
  unfold analyze_network_health.
  destruct contacts as [|c contacts].
  { rewrite bool_decide_eq_true_2 by reflexivity. intros [= <-].
    cbn [diversity_index connection_potential health_score recommendations
         length].
    repeat split; try lra; try lia. }
  rewrite bool_decide_eq_false_2 by discriminate.
  set (all := c :: contacts).
  set (n := length all).
  assert (1 <= n) as Hn by (subst n all; cbn; lia).
  pose proof (count_high_potential_run self all) as Hloops.
  destruct (count_high_potential self all) as [high|e]; [|discriminate].
  assert (2 * high <= n * (n - 1)) as Hhigh.
  { destruct (Nat.leb 2 (length all) && negb (forallb has_text_fields all));
      [discriminate|].
    destruct Hloops as (high' & [= <-] & Hle). exact Hle. }
  clear Hloops.
  set (industries := size (list_to_set (truthy_values industry all) : gset str)).
  assert (industries <= n) as Hind.
  { subst industries n.
    pose proof (size_list_to_set_le (truthy_values industry all)).
    pose proof (truthy_values_length industry all). lia. }
  set (d := (Qnat industries / Qnat n)%Q).
  set (total := (inject_Z (Z.of_nat n * (Z.of_nat n - 1)) / 2)%Q).
  set (p := if Qlt_bool 0 total then (Qnat high / total)%Q else 0%Q).
  assert (0 <= d <= 1)%Q as Hd.
  { subst d. apply Qdiv_unit_interval.
    - apply (Qnat_le 0). lia.
    - apply Qnat_le. exact Hind.
    - apply Qnat_pos. lia. }
  assert (inject_Z (Z.of_nat n * (Z.of_nat n - 1)) == Qnat (n * (n - 1)))%Q
    as Hprod.
  { unfold Qnat. rewrite Nat2Z.inj_mul, Nat2Z.inj_sub by lia. reflexivity. }
  assert (0 <= p <= 1)%Q as Hp.
  { subst p. destruct (Qlt_bool 0 total) eqn:Htotal; [|lra].
    apply Qlt_bool_iff in Htotal.
    apply Qdiv_unit_interval; [apply (Qnat_le 0); lia | | exact Htotal].
    unfold total in *. rewrite Hprod in *.
    assert (Qnat (2 * high) <= Qnat (n * (n - 1)))%Q as H2
      by (apply Qnat_le; exact Hhigh).
    assert (Qnat (2 * high) == 2 * Qnat high)%Q as H3.
    { unfold Qnat. rewrite Nat2Z.inj_mul. unfold Qeq. simpl. lia. }
    apply Qle_shift_div_l; lra. }
  assert (n <= 1 -> (p == 0)%Q) as Hone.
  { intros Hle. assert (n = 1) as Hn1 by lia. subst p.
    destruct (Qlt_bool 0 total) eqn:Htotal; [|reflexivity].
    apply Qlt_bool_iff in Htotal. exfalso. unfold total in Htotal.
    rewrite Hn1 in Htotal. vm_compute in Htotal. discriminate. }
  pose proof (recommendations_run all d p) as Hrecs.
  destruct (_generate_network_recommendations all d p) as [recs|];
    [|discriminate].
  intros [= <-].
  cbn [diversity_index connection_potential health_score recommendations].
  fold all. fold n. fold industries. fold d. fold total. fold p.
  destruct Hrecs as [_ Hrecs].
  split; [exact Hd|]. split; [exact Hp|]. split; [reflexivity|].
  split; [lra|]. split; [exact Hrecs | exact Hone].
Qed.
End NetworkHealthFacts.

(** ** routes/analytics.py: the dicts that count *)

Section Tallies.
Import Models Health Metrics.

Lemma sum_values_from (d : list (str * nat)) (start : nat) :
  fold_left (fun total item => total + snd item) d start
  = start + sum_values d.
Proof.
  unfold sum_values. revert start.
  induction d as [|x d IH]; intros start; cbn [fold_left]; [lia|].
  rewrite (IH (start + snd x)), (IH (0 + snd x)). lia.
Qed.

Lemma sum_values_cons (x : str * nat) (d : list (str * nat)) :
  sum_values (x :: d) = snd x + sum_values d.
Proof. unfold sum_values at 1. cbn [fold_left]. apply sum_values_from. Qed.

Lemma bump_sum (k : str) (d : list (str * nat)) :
  sum_values (bump k d) = S (sum_values d).
Proof.
  induction d as [|[k' n] d IH]; cbn [bump]; [reflexivity|].
  destruct (str_eqb k' k); rewrite !sum_values_cons; cbn [snd]; lia.
Qed.

Lemma bump_keys (k : str) (d : list (str * nat)) :
  map fst (bump k d)
  = if bool_decide (k ∈ map fst d) then map fst d else map fst d ++ [k].
Proof.
  induction d as [|[k' n] d IH]; cbn [bump map fst].
  - rewrite bool_decide_eq_false_2 by apply not_elem_of_nil. reflexivity.
  - unfold str_eqb. destruct (decide (k' = k)) as [->|Hne].
    + rewrite bool_decide_eq_true_2 by reflexivity.
      rewrite bool_decide_eq_true_2 by left. reflexivity.
    + rewrite bool_decide_eq_false_2 by exact Hne. cbn [map fst]. rewrite IH.
      destruct (decide (k ∈ map fst d)) as [Hin|Hnot].
      * rewrite !bool_decide_eq_true_2; [reflexivity | right; exact Hin | exact Hin].
      * rewrite !bool_decide_eq_false_2; [reflexivity | | exact Hnot].
        intros Hin. apply elem_of_cons in Hin as [Heq|Hin]; congruence.
Qed.

Lemma bump_nodup (k : str) (d : list (str * nat)) :
  NoDup (map fst d) -> NoDup (map fst (bump k d)).
Proof.
  intros Hnodup. rewrite bump_keys.
  destruct (decide (k ∈ map fst d)) as [Hin|Hnot].
  - rewrite bool_decide_eq_true_2 by exact Hin. exact Hnodup.
  - rewrite bool_decide_eq_false_2 by exact Hnot.
    apply NoDup_app. split; [exact Hnodup|]. split.
    + intros x Hx Hx'. apply list_elem_of_singleton in Hx' as ->. contradiction.
    + apply NoDup_singleton.
Qed.

Lemma bump_positive (k : str) (d : list (str * nat)) :
  Forall (fun item => 1 <= snd item) d ->
  Forall (fun item => 1 <= snd item) (bump k d).
Proof.
  induction d as [|[k' n] d IH]; cbn [bump]; intros Hd.
  - apply Forall_cons. split; [cbn; lia | apply Forall_nil_2].
  - apply Forall_cons in Hd as [Hn Hd]. destruct (str_eqb k' k).
    + apply Forall_cons. split; [cbn in *; lia | exact Hd].
    + apply Forall_cons. split; [exact Hn | apply IH; exact Hd].
Qed.

Lemma str_eqb_same (k : str) : str_eqb k k = true.
Proof. apply bool_decide_eq_true_2. reflexivity. Qed.

Lemma str_eqb_other (k k' : str) : k <> k' -> str_eqb k k' = false.
Proof. intros Hne. apply bool_decide_eq_false_2. exact Hne. Qed.

Lemma bump_get (k k0 : str) (d : list (str * nat)) :
  get_count k0 (bump k d) = get_count k0 d + Nat.b2n (str_eqb k k0).
Proof.
  induction d as [|[k' n] d IH]; cbn [bump get_count].
  - destruct (str_eqb k k0); reflexivity.
  - destruct (decide (k' = k)) as [->|Hne].
    + rewrite str_eqb_same. cbn [get_count].
      destruct (str_eqb k k0); cbn [Nat.b2n]; lia.
    + rewrite (str_eqb_other k' k) by exact Hne. cbn [get_count].
      destruct (decide (k' = k0)) as [->|Hne0].
      * rewrite str_eqb_same, (str_eqb_other k k0) by congruence.
        cbn [Nat.b2n]. lia.
      * rewrite (str_eqb_other k' k0) by exact Hne0. exact IH.
Qed.

(** With distinct keys, the items are the keys with their counts. *)
Lemma item_get (d : list (str * nat)) (k : str) (n : nat) :
  NoDup (map fst d) -> (k, n) ∈ d -> get_count k d = n.
Proof.
  induction d as [|[k' n'] d IH]; cbn [map fst get_count]; intros Hnodup Hin.
  - apply elem_of_nil in Hin. contradiction.
  - apply NoDup_cons in Hnodup as [Hk' Hnodup].
    apply elem_of_cons in Hin as [[= -> ->]|Hin].
    + rewrite str_eqb_same. reflexivity.
    + rewrite str_eqb_other.
      * apply IH; assumption.
      * intros ->. apply Hk'. apply list_elem_of_fmap.
        exists (k, n). split; [reflexivity | exact Hin].
Qed.

Lemma get_item (d : list (str * nat)) (k : str) :
  0 < get_count k d -> (k, get_count k d) ∈ d.
Proof.
  induction d as [|[k' n'] d IH]; cbn [get_count]; intros Hpos; [lia|].
  destruct (decide (k' = k)) as [->|Hne].
  - rewrite str_eqb_same. left.
  - rewrite (str_eqb_other k' k) in * by exact Hne. right. apply IH. exact Hpos.
Qed.

(** The loop, from any dict. *)
Lemma tally_from (values : list optstr) (d : list (str * nat)) :
  let d' := fold_left (fun d v => match text_of v with
                                  | Some s => bump s d
                                  | None => d
                                  end) values d in
  (NoDup (map fst d) -> NoDup (map fst d'))
  /\ (Forall (fun item => 1 <= snd item) d ->
      Forall (fun item => 1 <= snd item) d')
  /\ (forall k, get_count k d'
                = get_count k d
                  + length (List.filter
                              (fun v => bool_decide (text_of v = Some k))
                              values))
  /\ sum_values d' = sum_values d + length (omap text_of values).
Proof.
  revert d. induction values as [|v values IH]; intros d d'; subst d';
    cbn [fold_left].
  - repeat split; try tauto; cbn; lia.
  - destruct (text_of v) as [s|] eqn:Hv.
    + destruct (IH (bump s d)) as (Hnodup & Hpos & Hget & Hsum).
      cbv zeta in *. split; [|split; [|split]].
      * intros Hd. apply Hnodup, bump_nodup, Hd.
      * intros Hd. apply Hpos, bump_positive, Hd.
      * intros k. rewrite Hget, bump_get. cbn [List.filter]. cbv beta. rewrite Hv.
        destruct (decide (s = k)) as [->|Hne].
        -- rewrite str_eqb_same, bool_decide_eq_true_2 by reflexivity.
           cbn [length Nat.b2n]. lia.
        -- rewrite (str_eqb_other s k) by exact Hne.
           rewrite (bool_decide_eq_false_2 (Some s = Some k)) by congruence.
           cbn [Nat.b2n]. lia.
      * rewrite Hsum, bump_sum. cbn [omap list_omap]. rewrite Hv.
        cbn [length]. lia.
    + destruct (IH d) as (Hnodup & Hpos & Hget & Hsum).
      cbv zeta in *. split; [|split; [|split]]; try assumption.
      * intros k. rewrite Hget. cbn [List.filter]. cbv beta. rewrite Hv.
        rewrite bool_decide_eq_false_2 by discriminate. reflexivity.
      * rewrite Hsum. cbn [omap list_omap]. rewrite Hv. reflexivity.
Qed.

(** What the counting loop returns: distinct keys, each with the number of
    entries that hold it, all positive, and as many in total as there are
    truthy entries. *)
Lemma tally_items (values : list optstr) :
  NoDup (map fst (tally values))
  /\ (forall k n,
        (k, n) ∈ tally values
        <-> n = length (List.filter (fun v => bool_decide (text_of v = Some k))
                                    values)
            /\ 1 <= n)
  /\ sum_values (tally values) = length (omap text_of values)
  /\ length (tally values) <= sum_values (tally values).
Proof.
  destruct (tally_from values []) as (Hnodup & Hpos & Hget & Hsum).
  cbv zeta in *. fold (tally values) in *.
  specialize (Hnodup (NoDup_nil_2)). specialize (Hpos (Forall_nil_2 _)).
  split; [exact Hnodup|]. split; [|split].
  - intros k n. split.
    + intros Hin. split.
      * rewrite <- (item_get _ _ _ Hnodup Hin), Hget. reflexivity.
      * rewrite Forall_forall in Hpos. exact (Hpos _ Hin).
    + intros [-> Hle]. specialize (Hget k). cbn [get_count] in Hget.
      rewrite Nat.add_0_l in Hget. rewrite <- Hget in *. apply get_item. lia.
  - rewrite Hsum. reflexivity.
  - clear -Hpos. induction Hpos as [|x d Hx _ IH]; [cbn; lia|].
    rewrite sum_values_cons. cbn [length]. lia.
Qed.
End Tallies.

(** ** routes/analytics.py: industries and locations *)

Section SortedCounts.
Import Models Health Metrics.

(** [y] does not come before [x]: its count is not larger. *)
Local Abbreviation by_count := (fun x y : str * nat => snd y <= snd x).

Lemma insert_by_count_perm (x : str * nat) (l : list (str * nat)) :
  insert_by_count x l ≡ₚ x :: l.
Proof.
  induction l as [|y l IH]; cbn [insert_by_count]; [reflexivity|].
  destruct (Nat.leb (snd y) (snd x)); [reflexivity|].
  rewrite IH. apply perm_swap.
Qed.

Lemma sorted_by_count_perm (l : list (str * nat)) : sorted_by_count l ≡ₚ l.
Proof.
  induction l as [|x l IH]; cbn [sorted_by_count fold_right]; [reflexivity|].
  rewrite insert_by_count_perm. apply perm_skip. exact IH.
Qed.

Lemma insert_by_count_sorted (x : str * nat) (l : list (str * nat)) :
  StronglySorted by_count l -> StronglySorted by_count (insert_by_count x l).
Proof.
  induction 1 as [|y l Hl IH Hy]; cbn [insert_by_count].
  - apply SSorted_cons; [apply SSorted_nil | apply Forall_nil_2].
  - destruct (Nat.leb (snd y) (snd x)) eqn:Hyx.
    + apply Nat.leb_le in Hyx. apply SSorted_cons.
      * apply SSorted_cons; assumption.
      * apply Forall_cons. split; [exact Hyx|].
        eapply Forall_impl; [exact Hy|]. cbn. intros z Hz. lia.
    + apply Nat.leb_gt in Hyx. apply SSorted_cons; [exact IH|].
      rewrite insert_by_count_perm. apply Forall_cons. split; [lia | exact Hy].
Qed.

Lemma sorted_by_count_sorted (l : list (str * nat)) :
  StronglySorted by_count (sorted_by_count l).
Proof.
  induction l as [|x l IH]; cbn [sorted_by_count fold_right].
  - apply SSorted_nil.
  - apply insert_by_count_sorted. exact IH.
Qed.

(** The first five items of the sorted list: at most five, in decreasing
    order of count, all items of the dict, and no item left out has a
    larger count than one that is kept. *)
Lemma top_five (items : list (str * nat)) :
  let top := take 5 (sorted_by_count items) in
  length top = Nat.min 5 (length items)
  /\ StronglySorted by_count top
  /\ (forall item, item ∈ top -> item ∈ items)
  /\ (forall kept other, kept ∈ top -> other ∈ items -> other ∉ top ->
                         snd other <= snd kept).
Proof.
  intros top. subst top.
  pose proof (sorted_by_count_sorted items) as Hsorted.
  pose proof (sorted_by_count_perm items) as Hperm.
  rewrite <- (take_drop 5 (sorted_by_count items)) in Hsorted, Hperm.
  split; [|split; [|split]].
  - rewrite length_take, <- (Permutation_length Hperm), length_app,
      length_take, length_drop. lia.
  - eapply StronglySorted_app_1_l. exact Hsorted.
  - intros item Hin. rewrite <- Hperm. apply elem_of_app. left. exact Hin.
  - intros kept other Hkept Hother Hnot.
    rewrite <- Hperm in Hother. apply elem_of_app in Hother as [Hin|Hin];
      [contradiction|].
    exact (StronglySorted_app_1_elem_of _ _ _ _ _ Hsorted Hkept Hin).
Qed.

Lemma NoDup_take {A} (n : nat) (l : list A) : NoDup l -> NoDup (take n l).
Proof.
  intros Hl. rewrite <- (take_drop n l) in Hl.
  apply NoDup_app in Hl. tauto.
Qed.

(** The report that the two functions build from the counts of [values]. *)
Lemma tally_report (values : list optstr) :
  let counted k :=
    length (List.filter (fun v => bool_decide (text_of v = Some k)) values) in
  let d := tally values in
  let top := take 5 (sorted_by_count d) in
  sum_values d = length (omap text_of values)
  /\ length d = size (list_to_set (omap text_of values) : gset str)
  /\ (0 <= (if Nat.ltb 0 (sum_values d)
            then Qnat (length d) / Qnat (sum_values d) else 0) <= 1)%Q
  /\ length top = Nat.min 5 (length d)
  /\ StronglySorted by_count top
  /\ NoDup (map fst top)
  /\ (forall k n, (k, n) ∈ top -> n = counted k /\ 1 <= n)
  /\ (forall kept k, kept ∈ top -> k ∉ map fst top ->
                     counted k <= snd kept).
Proof.
  intros counted d top.
  destruct (tally_items values) as (Hnodup & Hitems & Hsum & Hlen).
  fold d in Hnodup, Hitems, Hsum, Hlen.
  destruct (top_five d) as (Htop & Hsorted & Hin & Hdominates).
  fold top in Htop, Hsorted, Hin, Hdominates.
  assert (map fst (sorted_by_count d) ≡ₚ map fst d) as Hkeys
    by (apply Permutation_map, sorted_by_count_perm).
  split; [exact Hsum|]. split; [|split; [|split; [|split; [|split; [|split]]]]].
  - rewrite <- (length_map fst d), <- (size_list_to_set (C := gset str))
      by exact Hnodup.
    f_equal. apply set_eq. intros k.
    rewrite !elem_of_list_to_set, list_elem_of_fmap, list_elem_of_omap.
    split.
    + intros ([k' n] & -> & Hkn). apply Hitems in Hkn as [-> Hpos].
      cbn [fst] in *.
      destruct (List.filter _ values) as [|v rest] eqn:Hf; [cbn in Hpos; lia|].
      assert (In v (List.filter (fun v => bool_decide (text_of v = Some k'))
                                values)) as Hv by (rewrite Hf; left; reflexivity).
      apply filter_In in Hv as [Hv Hk]. apply bool_decide_eq_true in Hk.
      exists v. split; [apply list_elem_of_In; exact Hv | exact Hk].
    + intros (v & Hv & Hk).
      exists (k, counted k). split; [reflexivity|]. apply Hitems.
      split; [reflexivity|]. subst counted. cbv beta.
      apply list_elem_of_In in Hv.
      assert (In v (List.filter (fun v => bool_decide (text_of v = Some k))
                                values)) as Hfv
        by (apply filter_In; split;
            [exact Hv | apply bool_decide_eq_true_2; exact Hk]).
      destruct (List.filter _ values); [contradiction | cbn; lia].
  - destruct (Nat.ltb 0 (sum_values d)) eqn:Hpos; [|lra].
    apply Nat.ltb_lt in Hpos. apply Qdiv_unit_interval.
    + apply (Qnat_le 0). lia.
    + apply Qnat_le. exact Hlen.
    + apply Qnat_pos. exact Hpos.
  - exact Htop.
  - exact Hsorted.
  - subst top. rewrite <- firstn_map. apply NoDup_take.
    rewrite Hkeys. exact Hnodup.
  - intros k n Hkn. apply Hitems, Hin, Hkn.
  - intros kept k Hkept Hk.
    destruct (Nat.eq_dec (counted k) 0) as [->|Hpos]; [lia|].
    apply (Hdominates kept (k, counted k) Hkept).
    + apply Hitems. split; [reflexivity | lia].
    + intros Hin'. apply Hk. apply list_elem_of_fmap.
      exists (k, counted k). split; [reflexivity | exact Hin'].
Qed.

(** X20. [calculate_industry_diversity]: [total_industries] is the number
    of distinct non-empty industries, the score is that number over the
    number of contacts with an industry (0 when there is none) and lies
    between 0 and 1; [top_industries] holds five industries, or all when
    there are fewer, each once and with the number of contacts that have
    it, by decreasing count, and no industry left out has more contacts
    than one that is listed. *)
Theorem calculate_industry_diversity_spec (contacts : list Contact) :
  let industries := map row_industry contacts in
  let counted k :=
    length (List.filter (fun v => bool_decide (text_of v = Some k))
                        industries) in
  let with_industry := length (omap text_of industries) in
  let result := calculate_industry_diversity contacts in
  total_industries result
  = size (list_to_set (omap text_of industries) : gset str)
  /\ diversity_score result
     = (if Nat.ltb 0 with_industry
        then Qnat (total_industries result) / Qnat with_industry else 0)%Q
  /\ (0 <= diversity_score result <= 1)%Q
  /\ length (top_industries result) = Nat.min 5 (total_industries result)
  /\ StronglySorted by_count (top_industries result)
  /\ NoDup (map fst (top_industries result))
  /\ (forall k n, (k, n) ∈ top_industries result -> n = counted k /\ 1 <= n)
  /\ (forall kept k, kept ∈ top_industries result ->
                     k ∉ map fst (top_industries result) ->
                     counted k <= snd kept).
Proof.
  intros industries counted with_industry result.
  destruct (tally_report industries)
    as (Hsum & Hlen & Hscore & Htop & Hsorted & Hnodup & Hitems & Hrest).
  subst result with_industry. unfold calculate_industry_diversity.
  cbn [total_industries diversity_score top_industries].
  fold industries. rewrite <- Hsum.
  split; [exact Hlen|]. split; [rewrite Hlen; reflexivity|].
  split; [exact Hscore|]. split; [exact Htop|]. split; [exact Hsorted|].
  split; [exact Hnodup|]. split; [exact Hitems | exact Hrest].
Qed.

(** X21. [calculate_geographic_spread]: the same for locations.
    [total_locations] is the number of distinct non-empty locations, the
    score is that number over the number of contacts with a location (0
    when there is none) and lies between 0 and 1; [top_locations] holds
    five locations, or all when there are fewer, each once and with its
    number of contacts, by decreasing count, and no location left out has
    more contacts than one that is listed. *)
Theorem calculate_geographic_spread_spec (contacts : list Contact) :
  let locations := map row_location contacts in
  let counted k :=
    length (List.filter (fun v => bool_decide (text_of v = Some k))
                        locations) in
  let with_location := length (omap text_of locations) in
  let result := calculate_geographic_spread contacts in
  total_locations result
  = size (list_to_set (omap text_of locations) : gset str)
  /\ spread_score result
     = (if Nat.ltb 0 with_location
        then Qnat (total_locations result) / Qnat with_location else 0)%Q
  /\ (0 <= spread_score result <= 1)%Q
  /\ length (top_locations result) = Nat.min 5 (total_locations result)
  /\ StronglySorted by_count (top_locations result)
  /\ NoDup (map fst (top_locations result))
  /\ (forall k n, (k, n) ∈ top_locations result -> n = counted k /\ 1 <= n)
  /\ (forall kept k, kept ∈ top_locations result ->
                     k ∉ map fst (top_locations result) ->
                     counted k <= snd kept).
Proof.
  intros locations counted with_location result.
  destruct (tally_report locations)
    as (Hsum & Hlen & Hscore & Htop & Hsorted & Hnodup & Hitems & Hrest).
  subst result with_location. unfold calculate_geographic_spread.
  cbn [total_locations spread_score top_locations].
  fold locations. rewrite <- Hsum.
  split; [exact Hlen|]. split; [rewrite Hlen; reflexivity|].
  split; [exact Hscore|]. split; [exact Htop|]. split; [exact Hsorted|].
  split; [exact Hnodup|]. split; [exact Hitems | exact Hrest].
Qed.
End SortedCounts.

(** ** routes/analytics.py: the clusters of an industry *)

Section Opportunities.
Import Models Health Metrics.

(** The size of each group is the count that the counting loop keeps. *)
Lemma file_under_sizes (k : str) (c : Contact) (d : list (str * list Contact)) :
  map (fun item => (fst item, length (snd item))) (file_under k c d)
  = bump k (map (fun item => (fst item, length (snd item))) d).
Proof.
  induction d as [|[k' l] d IH]; cbn [file_under map bump fst snd length];
    [reflexivity|].
  destruct (str_eqb k' k); cbn [map fst snd].
  - rewrite length_app. cbn [length]. rewrite Nat.add_1_r. reflexivity.
  - rewrite IH. reflexivity.
Qed.

Lemma group_sizes_from (contacts : list Contact) (d : list (str * list Contact)) :
  map (fun item => (fst item, length (snd item)))
      (fold_left (fun by_industry contact =>
                    match text_of (row_industry contact) with
                    | Some industry => file_under industry contact by_industry
                    | None => by_industry
                    end) contacts d)
  = fold_left (fun d v => match text_of v with
                          | Some s => bump s d
                          | None => d
                          end) (map row_industry contacts)
              (map (fun item => (fst item, length (snd item))) d).
Proof.
  revert d. induction contacts as [|c contacts IH]; intros d;
    cbn [fold_left map]; [reflexivity|].
  rewrite IH. destruct (text_of (row_industry c)); [|reflexivity].
  rewrite file_under_sizes. reflexivity.
Qed.

Lemma group_sizes (contacts : list Contact) :
  map (fun item => (fst item, length (snd item))) (group_by_industry contacts)
  = tally (map row_industry contacts).
Proof. apply (group_sizes_from contacts []). Qed.

Lemma opportunities_of_sizes (groups : list (str * list Contact)) :
  map (fun op => (opportunity_industry op, contact_count op))
      (flat_map (fun '(industry, industry_contacts) =>
                   if Nat.leb 3 (length industry_contacts)
                   then [{| opportunity_type := u "industry_cluster";
                            opportunity_industry := industry;
                            contact_count := length industry_contacts;
                            potential_connections :=
                              (inject_Z (Z.of_nat (length industry_contacts)
                                         * (Z.of_nat (length industry_contacts)
                                            - 1)) / 2)%Q |}]
                   else [])
                groups)
  = List.filter (fun item => Nat.leb 3 (snd item))
                (map (fun item => (fst item, length (snd item))) groups).
Proof.
  induction groups as [|[k l] groups IH]; cbn [flat_map map List.filter fst snd];
    [reflexivity|].
  destruct (Nat.leb 3 (length l)); cbn [app map]; rewrite IH; reflexivity.
Qed.

(** X22. [identify_connection_opportunities] returns one
    [industry_cluster] entry for each industry that at least three
    contacts have, and none for any other: the industries of the entries
    are distinct, [contact_count] is the number of contacts with that
    industry and [potential_connections] is the number of pairs among
    them, count * (count - 1) / 2. *)
Theorem identify_connection_opportunities_spec (contacts : list Contact) :
  let industries := map row_industry contacts in
  let counted k :=
    length (List.filter (fun v => bool_decide (text_of v = Some k))
                        industries) in
  let opportunities := identify_connection_opportunities contacts in
  NoDup (map opportunity_industry opportunities)
  /\ Forall (fun op =>
               opportunity_type op = u "industry_cluster"
               /\ contact_count op = counted (opportunity_industry op)
               /\ 3 <= contact_count op
               /\ (2 * potential_connections op
                   == Qnat (contact_count op * (contact_count op - 1)))%Q)
            opportunities
  /\ (forall k, 3 <= counted k -> k ∈ map opportunity_industry opportunities).
Proof.
  intros industries counted opportunities.
  destruct (tally_items industries) as (Hnodup & Hitems & _ & _).
  pose proof (opportunities_of_sizes (group_by_industry contacts)) as Hops.
  rewrite group_sizes in Hops. fold industries in Hops.
  change (flat_map _ (group_by_industry contacts)) with opportunities in Hops.
  assert (forall op, op ∈ opportunities ->
            (opportunity_industry op, contact_count op) ∈ tally industries
            /\ 3 <= contact_count op) as Hin.
  { intros op Hop.
    assert ((opportunity_industry op, contact_count op)
            ∈ map (fun op => (opportunity_industry op, contact_count op))
                  opportunities) as Hpair
      by (apply list_elem_of_fmap; exists op; split; [reflexivity | exact Hop]).
    rewrite Hops in Hpair. apply list_elem_of_In, filter_In in Hpair as [Hi Hs].
    split; [apply list_elem_of_In; exact Hi | apply Nat.leb_le; exact Hs]. }
  split; [|split].
  - assert (map opportunity_industry opportunities
            = map fst (map (fun op => (opportunity_industry op, contact_count op))
                           opportunities)) as ->
      by (rewrite map_map; reflexivity).
    rewrite Hops. clear -Hnodup.
    induction (tally industries) as [|[k n] d IH]; [apply NoDup_nil_2|].
    cbn [map fst] in Hnodup. apply NoDup_cons in Hnodup as [Hk Hd].
    cbn [List.filter snd]. destruct (Nat.leb 3 n); [|apply IH; exact Hd].
    cbn [map fst]. apply NoDup_cons. split; [|apply IH; exact Hd].
    intros Hin. apply Hk. apply list_elem_of_fmap in Hin as ([k' n'] & -> & Hin).
    apply list_elem_of_In, filter_In in Hin as [Hin _].
    apply list_elem_of_fmap. exists (k', n').
    split; [reflexivity | apply list_elem_of_In; exact Hin].
  - apply Forall_forall. intros op Hop.
    destruct (Hin op Hop) as [Hitem Hthree].
    apply Hitems in Hitem as [Hcount _].
    assert (opportunity_type op = u "industry_cluster"
            /\ potential_connections op
               = (inject_Z (Z.of_nat (contact_count op)
                            * (Z.of_nat (contact_count op) - 1)) / 2)%Q)
      as [Htype Hpotential].
    { subst opportunities. unfold identify_connection_opportunities in Hop.
      apply list_elem_of_In, in_flat_map in Hop as ([k l] & _ & Hop).
      destruct (Nat.leb 3 (length l)); [|contradiction].
      destruct Hop as [<-|[]]. split; reflexivity. }
    split; [exact Htype|]. split; [exact Hcount|]. split; [exact Hthree|].
    rewrite Hpotential. unfold Qnat.
    replace (Z.of_nat (contact_count op * (contact_count op - 1)))
      with (Z.of_nat (contact_count op) * (Z.of_nat (contact_count op) - 1))%Z
      by (rewrite Nat2Z.inj_mul, Nat2Z.inj_sub by lia; reflexivity).
    generalize (inject_Z (Z.of_nat (contact_count op)
                          * (Z.of_nat (contact_count op) - 1))).
    intros x. field.
  - intros k Hk.
    assert ((k, counted k) ∈ List.filter (fun item => Nat.leb 3 (snd item))
                                         (tally industries)) as Hpair.
    { apply list_elem_of_In, filter_In. split.
      - apply list_elem_of_In, Hitems. split; [reflexivity | lia].
      - apply Nat.leb_le. exact Hk. }
    rewrite <- Hops in Hpair.
    apply list_elem_of_fmap in Hpair as (op & [= Hind _] & Hop).
    apply list_elem_of_fmap. exists op. split; [exact Hind | exact Hop].
Qed.
End Opportunities.

(** ** routes/analytics.py: the coverage of the platforms *)

Section Coverage.
Import Models Health Metrics.

Lemma increment_keys (platform : str) (d : list (str * nat)) :
  map fst (increment platform d) = map fst d.
Proof.
  unfold increment. rewrite map_map. apply map_ext.
  intros [k n]. cbn [fst snd]. destruct (str_eqb k platform); reflexivity.
Qed.

Lemma increment_get (platform k : str) (d : list (str * nat)) :
  get_count k (increment platform d)
  = get_count k d
    + Nat.b2n (str_eqb platform k && bool_decide (k ∈ map fst d)).
Proof.
  induction d as [|[k' n] d IH]; cbn [increment map get_count fst snd].
  - rewrite bool_decide_eq_false_2 by apply not_elem_of_nil.
    rewrite andb_false_r. reflexivity.
  - fold (increment platform d).
    destruct (decide (k' = k)) as [->|Hne].
    + rewrite (bool_decide_eq_true_2 (k ∈ k :: map fst d)) by left.
      rewrite andb_true_r.
      destruct (decide (k = platform)) as [->|Hp].
      * rewrite !str_eqb_same. cbn [Nat.b2n]. lia.
      * rewrite (str_eqb_other k platform), (str_eqb_other platform k)
          by congruence.
        rewrite str_eqb_same. cbn [Nat.b2n]. lia.
    + assert (bool_decide (k ∈ k' :: map fst d) = bool_decide (k ∈ map fst d))
        as ->.
      { apply bool_decide_ext. rewrite elem_of_cons. split; [|tauto].
        intros [Heq|Hin]; [congruence | exact Hin]. }
      rewrite (str_eqb_other k' k) by exact Hne. rewrite <- IH.
      destruct (str_eqb k' platform);
        rewrite (str_eqb_other k' k) by exact Hne; reflexivity.
Qed.

(** The increments for the platforms of one contact. *)
Lemma set_fold_increment (d : list (str * nat)) (platforms : gset str) :
  map fst (set_fold increment d platforms) = map fst d
  /\ forall k,
       get_count k (set_fold increment d platforms)
       = get_count k d
         + Nat.b2n (bool_decide (k ∈ platforms) && bool_decide (k ∈ map fst d)).
Proof.
  revert platforms.
  apply (set_fold_ind_L
           (fun acc (X : gset str) =>
              map fst acc = map fst d
              /\ forall k, get_count k acc
                           = get_count k d
                             + Nat.b2n (bool_decide (k ∈ X)
                                        && bool_decide (k ∈ map fst d)))
           increment d).
  - split; [reflexivity|]. intros k.
    rewrite bool_decide_eq_false_2 by apply not_elem_of_empty. cbn. lia.
  - intros p X acc Hp [Hkeys Hget]. split.
    + rewrite increment_keys. exact Hkeys.
    + intros k. rewrite increment_get, Hget, Hkeys.
      destruct (decide (p = k)) as [->|Hne].
      * rewrite str_eqb_same.
        rewrite (bool_decide_eq_false_2 (k ∈ X)) by exact Hp.
        rewrite (bool_decide_eq_true_2 (k ∈ {[k]} ∪ X))
          by (apply elem_of_union; left; apply elem_of_singleton; reflexivity).
        cbn [andb Nat.b2n]. lia.
      * rewrite (str_eqb_other p k) by exact Hne.
        assert (bool_decide (k ∈ {[p]} ∪ X) = bool_decide (k ∈ X)) as ->.
        { apply bool_decide_ext. rewrite elem_of_union, elem_of_singleton.
          split; [|tauto]. intros [Heq|Hin]; [congruence | exact Hin]. }
        cbn [andb Nat.b2n]. lia.
Qed.

(** The profiles of one contact on the platforms of the dict. *)
Lemma note_profiles (d : list (str * nat)) (profiles : list SocialProfile)
    (seen : gset str) (total : nat) :
  let known := List.filter (fun profile =>
                              bool_decide (sp_platform profile ∈ map fst d))
                           profiles in
  fold_left (note_profile d) profiles (seen, total)
  = (list_to_set (map sp_platform known) ∪ seen, total + length known).
Proof.
  revert seen total. induction profiles as [|profile profiles IH];
    intros seen total known; subst known; cbn [fold_left List.filter].
  - cbn [List.filter map length list_to_set]. f_equal; [symmetry; apply (left_id_L ∅ (∪)) | lia].
  - unfold note_profile at 2. cbn [fst snd].
    destruct (bool_decide (sp_platform profile ∈ map fst d)).
    + rewrite IH. cbn [map length list_to_set]. f_equal; [|lia].
      rewrite (assoc_L (∪)). f_equal. apply (comm_L (∪)).
    + apply IH.
Qed.

Lemma cover_contact_run (d : list (str * nat)) (total : nat) (contact : Contact) :
  let on k := existsb (fun profile => str_eqb (sp_platform profile) k)
                      (row_social_profiles contact) in
  let known := List.filter (fun profile =>
                              bool_decide (sp_platform profile ∈ map fst d))
                           (row_social_profiles contact) in
  map fst (fst (cover_contact (d, total) contact)) = map fst d
  /\ (forall k, k ∈ map fst d ->
        get_count k (fst (cover_contact (d, total) contact))
        = get_count k d + Nat.b2n (on k))
  /\ snd (cover_contact (d, total) contact) = total + length known.
Proof.
  intros on known. unfold cover_contact. cbn [fst snd].
  rewrite note_profiles. fold known. cbn [fst snd].
  destruct (set_fold_increment d (list_to_set (map sp_platform known) ∪ ∅))
    as [Hkeys Hget].
  split; [exact Hkeys|]. split; [|reflexivity].
  intros k Hk. rewrite Hget. rewrite (bool_decide_eq_true_2 _ Hk), andb_true_r.
  f_equal. f_equal. subst on known. cbv beta.
  apply eq_true_iff_eq. rewrite bool_decide_eq_true, existsb_exists.
  rewrite elem_of_union, elem_of_list_to_set, list_elem_of_fmap. split.
  - intros [(profile & -> & Hin)|Hempty];
      [|apply elem_of_empty in Hempty; contradiction].
    apply list_elem_of_In, filter_In in Hin as [Hin _].
    exists profile. split; [exact Hin | apply str_eqb_same].
  - intros (profile & Hin & Heq). left. exists profile.
    apply bool_decide_eq_true in Heq. split; [congruence|].
    apply list_elem_of_In, filter_In. split; [exact Hin|].
    apply bool_decide_eq_true_2. rewrite Heq. exact Hk.
Qed.

Lemma coverage_loop (contacts : list Contact) (d : list (str * nat))
    (total : nat) :
  let state := fold_left cover_contact contacts (d, total) in
  map fst (fst state) = map fst d
  /\ (forall k, k ∈ map fst d ->
        get_count k (fst state)
        = get_count k d
          + length (List.filter
                      (fun c => existsb (fun profile =>
                                           str_eqb (sp_platform profile) k)
                                        (row_social_profiles c))
                      contacts))
  /\ snd state
     = total
       + length (List.filter
                   (fun profile => bool_decide (sp_platform profile ∈ map fst d))
                   (flat_map row_social_profiles contacts)).
Proof.
  revert d total. induction contacts as [|c contacts IH]; intros d total state;
    subst state; cbn [fold_left].
  - cbn. repeat split; intros; lia.
  - destruct (cover_contact_run d total c) as (Hkeys & Hget & Htotal).
    cbv zeta in *.
    destruct (cover_contact (d, total) c) as [d1 total1]. cbn [fst snd] in *.
    destruct (IH d1 total1) as (Hkeys' & Hget' & Htotal'). cbv zeta in *.
    rewrite Hkeys in *. split; [exact Hkeys'|]. split.
    + intros k Hk. rewrite (Hget' k Hk), (Hget k Hk). cbn [List.filter].
      destruct (existsb _ (row_social_profiles c)); cbn [Nat.b2n length]; lia.
    + rewrite Htotal', Htotal. cbn [flat_map].
      rewrite List.filter_app, length_app. lia.
Qed.

(** A dict with distinct keys is the list of its keys with their counts. *)
Lemma items_by_key (d : list (str * nat)) :
  NoDup (map fst d) -> d = map (fun k => (k, get_count k d)) (map fst d).
Proof.
  induction d as [|[k n] d IH]; cbn [map fst]; intros Hnodup; [reflexivity|].
  apply NoDup_cons in Hnodup as [Hk Hd]. cbn [get_count].
  rewrite str_eqb_same. f_equal.
  rewrite (IH Hd) at 1. apply map_ext_in. intros k' Hk'.
  rewrite str_eqb_other; [reflexivity|].
  intros ->. apply Hk. apply list_elem_of_In. exact Hk'.
Qed.

Lemma percentage_range (count total : nat) :
  count <= total -> 0 < total ->
  (0 <= Qnat count / Qnat total * 100 <= 100)%Q.
Proof.
  intros Hle Htotal.
  assert (0 <= Qnat count / Qnat total <= 1)%Q as Hunit.
  { apply Qdiv_unit_interval.
    - apply (Qnat_le 0). lia.
    - apply Qnat_le. exact Hle.
    - apply Qnat_pos. exact Htotal. }
  revert Hunit. generalize (Qnat count / Qnat total)%Q. intros ratio Hunit.
  lra.
Qed.

Lemma social_media_coverage_run (contacts : list Contact) :
  let known := [u "tiktok"; u "instagram"; u "facebook"; u "linkedin"] in
  let on platform :=
    length (List.filter
              (fun c => existsb (fun profile =>
                                   str_eqb (sp_platform profile) platform)
                                (row_social_profiles c))
              contacts) in
  let result := calculate_social_media_coverage contacts in
  platform_counts result = map (fun platform => (platform, on platform)) known
  /\ coverage_percentages result
     = map (fun platform =>
              (platform,
               if Nat.ltb 0 (length contacts)
               then (Qnat (on platform) / Qnat (length contacts) * 100)%Q
               else 0%Q)) known
  /\ total_profiles result
     = length (List.filter
                 (fun profile => bool_decide (sp_platform profile ∈ known))
                 (flat_map row_social_profiles contacts)).
Proof.
  intros known on result. subst result.
  unfold calculate_social_media_coverage.
  set (start := [(u "tiktok", 0); (u "instagram", 0); (u "facebook", 0);
                 (u "linkedin", 0)]).
  assert (map fst start = known) as Hstart by reflexivity.
  assert (NoDup known) as Hnodup.
  { subst known. repeat (apply NoDup_cons; split;
      [rewrite ?not_elem_of_cons; repeat split;
       first [apply not_elem_of_nil | vm_compute; discriminate]|]).
    apply NoDup_nil_2. }
  destruct (coverage_loop contacts start 0) as (Hkeys & Hget & Htotal).
  cbv zeta in *. rewrite Hstart in *.
  destruct (fold_left cover_contact contacts (start, 0)) as [d total].
  cbn [fst snd platform_counts coverage_percentages total_profiles] in *.
  assert (d = map (fun platform => (platform, on platform)) known) as Hd.
  { rewrite (items_by_key d) by (rewrite Hkeys; exact Hnodup).
    rewrite Hkeys. apply map_ext_in. intros k Hk.
    rewrite Hget by (apply list_elem_of_In; exact Hk).
    f_equal.
    assert (get_count k start = 0) as ->; [|reflexivity].
    subst start. cbn [get_count].
    repeat (destruct (str_eqb _ k); [reflexivity|]). reflexivity. }
  split; [exact Hd|]. split; [rewrite Hd, map_map; reflexivity | exact Htotal].
Qed.

(** X23. [calculate_social_media_coverage] counts, for each of the four
    platforms of its dict and in the order of the dict, the contacts with
    at least one profile on the platform, however many profiles a contact
    has there; the percentage of a platform is that count over the number
    of contacts times 100, or 0 for no contact, and lies between 0 and
    100; [total_profiles] counts every profile on one of the four
    platforms, and profiles on other platforms count nowhere. *)
Theorem calculate_social_media_coverage_spec (contacts : list Contact) :
  let known := [u "tiktok"; u "instagram"; u "facebook"; u "linkedin"] in
  let on platform :=
    length (List.filter
              (fun c => existsb (fun profile =>
                                   str_eqb (sp_platform profile) platform)
                                (row_social_profiles c))
              contacts) in
  let result := calculate_social_media_coverage contacts in
  platform_counts result = map (fun platform => (platform, on platform)) known
  /\ coverage_percentages result
     = map (fun platform =>
              (platform,
               if Nat.ltb 0 (length contacts)
               then (Qnat (on platform) / Qnat (length contacts) * 100)%Q
               else 0%Q)) known
  /\ Forall (fun item => (0 <= snd item <= 100)%Q) (coverage_percentages result)
  /\ total_profiles result
     = length (List.filter
                 (fun profile => bool_decide (sp_platform profile ∈ known))
                 (flat_map row_social_profiles contacts))
  /\ (forall platform, on platform <= length contacts).
Proof.
  intros known on result.
  destruct (social_media_coverage_run contacts) as (Hcounts & Hpercent & Htotal).
  fold known on result in Hcounts, Hpercent, Htotal.
  assert (forall platform, on platform <= length contacts) as Hle
    by (intros platform; apply List.filter_length_le).
  split; [exact Hcounts|]. split; [exact Hpercent|].
  split; [|split; [exact Htotal | exact Hle]].
  rewrite Hpercent. apply Forall_forall. intros item Hitem.
  apply list_elem_of_fmap in Hitem as (platform & -> & _). cbn [snd].
  destruct (Nat.ltb 0 (length contacts)) eqn:Hn; [|lra].
  apply Nat.ltb_lt in Hn.
  apply percentage_range; [apply Hle | exact Hn].
Qed.
End Coverage.

(** ** routes/analytics.py: the recommendations of the analysis *)

Section Recommendations.
Import Models Health Metrics.

Lemma Qnat_ratio_below (a n p q : nat) :
  0 < n -> 0 < q ->
  Qlt_bool (Qnat a / Qnat n) (Qnat p / Qnat q) = Nat.ltb (a * q) (p * n).
Proof.
  intros Hn Hq. apply eq_true_iff_eq.
  rewrite Qlt_bool_iff, Nat.ltb_lt.
  assert (0 < Qnat n)%Q as Hn' by (apply Qnat_pos; exact Hn).
  assert (0 < Qnat q)%Q as Hq' by (apply Qnat_pos; exact Hq).
  assert (Qnat a / Qnat n < Qnat p / Qnat q
          <-> Qnat a * Qnat q < Qnat p * Qnat n)%Q as ->.
  { split; intros Hlt.
    - assert (Qnat a * Qnat q == Qnat a / Qnat n * (Qnat n * Qnat q))%Q as ->
        by (field; lra).
      assert (Qnat p * Qnat n == Qnat p / Qnat q * (Qnat n * Qnat q))%Q as ->
        by (field; lra).
      apply Qmult_lt_compat_r; [apply Qmult_lt_0_compat; assumption | exact Hlt].
    - apply Qlt_shift_div_r; [exact Hn'|].
      assert (Qnat p / Qnat q * Qnat n == Qnat p * Qnat n / Qnat q)%Q as ->
        by (field; lra).
      apply Qlt_shift_div_l; [exact Hq' | exact Hlt]. }
  unfold Qnat, Qlt. cbn. lia.
Qed.

Lemma score_below (unique total p q : nat) (bound : Q) :
  0 < q -> (bound == Qnat p / Qnat q)%Q ->
  Qlt_bool (if Nat.ltb 0 total then Qnat unique / Qnat total else 0)%Q bound
  = if Nat.ltb 0 total then Nat.ltb (unique * q) (p * total)
    else Nat.ltb 0 p.
Proof.
  intros Hq Hbound.
  assert (0 < Qnat q)%Q as Hq' by (apply Qnat_pos; exact Hq).
  destruct (Nat.ltb 0 total) eqn:Htotal.
  - apply Nat.ltb_lt in Htotal.
    rewrite <- (Qnat_ratio_below unique total p q Htotal Hq).
    apply eq_true_iff_eq. rewrite !Qlt_bool_iff, Hbound. reflexivity.
  - apply eq_true_iff_eq. rewrite Qlt_bool_iff, Nat.ltb_lt, Hbound.
    split; intros Hp.
    + destruct p; [|lia]. exfalso.
      assert (Qnat 0 / Qnat q == 0)%Q as Hzero
        by (change (Qnat 0) with 0%Q; field; lra).
      lra.
    + apply Qlt_shift_div_l; [exact Hq'|].
      assert (0 < Qnat p)%Q by (apply Qnat_pos; exact Hp). lra.
Qed.

Lemma percentage_below (count total : nat) :
  0 < total ->
  Qlt_bool (Qnat count / Qnat total * 100) 50 = Nat.ltb (2 * count) total.
Proof.
  intros Htotal.
  replace (2 * count) with (count * 2) by lia.
  replace total with (1 * total) at 2 by lia.
  rewrite <- (Qnat_ratio_below count total 1 2 Htotal) by lia.
  apply eq_true_iff_eq. rewrite !Qlt_bool_iff.
  assert (Qnat 1 / Qnat 2 == 1 # 2)%Q as -> by reflexivity.
  generalize (Qnat count / Qnat total)%Q. intros ratio.
  split; intros Hlt; lra.
Qed.

Lemma filter_by_value {A B : Type} (f : B -> bool) (g : A -> B) (l : list A) :
  map fst (List.filter (fun item => f (snd item)) (map (fun x => (x, g x)) l))
  = List.filter (fun x => f (g x)) l.
Proof.
  induction l as [|x l IH]; cbn [map List.filter]; [reflexivity|].
  cbn [snd]. destruct (f (g x)); cbn [map fst]; rewrite IH; reflexivity.
Qed.

(** X24. For a user with at least one contact, the recommendations of the
    route [analyze_network] come in a fixed order and each at most once:
    [diversify_industries] when no contact has an industry or the distinct
    industries are fewer than 0.3 per contact with an industry,
    [expand_geographically] likewise for locations and 0.2, and
    [improve_social_coverage] when on one of the four platforms fewer
    than half of the contacts have a profile; its message names exactly
    these platforms, in the order of the dict. *)
Theorem analyze_network_recommendations_spec (contacts : list Contact) :
  contacts <> [] ->
  let known := [u "tiktok"; u "instagram"; u "facebook"; u "linkedin"] in
  let total := length contacts in
  let industries := omap text_of (map row_industry contacts) in
  let locations := omap text_of (map row_location contacts) in
  let distinct (values : list str) := size (list_to_set values : gset str) in
  let on platform :=
    length (List.filter
              (fun c => existsb (fun profile =>
                                   str_eqb (sp_platform profile) platform)
                                (row_social_profiles c))
              contacts) in
  let low := List.filter (fun platform => Nat.ltb (2 * on platform) total)
                         known in
  let recommendations := analyze_network_recommendations contacts in
  map recommendation_type recommendations
  = (if Nat.eqb (length industries) 0
        || Nat.ltb (10 * distinct industries) (3 * length industries)
     then [u "diversify_industries"] else [])
    ++ (if Nat.eqb (length locations) 0
           || Nat.ltb (10 * distinct locations) (2 * length locations)
        then [u "expand_geographically"] else [])
    ++ (if bool_decide (low = []) then [] else [u "improve_social_coverage"])
  /\ (forall r, r ∈ recommendations ->
        recommendation_type r = u "improve_social_coverage" ->
        message r = u "Mejora la cobertura en: " ++ AIEngine.join (u ", ") low
                    ++ u " para maximizar tu alcance digital.").
Proof.
  intros Hcontacts known total industries locations distinct on low
         recommendations.
  assert (0 < total) as Htotal
    by (subst total; destruct contacts; [congruence | cbn; lia]).
  subst recommendations.
  unfold analyze_network_recommendations, generate_network_recommendations.
  destruct (tally_report (map row_industry contacts))
    as (Hsum1 & Hlen1 & _).
  destruct (tally_report (map row_location contacts))
    as (Hsum2 & Hlen2 & _).
  destruct (social_media_coverage_run contacts) as (_ & Hpercent & _).
  cbv zeta in Hsum1, Hlen1, Hsum2, Hlen2, Hpercent.
  unfold calculate_industry_diversity, calculate_geographic_spread.
  cbn [diversity_score spread_score].
  assert (map fst (List.filter
                     (fun item => Qlt_bool (snd item) 50)
                     (coverage_percentages
                        (calculate_social_media_coverage contacts)))
          = low) as Hlow.
  { rewrite Hpercent.
    rewrite (filter_by_value (fun percentage => Qlt_bool percentage 50)).
    subst low. apply filter_ext. intros platform. cbv beta.
    rewrite (proj2 (Nat.ltb_lt 0 (length contacts)) Htotal).
    apply percentage_below. exact Htotal. }
  rewrite Hlow, Hsum1, Hlen1, Hsum2, Hlen2.
  fold industries locations (distinct industries) (distinct locations).
  rewrite (score_below _ _ 3 10 (3 # 10)) by first [lia | reflexivity].
  rewrite (score_below _ _ 2 10 (2 # 10)) by first [lia | reflexivity].
  assert (forall p values,
            (if Nat.ltb 0 (length values)
             then Nat.ltb (distinct values * 10) (S p * length values)
             else Nat.ltb 0 (S p))
            = Nat.eqb (length values) 0
              || Nat.ltb (10 * distinct values) (S p * length values))
    as Hscore.
  { intros p values. rewrite (Nat.mul_comm (distinct values)).
    destruct (length values); reflexivity. }
  rewrite (Hscore 2 industries), (Hscore 1 locations).
  destruct (Nat.eqb (length industries) 0
            || Nat.ltb (10 * distinct industries) (3 * length industries));
    destruct (Nat.eqb (length locations) 0
              || Nat.ltb (10 * distinct locations) (2 * length locations));
    destruct (bool_decide (low = []));
    cbn [negb app map recommendation_type];
    (split; [reflexivity|]);
    intros r Hr Htype;
    repeat (apply elem_of_cons in Hr as [->|Hr];
            [first [reflexivity
                   | exfalso; vm_compute in Htype; discriminate Htype]|]);
    apply elem_of_nil in Hr; contradiction.
Qed.
End Recommendations.

(** ** utils/ai_engine.py and routes/analytics.py: worked cases of the
    reports *)

Section NetworkCases.
Import Models AIEngine Analytics Connections Health Metrics Sample.

Lemma analyze_network_health_bounds_witness :
  exists health,
    analyze_network_health __init__ [contact_filled; contact_eva] = inr health
    /\ (0 <= health_score health <= 1)%Q
    /\ 1 <= length (recommendations health) <= 5.
Proof.
  assert (exists health,
            analyze_network_health __init__ [contact_filled; contact_eva]
            = inr health) as [health Hhealth]
    by (vm_compute; eexists; reflexivity).
  exists health. split; [exact Hhealth|].
  destruct (analyze_network_health_bounds __init__ _ health Hhealth)
    as (_ & _ & _ & Hscore & Hcount & _).
  split; [exact Hscore | exact Hcount].
Defined.

Lemma analyze_network_recommendations_spec_witness :
  map recommendation_type
      (analyze_network_recommendations
         [row_filled; row_name_only; row_eva; row_iker])
  = [u "improve_social_coverage"].
Proof.
  assert ([row_filled; row_name_only; row_eva; row_iker] <> []) as Hsome
    by discriminate.
  rewrite (proj1 (analyze_network_recommendations_spec _ Hsome)).
  vm_compute. reflexivity.
Defined.

End NetworkCases.

(** ** Examples *)

Section Examples.
Import Models Sample.

Example example_analysis :
  exists r,
    AIEngine.call_analyze AIEngine.__init__ AIEngine.contact_filled
      AIEngine.contact_eva
    = Ok r
    /\ (AIEngine.similarity_score r == 41875 # 100000)%Q
    /\ map snd (AIEngine.factors r) = [5#10; 6#10; 10#16; 8#10]%Q
    /\ AIEngine.recommendation_strength r = u "media".
Proof. eexists. split; [vm_compute; reflexivity|]. repeat split. Qed.

Example example_analysis_of_equal_records :
  exists r,
    AIEngine.call_analyze AIEngine.__init__ AIEngine.contact_eva
      AIEngine.contact_eva = Ok r
    /\ (AIEngine.similarity_score r == 98 # 100)%Q
    /\ AIEngine.recommendation_strength r = u "muy_alta".
Proof. eexists. split; [vm_compute; reflexivity|]. repeat split. Qed.

Example example_density :
  (Analytics.calculate_network_density
     [Connections.row_filled; Connections.row_eva; Connections.row_iker;
      Connections.row_filled]
   == 1 # 6)%Q.
Proof. vm_compute. reflexivity. Qed.

Example example_generate_connections :
  exists db',
    Connections.generate_connections (Some 1%Z) db_three_contacts
    = (Ok 200%Z, db')
    /\ map (fun c => (conn_contact_id c, suggested_contact_id c, status c))
           (Connections.connections db')
       = [(2%Z, 3%Z, u "pending")].
Proof. eexists. split; [vm_compute; reflexivity|]. reflexivity. Qed.

Example example_sanitize :
  Auth.sanitize_input (VStr (u "<b>Tom & 'Jerry'</b>"))
  = VStr (u "bTom  Jerry/b").
Proof. vm_compute. reflexivity. Qed.

Example example_verify_password :
  Auth.verify_own_hash salt_bytes (u "S3cret!pw") = Ok true
  /\ (exists hashed_password,
        Auth.hash_password salt_bytes (u "S3cret!pw") = Ok hashed_password
        /\ firstn 33 hashed_password = u "abcd0123456789ef1032547698badcfe:"
        /\ Auth.verify_password (u "guess") hashed_password = Ok false)
  /\ Auth.verify_password (u "guess") (u "no colon here") = Ok false
  /\ Auth.verify_password (u "guess") (u "a:b:c") = Ok false
  /\ Auth.verify_password password_with_surrogate (u "abcd:0123") = Ok false.
Proof.
  split; [vm_compute; reflexivity|].
  split; [eexists; split; [vm_compute; reflexivity|];
          split; vm_compute; reflexivity|].
  repeat split; vm_compute; reflexivity.
Qed.

Example example_register_unencodable_password :
  serve [register_at 0 (u "ana_1") (u "ana@example.com")
           password_with_surrogate]
  = [500]%Z.
Proof. vm_compute. reflexivity. Qed.

Example example_register_then_login :
  serve [register_at 0 (u "ana_1") (u "ana@example.com") (u "S3cret!pw");
         register_at 1 (u "ana_1") (u "ana@example.com") (u "S3cret!pw");
         login_at 2 (u "ana_1") (u "S3cret!pw");
         login_at 3 (u "ana_1") (u "guess")]
  = [201; 409; 200; 401]%Z.
Proof. vm_compute. reflexivity. Qed.

Example example_login_lockout :
  serve [register_at 0 (u "ana_1") (u "ana@example.com") (u "S3cret!pw");
         login_at 1 (u "ana_1") (u "guess");
         login_at 2 (u "ana_1") (u "guess");
         login_at 3 (u "ana_1") (u "guess");
         login_at 4 (u "ana_1") (u "guess");
         login_at 5 (u "ana_1") (u "guess");
         login_at 6 (u "ana_1") (u "S3cret!pw");
         login_at (minutes 16) (u "ana_1") (u "S3cret!pw")]
  = [201; 401; 401; 401; 401; 401; 429; 200]%Z.
Proof. vm_compute. reflexivity. Qed.

Example example_registration_checks :
  serve [register_at 0 (u "ana_1") (u "ana@example") (u "S3cret!pw");
         register_at 1 (u "ana_1") (u "ana@example.com") (u "secret");
         register_at 2 (u "a") (u "ana@example.com") (u "S3cret!pw");
         register_at 3 (u "ana_1") (u "ana@example.com") (u "S3cret!pw");
         register_at (minutes 61) (u "ana_1") (u "ana@example.com")
                     (u "S3cret!pw")]
  = [400; 400; 400; 429; 201]%Z.
Proof. vm_compute. reflexivity. Qed.

End Examples.
